(** * update-mod-source-data: the catalog generator of the mod list site

    A shallow embedding of [scripts/update-mod-source-data/index.js].
    The script reads a configuration of mods and texture packs, walks the
    GitHub releases of every entry, and assembles the catalog that the site
    publishes as [mods.json].

    Conventions of the embedding.
    - JS strings are [string], a text outside ASCII being held as UTF-8;
      [toLowerCase] acts on the ASCII letters, which are the only characters
      whose lower-case form can take part in a match against the ASCII
      literals the script compares with.
    - [console.log] / [console.error] append a line to the output of the run;
      [exit(1)] and an uncaught exception stop the run.  Both are carried by
      the result type [M].
    - The npm package [semver], the GitHub client, [fetch], [Date.parse] and
      [JSON] are not part of the repository: they are the operations of the
      classes [SemverLib], [World] and [JsonLib].
    - An object used as a dictionary is a [gmap]: it records which keys the
      object has and what they hold, not the order in which they were
      added; no statement below is about the order of keys.  Assignments go
      through [Js.set], because the key "__proto__" is not stored.
    - The lines about a [metadata.json] or a [config.yaml] that does not
      parse include the text of the exception: it is part of the answer
      ([body_error]) and of the configuration read ([inr e]). *)

From Stdlib Require Import ZArith NArith Ascii String List Bool Lia.
From stdpp Require Import base option list strings gmap fin_maps.
Import ListNotations.

Local Open Scope string_scope.
Local Open Scope Z_scope.
Local Set Warnings "-register-all".

(** ** Strings *)

Module Str.

(** [s.startsWith(p)] *)
Fixpoint startsWith (s p : string) {struct p} : bool :=
  match p with
  | EmptyString => true
  | String a p' =>
      match s with
      | EmptyString => false
      | String b s' => Ascii.eqb a b && startsWith s' p'
      end
  end.

(** [s.substring(1)] *)
Definition substring1 (s : string) : string :=
  match s with
  | EmptyString => EmptyString
  | String _ rest => rest
  end.

Definition lower_ascii (c : ascii) : ascii :=
  let n := N_of_ascii c in
  if ((65 <=? n)%N && (n <=? 90)%N)%bool then ascii_of_N (n + 32) else c.

(** [s.toLowerCase()] *)
Fixpoint toLowerCase (s : string) : string :=
  match s with
  | EmptyString => EmptyString
  | String c rest => String (lower_ascii c) (toLowerCase rest)
  end.

(** [xs.includes(x)] on an array of strings *)
Definition includes (xs : list string) (x : string) : bool :=
  existsb (String.eqb x) xs.

(** split at the first occurrence of [sep]: the text before it and, when
    [sep] occurs, the text after it *)
Fixpoint cut (sep : ascii) (s : string) : string * option string :=
  match s with
  | EmptyString => (EmptyString, None)
  | String c rest =>
      if Ascii.eqb c sep then (EmptyString, Some rest)
      else let '(a, b) := cut sep rest in (String c a, b)
  end.

(** [s.split(sep)] for a one-character separator *)
Fixpoint split (sep : ascii) (s : string) : list string :=
  match s with
  | EmptyString => [EmptyString]
  | String c rest =>
      if Ascii.eqb c sep then EmptyString :: split sep rest
      else match split sep rest with
           | [] => [String c EmptyString]
           | w :: ws => String c w :: ws
           end
  end.

Fixpoint forallb_string (p : ascii -> bool) (s : string) : bool :=
  match s with
  | EmptyString => true
  | String c rest => p c && forallb_string p rest
  end.

End Str.

(** ** Objects used as dictionaries *)

Module Js.

(** The one key of an ordinary object that an assignment does not store. *)
Definition proto : string := "__proto__".

(** [o[key] = value] for an object value: for the key "__proto__" the
    assignment replaces the prototype of [o], which [Object.keys] and
    [JSON.stringify] do not show and which the script never reads back; for
    every other key it creates or overwrites the property. *)
Definition set {V} (key : string) (value : V) (o : gmap string V)
  : gmap string V :=
  if String.eqb key proto then o else <[key := value]> o.

(** A fresh object filled by [for (const [key, x] of Object.entries(src))
    o[key] = f(x)]. *)
Definition assign_all {A V} (f : A -> V) (src : gmap string A)
  : gmap string V :=
  delete proto (f <$> src).

End Js.

(** ** Output lines and the ways a run stops *)

Inductive Line : Type :=
| Out (msg : string)      (* console.log *)
| Err (msg : string).     (* console.error, console.warn *)

Inductive Stop : Type :=
| Exit1                   (* exit(1), reached through exitWithError *)
| TypeError               (* an exception nobody catches *)
| SyntaxError             (* JSON.parse outside a try block *)
| RequestFailed.          (* a rejected request to GitHub or of fetch *)

(** A computation prints lines and either yields a value or stops. *)
Inductive M (A : Type) : Type :=
| Done (a : A) (lines : list Line)
| Halt (why : Stop) (lines : list Line).
Arguments Done {A} a lines.
Arguments Halt {A} why lines.

Global Instance M_ret : MRet M := fun A a => Done a [].

Global Instance M_bind : MBind M := fun A B k m =>
  match m with
  | Done a l1 =>
      match k a with
      | Done b l2 => Done b (l1 ++ l2)
      | Halt w l2 => Halt w (l1 ++ l2)
      end
  | Halt w l1 => Halt w l1
  end.

Definition console_log (msg : string) : M unit := Done tt [Out msg].
Definition console_error (msg : string) : M unit := Done tt [Err msg].
Definition throw {A} (w : Stop) : M A := Halt w [].

(** [function exitWithError(errorMessage)] *)
Definition exitWithError {A} (errorMessage : string) : M A :=
  Halt Exit1 [Err errorMessage].

Definition lines_of {A} (m : M A) : list Line :=
  match m with Done _ l => l | Halt _ l => l end.

Definition value_of {A} (m : M A) : option A :=
  match m with Done a _ => Some a | Halt _ _ => None end.

Definition stopped {A} (m : M A) : option Stop :=
  match m with Done _ _ => None | Halt w _ => Some w end.

(** ** The semver package *)

(** [new SemVer(s)] either builds a version or throws; [compare] orders two
    versions. *)
Class SemverLib : Type := {
  SemVer : Type;
  semver_parse : string -> option SemVer;
  semver_compare : SemVer -> SemVer -> comparison
}.

Definition is_Lt (c : comparison) : bool :=
  match c with Lt => true | _ => false end.
Definition is_Eq (c : comparison) : bool :=
  match c with Eq => true | _ => false end.

Section Semver.
Context `{SemverLib}.

(** [semver.valid(s)], used for its truthiness only *)
Definition semver_valid (s : string) : bool :=
  match semver_parse s with Some _ => true | None => false end.

(** [semver.compare(a, b)]: both operands are parsed, an invalid one
    throws *)
Definition semver_compare_str (a b : string) : M comparison :=
  match semver_parse a, semver_parse b with
  | Some x, Some y => mret (semver_compare x y)
  | _, _ => throw TypeError
  end.

(** [semver.lt(a, b)] *)
Definition semver_lt (a b : string) : M bool :=
  c ← semver_compare_str a b; mret (is_Lt c).

(** [semver.eq(a, b)] *)
Definition semver_eq (a b : string) : M bool :=
  c ← semver_compare_str a b; mret (is_Eq c).
End Semver.

(** ** Data model *)

(** Values of a [metadata.json] document that the script copies without
    looking inside. *)
Inductive json : Type :=
| JNull
| JBool (b : bool)
| JNum (n : Z)
| JStr (s : string)
| JArr (items : list json)
| JObj (fields : list (string * json)).

(** [Object.keys(o)] of an object value *)
Definition json_keys (v : json) : list string :=
  match v with
  | JObj fields => map fst fields
  | _ => []
  end.

(** One entry of [per_game_config] in [config.yaml]. *)
Record PerGameEntry : Type := {
  pg_cover_art_url : option string;
  pg_thumbnail_art_url : option string;
  pg_release_date_override : option string
}.

(** One entry of [mods] or [texture_packs] in [config.yaml].  A key that the
    entry does not have is [None]. *)
Record ModEntry : Type := {
  display_name : option string;
  description : option string;
  authors : option (list string);
  tags : option (list string);
  website_url : option string;
  external_link : option string;
  supported_games : option (list string);
  repo_owner : option string;
  repo_name : option string;
  ignore_versions : option (list string);
  release_date_override : option string;
  cover_art_url : option string;
  thumbnail_art_url : option string;
  per_game_config : option (gmap string PerGameEntry)
}.

Record Config : Type := {
  cfg_metadata : option (option string);     (* metadata, metadata.name *)
  cfg_mods : option (list (string * ModEntry));
  cfg_texture_packs : option (list (string * ModEntry))
}.

(** A release asset and a release, as the GitHub API lists them. *)
Record Asset : Type := {
  name : string;
  browser_download_url : string;
  download_count : Z
}.

Record Release : Type := {
  tag_name : string;
  published_at : string;
  release_assets : list Asset
}.

(** The parsed [metadata.json] of a release. *)
Record MetadataDoc : Type := {
  md_settings : option json;
  md_supportedGames : option (list string)
}.

(** The answer of [fetch]: the status and [JSON.parse] of the body, [None]
    when the body is not JSON. *)
Record Response : Type := {
  status : Z;
  body_json : option MetadataDoc;
  (** the text of the exception, when [JSON.parse] throws *)
  body_error : string
}.

Record Slots (A : Type) : Type := {
  windows : A;
  linux : A;
  macos : A
}.
Arguments windows {A} _.
Arguments linux {A} _.
Arguments macos {A} _.

(** [newVersion] of a mod *)
Record VersionInfo : Type := {
  version : string;
  publishedDate : string;
  v_supportedGames : list string;
  settings : json;
  assets : Slots (option string);
  assetDownloadCounts : Slots Z
}.

(** An object of [modSourceInfo.perGameConfig] *)
Record PerGameInfo : Type := {
  pgi_coverArtUrl : option string;
  pgi_thumbnailArtUrl : option string;
  pgi_releaseDate : option string
}.

(** [modSourceInfo] of a mod *)
Record ModSourceInfo : Type := {
  displayName : option string;
  msi_description : option string;
  msi_authors : option (list string);
  msi_tags : option (list string);
  websiteUrl : option string;
  supportedGames : list string;
  versions : list VersionInfo;
  coverArtUrl : option string;
  thumbnailArtUrl : option string;
  perGameConfig : gmap string PerGameInfo;
  externalLink : option string
}.

(** [newVersion] of a texture pack *)
Record PackVersion : Type := {
  pv_version : string;
  pv_publishedDate : string;
  downloadUrl : option string;
  downloadCount : Z
}.

(** [modSourceInfo] of a texture pack *)
Record TexturePackInfo : Type := {
  tp_displayName : option string;
  tp_description : option string;
  tp_authors : option (list string);
  tp_tags : option (list string);
  tp_websiteUrl : option string;
  tp_versions : list PackVersion;
  tp_thumbnailArtUrl : option string;
  tp_perGameConfig : option (gmap string PerGameEntry)
}.

(** [modSourceData] *)
Record Catalog : Type := {
  schemaVersion : string;
  sourceName : string;
  mods : gmap string ModSourceInfo;
  texturePacks : gmap string TexturePackInfo;
  lastUpdated : option string
}.

(** ** What the script asks of the outside *)

Class World : Type := {
  (** [octokit.paginate(octokit.rest.repos.listReleases, {owner, repo})] *)
  listReleases : string -> string -> option (list Release);
  (** [fetch(url)] followed by [JSON.parse(await resp.text())] *)
  fetch : string -> option Response;
  (** [Date.parse(s)], [None] for [NaN] *)
  Date_parse : string -> option Z;
  (** [(new Date()).toISOString()] *)
  now : string
}.

(** ** Small helpers for the JS idioms of the script *)

(** [Object.keys(o).includes(k)] for the key held by an optional field *)
Definition has {A} (field : option A) : bool :=
  match field with Some _ => true | None => false end.

(** truthiness of [modInfo[k]] for a string field *)
Definition truthy (field : option string) : bool :=
  match field with
  | Some s => negb (String.eqb s "")
  | None => false
  end.

(** a field inside a template literal *)
Definition show (field : option string) : string :=
  match field with Some s => s | None => "undefined" end.

(** [Object.keys(modInfo)] *)
Definition keys_of (modInfo : ModEntry) : list string :=
  (if has (display_name modInfo) then ["display_name"] else []) ++
  (if has (description modInfo) then ["description"] else []) ++
  (if has (authors modInfo) then ["authors"] else []) ++
  (if has (tags modInfo) then ["tags"] else []) ++
  (if has (website_url modInfo) then ["website_url"] else []) ++
  (if has (external_link modInfo) then ["external_link"] else []) ++
  (if has (supported_games modInfo) then ["supported_games"] else []) ++
  (if has (repo_owner modInfo) then ["repo_owner"] else []) ++
  (if has (repo_name modInfo) then ["repo_name"] else []) ++
  (if has (ignore_versions modInfo) then ["ignore_versions"] else []) ++
  (if has (release_date_override modInfo) then ["release_date_override"] else []) ++
  (if has (cover_art_url modInfo) then ["cover_art_url"] else []) ++
  (if has (thumbnail_art_url modInfo) then ["thumbnail_art_url"] else []) ++
  (if has (per_game_config modInfo) then ["per_game_config"] else []).

(** [function validateJsonKeys(keysToCheck, keys, messagePrefix)] *)
Fixpoint validateJsonKeys (keysToCheck keys : list string)
  (messagePrefix : string) : M bool :=
  match keysToCheck with
  | [] => mret true
  | key :: rest =>
      if negb (Str.includes keys key)
      then console_error (messagePrefix +:+ ": missing " +:+ key);; mret false
      else validateJsonKeys rest keys messagePrefix
  end.

(** ** Command line *)

(** Lines 9-14: the value of [lintMode] and what is printed. *)
Definition parse_args (args : list string) : M bool :=
  match args with
  | [] => mret false
  | arg0 :: _ =>
      let lintMode := String.eqb arg0 "lint" in
      console_log "lint mode enabled";; mret lintMode
  end.

(** ** Releases of a mod *)

(** Lines 157-160: the tag without one leading "v". *)
Definition clean_tag (tag : string) : string :=
  if Str.startsWith tag "v" then Str.substring1 tag else tag.

Section Ignore.
Context `{SemverLib}.

(** Lines 167-181: the loop over [ignore_versions]; the value is [skipIt]. *)
Fixpoint ignore_loop (modName cleaned_release_tag : string)
  (rules : list string) : M bool :=
  match rules with
  | [] => mret false
  | ignore_version :: rest =>
      if Str.startsWith ignore_version "<" then
        let cleaned_ignore_version := Str.substring1 ignore_version in
        lt ← semver_lt cleaned_release_tag cleaned_ignore_version;
        if (lt : bool) then
          console_log ("ignoring release - " +:+ modName +:+ ":" +:+ cleaned_release_tag);;
          mret true
        else ignore_loop modName cleaned_release_tag rest
      else
        eq ← semver_eq ignore_version cleaned_release_tag;
        if (eq : bool) then
          console_log ("ignoring release - " +:+ modName +:+ ":" +:+ ignore_version);;
          mret true
        else ignore_loop modName cleaned_release_tag rest
  end.

End Ignore.

(** Lines 186-204: [newVersion] as it is created. *)
Definition default_settings : json :=
  JObj [("decompConfigOverride", JStr ""); ("shareVanillaSaves", JBool false)].

Definition new_version (cleaned_release_tag : string) (release : Release)
  : VersionInfo :=
  {| version := cleaned_release_tag;
     publishedDate := published_at release;
     v_supportedGames := [];
     settings := default_settings;
     assets := {| windows := None; linux := None; macos := None |};
     assetDownloadCounts := {| windows := 0; linux := 0; macos := 0 |} |}.

Definition set_windows {A} (x : A) (s : Slots A) : Slots A :=
  {| windows := x; linux := linux s; macos := macos s |}.
Definition set_linux {A} (x : A) (s : Slots A) : Slots A :=
  {| windows := windows s; linux := x; macos := macos s |}.
Definition set_macos {A} (x : A) (s : Slots A) : Slots A :=
  {| windows := windows s; linux := linux s; macos := x |}.

Definition with_slots (f : Slots (option string) -> Slots (option string))
  (g : Slots Z -> Slots Z) (v : VersionInfo) : VersionInfo :=
  {| version := version v;
     publishedDate := publishedDate v;
     v_supportedGames := v_supportedGames v;
     settings := settings v;
     assets := f (assets v);
     assetDownloadCounts := g (assetDownloadCounts v) |}.

Definition with_settings (s : json) (v : VersionInfo) : VersionInfo :=
  {| version := version v;
     publishedDate := publishedDate v;
     v_supportedGames := v_supportedGames v;
     settings := s;
     assets := assets v;
     assetDownloadCounts := assetDownloadCounts v |}.

Definition with_supportedGames (games : list string) (v : VersionInfo)
  : VersionInfo :=
  {| version := version v;
     publishedDate := publishedDate v;
     v_supportedGames := games;
     settings := settings v;
     assets := assets v;
     assetDownloadCounts := assetDownloadCounts v |}.

(** Lines 208-219: the body of the loop over [release.assets]; the state is
    [newVersion] and [metadataFileUrl]. *)
Definition classify_asset (acc : VersionInfo * option string) (asset : Asset)
  : VersionInfo * option string :=
  let '(newVersion, metadataFileUrl) := acc in
  let lowered := Str.toLowerCase (name asset) in
  if Str.startsWith lowered "windows-" then
    (with_slots (set_windows (Some (browser_download_url asset)))
                (set_windows (download_count asset)) newVersion,
     metadataFileUrl)
  else if Str.startsWith lowered "linux-" then
    (with_slots (set_linux (Some (browser_download_url asset)))
                (set_linux (download_count asset)) newVersion,
     metadataFileUrl)
  else if Str.startsWith lowered "macos-" then
    (with_slots (set_macos (Some (browser_download_url asset)))
                (set_macos (download_count asset)) newVersion,
     metadataFileUrl)
  else if String.eqb lowered "metadata.json" then
    (newVersion, Some (browser_download_url asset))
  else (newVersion, metadataFileUrl).

(** Lines 206-220 *)
Definition classify_assets (newVersion : VersionInfo) (assets : list Asset)
  : VersionInfo * option string :=
  fold_left classify_asset assets (newVersion, None).

(** ** Merging what a release says into [modSourceInfo] *)

Definition with_releaseDate (d : string) (p : PerGameInfo) : PerGameInfo :=
  {| pgi_coverArtUrl := pgi_coverArtUrl p;
     pgi_thumbnailArtUrl := pgi_thumbnailArtUrl p;
     pgi_releaseDate := Some d |}.

(** the object [{}] *)
Definition empty_per_game : PerGameInfo :=
  {| pgi_coverArtUrl := None; pgi_thumbnailArtUrl := None;
     pgi_releaseDate := None |}.

(** Lines 236-238 for one game *)
Definition add_supported_game (acc : list string) (supportedGame : string)
  : list string :=
  if negb (Str.includes acc supportedGame) then acc ++ [supportedGame] else acc.

(** [modInfo["per_game_config"][game]["release_date_override"]] when all
    three keys are there (line 250) *)
Definition per_game_override (modInfo : ModEntry) (supportedGame : string)
  : option string :=
  match per_game_config modInfo with
  | Some cfg =>
      match cfg !! supportedGame with
      | Some entry => pg_release_date_override entry
      | None => None
      end
  | None => None
  end.

Section Dates.
Context `{World}.

(** [Date.parse(a) > Date.parse(b)]; a comparison with [NaN] is false *)
Definition later_than (a b : string) : bool :=
  match Date_parse a, Date_parse b with
  | Some x, Some y => y <? x
  | _, _ => false
  end.

(** Lines 243-258: the body of the loop that updates the per-game release
    date. *)
Definition merge_release_date (modInfo : ModEntry) (newPublishedDate : string)
  (perGameConfig : gmap string PerGameInfo) (supportedGame : string)
  : gmap string PerGameInfo :=
  let perGameConfig :=
    match perGameConfig !! supportedGame with
    | None => Js.set supportedGame empty_per_game perGameConfig
    | Some _ => perGameConfig
    end in
  let current := default empty_per_game (perGameConfig !! supportedGame) in
  match release_date_override modInfo with
  | Some override =>
      Js.set supportedGame (with_releaseDate override current) perGameConfig
  | None =>
      match per_game_override modInfo supportedGame with
      | Some override =>
          Js.set supportedGame (with_releaseDate override current)
            perGameConfig
      | None =>
          match pgi_releaseDate current with
          | None =>
              Js.set supportedGame (with_releaseDate newPublishedDate current)
                perGameConfig
          | Some stored =>
              if later_than stored newPublishedDate
              then Js.set supportedGame
                     (with_releaseDate newPublishedDate current) perGameConfig
              else perGameConfig
          end
      end
  end.

End Dates.

(** Lines 268-272 and 281-285: every supported game needs the art URL in
    [modSourceInfo.perGameConfig]. *)
Fixpoint check_per_game_art (modName key : string)
  (art : PerGameInfo -> option string)
  (perGameConfig : gmap string PerGameInfo) (games : list string) : M unit :=
  match games with
  | [] => mret tt
  | supportedGame :: rest =>
      match perGameConfig !! supportedGame ≫= art with
      | None =>
          exitWithError (modName +:+ " does not define '" +:+ key +:+
            "' and it's missing in 'per_game_config." +:+ supportedGame +:+ "'")
      | Some _ => check_per_game_art modName key art perGameConfig rest
      end
  end.

(** Lines 262-274 and 275-287 *)
Definition verify_art (lintMode : bool) (modName key : string)
  (modInfo : ModEntry) (topLevel : option string)
  (art : PerGameInfo -> option string)
  (perGameConfig : gmap string PerGameInfo) (games : list string) : M unit :=
  match topLevel with
  | Some _ => mret tt
  | None =>
      (if negb (has (per_game_config modInfo))
       then exitWithError (modName +:+ " does not define '" +:+ key +:+
              "' but lacks 'per_game_config'")
       else mret tt);;
      if negb lintMode
      then check_per_game_art modName key art perGameConfig games
      else mret tt
  end.

Definition with_games_and_config (games : list string)
  (cfg : gmap string PerGameInfo) (m : ModSourceInfo) : ModSourceInfo :=
  {| displayName := displayName m;
     msi_description := msi_description m;
     msi_authors := msi_authors m;
     msi_tags := msi_tags m;
     websiteUrl := websiteUrl m;
     supportedGames := games;
     versions := versions m;
     coverArtUrl := coverArtUrl m;
     thumbnailArtUrl := thumbnailArtUrl m;
     perGameConfig := cfg;
     externalLink := externalLink m |}.

Definition push_version (v : VersionInfo) (m : ModSourceInfo) : ModSourceInfo :=
  {| displayName := displayName m;
     msi_description := msi_description m;
     msi_authors := msi_authors m;
     msi_tags := msi_tags m;
     websiteUrl := websiteUrl m;
     supportedGames := supportedGames m;
     versions := versions m ++ [v];
     coverArtUrl := coverArtUrl m;
     thumbnailArtUrl := thumbnailArtUrl m;
     perGameConfig := perGameConfig m;
     externalLink := externalLink m |}.

Section Mods.
Context `{SemverLib} `{World}.

(** Lines 225-288: the body of the [try], entered with the parsed document. *)
Definition apply_metadata (lintMode : bool) (modName : string)
  (modInfo : ModEntry) (cleaned_release_tag : string) (data : MetadataDoc)
  (newVersion : VersionInfo) (modSourceInfo : ModSourceInfo)
  : M (VersionInfo * ModSourceInfo) :=
  let newVersion :=
    match md_settings data with
    | Some s => with_settings s newVersion
    | None => newVersion
    end in
  match md_supportedGames data with
  | None =>
      exitWithError ("metadata.json, for version: " +:+ modName +:+ ":" +:+
        cleaned_release_tag +:+ " does not include 'supportedGames'")
  | Some games =>
      let newVersion := with_supportedGames games newVersion in
      let allGames := fold_left add_supported_game games
                        (supportedGames modSourceInfo) in
      let cfg := fold_left (merge_release_date modInfo (publishedDate newVersion))
                   games (perGameConfig modSourceInfo) in
      let modSourceInfo := with_games_and_config allGames cfg modSourceInfo in
      verify_art lintMode modName "cover_art_url" modInfo
        (coverArtUrl modSourceInfo) pgi_coverArtUrl cfg games;;
      verify_art lintMode modName "thumbnail_art_url" modInfo
        (thumbnailArtUrl modSourceInfo) pgi_thumbnailArtUrl cfg games;;
      mret (newVersion, modSourceInfo)
  end.

(** Lines 221-297: find, fetch and read [metadata.json]. *)
Definition resolve_metadata (lintMode : bool) (modName : string)
  (modInfo : ModEntry) (cleaned_release_tag : string)
  (metadataFileUrl : option string)
  (newVersion : VersionInfo) (modSourceInfo : ModSourceInfo)
  : M (VersionInfo * ModSourceInfo) :=
  match metadataFileUrl with
  | Some url =>
      match fetch url with
      | None => throw RequestFailed
      | Some metadataResp =>
          if status metadataResp =? 200 then
            match body_json metadataResp with
            | Some data =>
                apply_metadata lintMode modName modInfo cleaned_release_tag
                  data newVersion modSourceInfo
            | None =>
                exitWithError ("Bad metadata.json, not valid JSON: " +:+
                  body_error metadataResp +:+ " -- " +:+
                  modName +:+ ":" +:+ cleaned_release_tag)
            end
          else
            exitWithError
              ("Hit non-200 status code when fetching metadata file for mod release version "
               +:+ modName +:+ ":" +:+ cleaned_release_tag)
      end
  | None =>
      exitWithError ("Could not find 'metadata.json' asset in " +:+
        modName +:+ ":" +:+ cleaned_release_tag)
  end.

(** Lines 186-305: what happens to a release that the ignore rules let
    through. *)
Definition build_version (lintMode : bool) (modName : string)
  (modInfo : ModEntry) (cleaned_release_tag : string) (release : Release)
  (modSourceInfo : ModSourceInfo) : M ModSourceInfo :=
  let '(newVersion, metadataFileUrl) :=
    classify_assets (new_version cleaned_release_tag release)
      (release_assets release) in
  '(newVersion, modSourceInfo) ←
    resolve_metadata lintMode modName modInfo cleaned_release_tag
      metadataFileUrl newVersion modSourceInfo;
  if has (windows (assets newVersion)) || has (linux (assets newVersion))
     || has (macos (assets newVersion))
  then mret (push_version newVersion modSourceInfo)
  else
    console_log ("ignoring version, no assets found - " +:+ modName +:+ ":" +:+
      cleaned_release_tag);;
    mret modSourceInfo.

(** Lines 157-306: the body of the loop over the releases of a mod. *)
Definition process_release (lintMode : bool) (modName : string)
  (modInfo : ModEntry) (modSourceInfo : ModSourceInfo) (release : Release)
  : M ModSourceInfo :=
  let cleaned_release_tag := clean_tag (tag_name release) in
  if negb (semver_valid cleaned_release_tag) then
    console_error (modName +:+ ":" +:+ cleaned_release_tag +:+
      " is not a valid semantic version, skipping");;
    mret modSourceInfo
  else
    match ignore_versions modInfo with
    | Some rules =>
        skipIt ← ignore_loop modName cleaned_release_tag rules;
        if (skipIt : bool) then mret modSourceInfo
        else build_version lintMode modName modInfo cleaned_release_tag
               release modSourceInfo
    | None => mret modSourceInfo
    end.

(** Lines 156-307 *)
Fixpoint process_releases (lintMode : bool) (modName : string)
  (modInfo : ModEntry) (modReleases : list Release)
  (modSourceInfo : ModSourceInfo) : M ModSourceInfo :=
  match modReleases with
  | [] => mret modSourceInfo
  | release :: rest =>
      modSourceInfo ← process_release lintMode modName modInfo modSourceInfo release;
      process_releases lintMode modName modInfo rest modSourceInfo
  end.

End Mods.

(** ** One mod entry *)

(** Lines 126-137: the per-game objects that start from the configuration. *)
Definition initial_per_game (entry : PerGameEntry) : PerGameInfo :=
  {| pgi_coverArtUrl := pg_cover_art_url entry;
     pgi_thumbnailArtUrl := pg_thumbnail_art_url entry;
     pgi_releaseDate := None |}.

(** Lines 105 and 113-119, shared by mods and texture packs *)
Definition resolve_website (modInfo : ModEntry) : option string :=
  if negb (has (website_url modInfo)) then
    if negb (has (external_link modInfo)) then
      Some ("https://www.github.com/" +:+ show (repo_owner modInfo) +:+ "/" +:+
            show (repo_name modInfo))
    else website_url modInfo
  else website_url modInfo.

(** Lines 100-137: [modSourceInfo] before any release is looked at. *)
Definition initial_mod_info (modInfo : ModEntry) : ModSourceInfo :=
  {| displayName := display_name modInfo;
     msi_description := description modInfo;
     msi_authors := authors modInfo;
     msi_tags := tags modInfo;
     websiteUrl := resolve_website modInfo;
     supportedGames := [];
     versions := [];
     coverArtUrl := cover_art_url modInfo;
     thumbnailArtUrl := thumbnail_art_url modInfo;
     perGameConfig :=
       match per_game_config modInfo with
       | Some cfg => Js.assign_all initial_per_game cfg
       | None => ∅
       end;
     externalLink := None |}.

Definition as_external (link : string) (games : list string)
  (m : ModSourceInfo) : ModSourceInfo :=
  {| displayName := displayName m;
     msi_description := msi_description m;
     msi_authors := msi_authors m;
     msi_tags := msi_tags m;
     websiteUrl := websiteUrl m;
     supportedGames := games;
     versions := versions m;
     coverArtUrl := coverArtUrl m;
     thumbnailArtUrl := thumbnailArtUrl m;
     perGameConfig := perGameConfig m;
     externalLink := Some link |}.

Definition required_keys : list string :=
  ["display_name"; "description"; "authors"; "tags"].

(** Lines 97-99 and 331-333 *)
Definition validate_entry (modName : string) (modInfo : ModEntry) : M unit :=
  ok ← validateJsonKeys required_keys (keys_of modInfo) modName;
  if negb ok then exitWithError "aborting" else mret tt.

(** Lines 150-152 and 373-375 *)
Definition require_repo (modName : string) (modInfo : ModEntry) : M unit :=
  if negb (truthy (repo_owner modInfo)) || negb (truthy (repo_name modInfo))
  then exitWithError ("'repo_owner' or 'repo_name' missing in: " +:+ modName)
  else mret tt.

Section Entries.
Context `{SemverLib} `{World}.

(** Lines 94-320: the body of the loop over [configFile["mods"]]; the value
    is what is stored in [modSourceData.mods[modName]]. *)
Definition process_mod (lintMode : bool) (modName : string)
  (modInfo : ModEntry) : M ModSourceInfo :=
  validate_entry modName modInfo;;
  let modSourceInfo := initial_mod_info modInfo in
  match external_link modInfo with
  | Some link =>
      match supported_games modInfo with
      | None =>
          exitWithError (modName +:+ " is external but lacks 'supported_games'")
      | Some games => mret (as_external link games modSourceInfo)
      end
  | None =>
      require_repo modName modInfo;;
      modSourceInfo ←
        (if negb lintMode then
           match listReleases (show (repo_owner modInfo))
                              (show (repo_name modInfo)) with
           | None => throw RequestFailed
           | Some modReleases =>
               process_releases lintMode modName modInfo modReleases
                 modSourceInfo
           end
         else mret modSourceInfo);
      if (length (supportedGames modSourceInfo) =? 0)%nat then
        console_log
          ("had no supported games at the top level, this is optional, defaulted to 'jak1': "
           +:+ modName);;
        mret (with_games_and_config ["jak1"] (perGameConfig modSourceInfo)
                modSourceInfo)
      else mret modSourceInfo
  end.

(** Lines 93-321 *)
Fixpoint process_mods (lintMode : bool) (entries : list (string * ModEntry))
  (acc : gmap string ModSourceInfo) : M (gmap string ModSourceInfo) :=
  match entries with
  | [] => mret acc
  | (modName, modInfo) :: rest =>
      modSourceInfo ← process_mod lintMode modName modInfo;
      process_mods lintMode rest (Js.set modName modSourceInfo acc)
  end.

End Entries.

(** ** Texture packs *)

(** Lines 409-414 *)
Definition new_pack_version (cleaned_release_tag : string) (release : Release)
  : PackVersion :=
  {| pv_version := cleaned_release_tag;
     pv_publishedDate := published_at release;
     downloadUrl := None;
     downloadCount := 0 |}.

(** Lines 417-420: the body of the loop over [release.assets]. *)
Definition classify_pack_asset (newVersion : PackVersion) (asset : Asset)
  : PackVersion :=
  if String.eqb (Str.toLowerCase (name asset)) "assets.zip" then
    {| pv_version := pv_version newVersion;
       pv_publishedDate := pv_publishedDate newVersion;
       downloadUrl := Some (browser_download_url asset);
       downloadCount := download_count asset |}
  else newVersion.

(** [newVersion.assets] of a texture-pack version: the object is created
    without that property, so the read yields [undefined]. *)
Definition pv_assets (newVersion : PackVersion) : option PackVersion := None.

Definition push_pack_version (v : PackVersion) (m : TexturePackInfo)
  : TexturePackInfo :=
  {| tp_displayName := tp_displayName m;
     tp_description := tp_description m;
     tp_authors := tp_authors m;
     tp_tags := tp_tags m;
     tp_websiteUrl := tp_websiteUrl m;
     tp_versions := tp_versions m ++ [v];
     tp_thumbnailArtUrl := tp_thumbnailArtUrl m;
     tp_perGameConfig := tp_perGameConfig m |}.

(** Lines 334-359 *)
Definition initial_pack_info (modInfo : ModEntry) : TexturePackInfo :=
  {| tp_displayName := display_name modInfo;
     tp_description := description modInfo;
     tp_authors := authors modInfo;
     tp_tags := tags modInfo;
     tp_websiteUrl := resolve_website modInfo;
     tp_versions := [];
     tp_thumbnailArtUrl := thumbnail_art_url modInfo;
     tp_perGameConfig := per_game_config modInfo |}.

Section Packs.
Context `{SemverLib} `{World}.

(** Lines 409-428: what happens to a texture-pack release that the ignore
    rules let through.  Line 423 reads [newVersion.assets.downloadUrl]; a
    property read on [undefined] throws. *)
Definition build_pack_version (modName cleaned_release_tag : string)
  (release : Release) (modSourceInfo : TexturePackInfo) : M TexturePackInfo :=
  let newVersion :=
    fold_left classify_pack_asset (release_assets release)
      (new_pack_version cleaned_release_tag release) in
  match pv_assets newVersion with
  | None => throw TypeError
  | Some assets =>
      if negb (has (downloadUrl assets)) then
        console_log ("ignoring version, no assets.zip found - " +:+ modName +:+
          ":" +:+ cleaned_release_tag);;
        mret modSourceInfo
      else mret (push_pack_version newVersion modSourceInfo)
  end.

(** Lines 380-429: the body of the loop over the releases of a texture
    pack. *)
Definition process_pack_release (modName : string) (modInfo : ModEntry)
  (modSourceInfo : TexturePackInfo) (release : Release) : M TexturePackInfo :=
  let cleaned_release_tag := clean_tag (tag_name release) in
  if negb (semver_valid cleaned_release_tag) then
    console_error (modName +:+ ":" +:+ cleaned_release_tag +:+
      " is not a valid semantic version, skipping");;
    mret modSourceInfo
  else
    match ignore_versions modInfo with
    | Some rules =>
        skipIt ← ignore_loop modName cleaned_release_tag rules;
        if (skipIt : bool) then mret modSourceInfo
        else build_pack_version modName cleaned_release_tag release
               modSourceInfo
    | None => mret modSourceInfo
    end.

(** Lines 379-430 *)
Fixpoint process_pack_releases (modName : string) (modInfo : ModEntry)
  (modReleases : list Release) (modSourceInfo : TexturePackInfo)
  : M TexturePackInfo :=
  match modReleases with
  | [] => mret modSourceInfo
  | release :: rest =>
      modSourceInfo ← process_pack_release modName modInfo modSourceInfo release;
      process_pack_releases modName modInfo rest modSourceInfo
  end.

(** Lines 328-433: the body of the loop over [configFile["texture_packs"]]. *)
Definition process_pack (lintMode : bool) (modName : string)
  (modInfo : ModEntry) : M TexturePackInfo :=
  validate_entry modName modInfo;;
  let modSourceInfo := initial_pack_info modInfo in
  (if negb (has (tp_thumbnailArtUrl modSourceInfo))
      && negb (has (per_game_config modInfo))
   then exitWithError (modName +:+
          " does not define 'thumbnail_art_url' but lacks 'per_game_config'")
   else mret tt);;
  require_repo modName modInfo;;
  if negb lintMode then
    match listReleases (show (repo_owner modInfo))
                       (show (repo_name modInfo)) with
    | None => throw RequestFailed
    | Some modReleases =>
        process_pack_releases modName modInfo modReleases modSourceInfo
    end
  else mret modSourceInfo.

(** Lines 327-434 *)
Fixpoint process_packs (lintMode : bool) (entries : list (string * ModEntry))
  (acc : gmap string TexturePackInfo) : M (gmap string TexturePackInfo) :=
  match entries with
  | [] => mret acc
  | (modName, modInfo) :: rest =>
      modSourceInfo ← process_pack lintMode modName modInfo;
      process_packs lintMode rest (Js.set modName modSourceInfo acc)
  end.

End Packs.

(** ** Writing the catalog *)

(** [JSON] and the file [../../site/mods.json]. *)
Class JsonLib : Type := {
  (** what [JSON.parse] returns *)
  Parsed : Type;
  (** [JSON.parse(text)], [None] when it throws *)
  JSON_parse : string -> option Parsed;
  (** [delete v["lastUpdated"]], [None] when [v] is [null] and the
      statement throws *)
  delete_lastUpdated : Parsed -> option Parsed;
  (** [JSON.stringify(v)] of a parsed value *)
  JSON_stringify_parsed : Parsed -> string;
  (** [JSON.stringify(modSourceData)] *)
  JSON_stringify : Catalog -> string;
  (** [JSON.stringify(modSourceData, null, 4)] *)
  JSON_stringify_pretty : Catalog -> string
}.

(** [modSourceData.lastUpdated = ...] *)
Definition stamp (time : string) (c : Catalog) : Catalog :=
  {| schemaVersion := schemaVersion c;
     sourceName := sourceName c;
     mods := mods c;
     texturePacks := texturePacks c;
     lastUpdated := Some time |}.

Section Write.
Context `{World} `{JsonLib}.

(** Lines 437-457.  [existing] is the text of the file when it exists; the
    value is the text handed to [fs.writeFileSync], if it is called. *)
Definition diff_and_write (lintMode : bool) (existing : option string)
  (modSourceData : Catalog) : M (option string) :=
  if negb lintMode then
    match existing with
    | Some text =>
        match JSON_parse text with
        | None => throw SyntaxError
        | Some existingModSourceData =>
            match delete_lastUpdated existingModSourceData with
            | None => throw TypeError
            | Some existingModSourceData =>
                if String.eqb (JSON_stringify_parsed existingModSourceData)
                              (JSON_stringify modSourceData)
                then
                  console_log "mods.json would be unchanged, not updating the file";;
                  mret None
                else
                  mret (Some (JSON_stringify_pretty (stamp now modSourceData)))
            end
        end
    | None => mret (Some (JSON_stringify_pretty (stamp now modSourceData)))
    end
  else mret None.

End Write.

(** ** The whole script *)

Section Main.
Context `{SemverLib} `{World} `{JsonLib}.

(** Lines 64-91 and 323: from the configuration to the catalog in memory.
    [configFile] is [None] when [config.yaml] is absent and [Some (inr e)]
    when it does not parse, [e] being the text of the exception. *)
Definition assemble (lintMode : bool) (configFile : option (Config + string))
  : M Catalog :=
  match configFile with
  | None => exitWithError "Couldn't locate 'config.yaml' file, aborting!"
  | Some (inr e) =>
      exitWithError ("Couldn't successfully parse config file, fix it!: " +:+ e)
  | Some (inl configFile) =>
      match cfg_metadata configFile with
      | None => throw TypeError
      | Some metadata_name =>
          (if negb (truthy metadata_name)
           then exitWithError "'metadata' section missing schema_version or name"
           else mret tt);;
          match cfg_mods configFile with
          | None => exitWithError "'mods' section missing"
          | Some entries =>
              mods ← process_mods lintMode entries ∅;
              texturePacks ←
                match cfg_texture_packs configFile with
                | Some packs => process_packs lintMode packs ∅
                | None => mret ∅
                end;
              mret {| schemaVersion := "1.0.0";
                      sourceName := show metadata_name;
                      mods := mods;
                      texturePacks := texturePacks;
                      lastUpdated := None |}
          end
      end
  end.

(** The script from top to bottom. *)
Definition main (args : list string) (configFile : option (Config + string))
  (existing : option string) : M (Catalog * option string) :=
  lintMode ← parse_args args;
  modSourceData ← assemble lintMode configFile;
  written ← diff_and_write lintMode existing modSourceData;
  mret (modSourceData, written).

End Main.

(** ** A semver package to run the script with *)

(** The npm package [semver] is a dependency and not part of the
    repository.  This instance follows the grammar and precedence
    of semantic versioning 2.0.0 as the package applies them in strict mode:
    an optional leading "v", three numeric identifiers without leading zeros
    and not above [Number.MAX_SAFE_INTEGER], an optional pre-release after
    "-", optional build metadata after "+", at most 256 characters.  Build
    metadata does not take part in comparisons.  The package also trims
    surrounding white space, which is left out here. *)
Module NpmSemver.

Inductive identifier : Type :=
| Numeric (n : N)
| Alphanumeric (s : string).

Record t : Type := {
  major : N;
  minor : N;
  patch : N;
  prerelease : list identifier;
  build : list string
}.

Definition MAX_SAFE_INTEGER : N := 9007199254740991.
Definition MAX_LENGTH : nat := 256.

Definition is_digit (c : ascii) : bool :=
  let n := N_of_ascii c in ((48 <=? n) && (n <=? 57))%N.

Definition is_letter_dash_digit (c : ascii) : bool :=
  let n := N_of_ascii c in
  (is_digit c || ((65 <=? n) && (n <=? 90)) || ((97 <=? n) && (n <=? 122))
   || (n =? 45))%N.

Fixpoint digits_value (acc : N) (s : string) : N :=
  match s with
  | EmptyString => acc
  | String c rest => digits_value (10 * acc + (N_of_ascii c - 48))%N rest
  end.

(** [0|[1-9]\d*] *)
Definition is_numeric_identifier (s : string) : bool :=
  match s with
  | EmptyString => false
  | String c rest =>
      Str.forallb_string is_digit s
      && (negb (Ascii.eqb c "0"%char) || String.eqb rest "")
  end.

Definition main_number (s : string) : option N :=
  if is_numeric_identifier s then
    let n := digits_value 0 s in
    if (n <=? MAX_SAFE_INTEGER)%N then Some n else None
  else None.

Definition prerelease_identifier (s : string) : option identifier :=
  match s with
  | EmptyString => None
  | _ =>
      if Str.forallb_string is_digit s then
        if is_numeric_identifier s then Some (Numeric (digits_value 0 s))
        else None
      else if Str.forallb_string is_letter_dash_digit s
           then Some (Alphanumeric s) else None
  end.

Definition build_identifier (s : string) : option string :=
  match s with
  | EmptyString => None
  | _ => if Str.forallb_string is_letter_dash_digit s then Some s else None
  end.

(** [version.length]: the number of UTF-16 code units of a text held as
    UTF-8 *)
Fixpoint js_length (s : string) : nat :=
  match s with
  | EmptyString => O
  | String c rest =>
      let n := N_of_ascii c in
      ((if (n <? 128)%N then 1
        else if (n <? 192)%N then 0
        else if (n <? 240)%N then 1
        else 2) + js_length rest)%nat
  end.

(** The white space that [trim] removes: the characters of one byte, and
    the UTF-8 forms of U+00A0, U+1680, U+2000 to U+200A, U+2028, U+2029,
    U+202F, U+205F, U+3000 and U+FEFF. *)
Definition white1 (a : ascii) : bool :=
  let n := N_of_ascii a in (((9 <=? n) && (n <=? 13)) || (n =? 32))%N.

Definition white2 (a b : ascii) : bool :=
  ((N_of_ascii a =? 194) && (N_of_ascii b =? 160))%N.

Definition white3 (a b c : ascii) : bool :=
  let '(x, y, z) := (N_of_ascii a, N_of_ascii b, N_of_ascii c) in
  (((x =? 225) && (y =? 154) && (z =? 128))
   || ((x =? 226) && (y =? 128)
       && (((128 <=? z) && (z <=? 138)) || (z =? 168) || (z =? 169)
           || (z =? 175)))
   || ((x =? 226) && (y =? 129) && (z =? 159))
   || ((x =? 227) && (y =? 128) && (z =? 128))
   || ((x =? 239) && (y =? 187) && (z =? 191)))%N.

Fixpoint strip (w2 : ascii -> ascii -> bool)
  (w3 : ascii -> ascii -> ascii -> bool) (s : string) : string :=
  match s with
  | String a rest1 =>
      if white1 a then strip w2 w3 rest1 else
      match rest1 with
      | String b rest2 =>
          if w2 a b then strip w2 w3 rest2 else
          match rest2 with
          | String c rest3 => if w3 a b c then strip w2 w3 rest3 else s
          | EmptyString => s
          end
      | EmptyString => s
      end
  | EmptyString => s
  end.

Fixpoint reverse (acc s : string) : string :=
  match s with
  | EmptyString => acc
  | String c rest => reverse (String c acc) rest
  end.

(** [version.trim()] *)
Definition trim (s : string) : string :=
  let s := strip white2 white3 s in
  reverse "" (strip (fun a b => white2 b a) (fun a b c => white3 c b a)
                (reverse "" s)).

(** [+id] for a text of digits: the nearest number with 53 significant
    bits, ties to even *)
Definition to_double (n : N) : N :=
  let bits := N.size n in
  if (bits <=? 53)%N then n else
  let k := (bits - 53)%N in
  let q := N.shiftr n k in
  let r := (n - N.shiftl q k)%N in
  let half := N.shiftl 1 (k - 1) in
  let q := if ((half <? r) || ((r =? half) && N.odd q))%N
           then (q + 1)%N else q in
  N.shiftl q k.

Definition parse (text : string) : option t :=
  if (MAX_LENGTH <? js_length text)%nat then None else
  let text := trim text in
  let text := if Str.startsWith text "v" then Str.substring1 text else text in
  let '(front, build_text) := Str.cut "+"%char text in
  let '(core, pre_text) := Str.cut "-"%char front in
  match Str.split "."%char core with
  | [a; b; c] =>
      major ← main_number a;
      minor ← main_number b;
      patch ← main_number c;
      pre ← match pre_text with
            | Some p => mapM prerelease_identifier (Str.split "."%char p)
            | None => Some []
            end;
      bld ← match build_text with
            | Some p => mapM build_identifier (Str.split "."%char p)
            | None => Some []
            end;
      Some {| major := major; minor := minor; patch := patch;
              prerelease := pre; build := bld |}
  | _ => None
  end.

Fixpoint compare_strings (a b : string) : comparison :=
  match a, b with
  | EmptyString, EmptyString => Eq
  | EmptyString, String _ _ => Lt
  | String _ _, EmptyString => Gt
  | String x a', String y b' =>
      match (N_of_ascii x ?= N_of_ascii y)%N with
      | Eq => compare_strings a' b'
      | c => c
      end
  end.

Definition compareIdentifiers (a b : identifier) : comparison :=
  match a, b with
  | Numeric x, Numeric y => (to_double x ?= to_double y)%N
  | Numeric _, Alphanumeric _ => Lt
  | Alphanumeric _, Numeric _ => Gt
  | Alphanumeric x, Alphanumeric y => compare_strings x y
  end.

Fixpoint compare_identifier_lists (a b : list identifier) : comparison :=
  match a, b with
  | [], [] => Eq
  | [], _ :: _ => Lt
  | _ :: _, [] => Gt
  | x :: a', y :: b' =>
      match compareIdentifiers x y with
      | Eq => compare_identifier_lists a' b'
      | c => c
      end
  end.

Definition comparePre (a b : t) : comparison :=
  match prerelease a, prerelease b with
  | _ :: _, [] => Lt
  | [], _ :: _ => Gt
  | [], [] => Eq
  | pa, pb => compare_identifier_lists pa pb
  end.

Definition compareMain (a b : t) : comparison :=
  match (major a ?= major b)%N with
  | Eq => match (minor a ?= minor b)%N with
          | Eq => (patch a ?= patch b)%N
          | c => c
          end
  | c => c
  end.

Definition compare (a b : t) : comparison :=
  match compareMain a b with
  | Eq => comparePre a b
  | c => c
  end.

End NpmSemver.

Definition npm_semver : SemverLib :=
  {| SemVer := NpmSemver.t;
     semver_parse := NpmSemver.parse;
     semver_compare := NpmSemver.compare |}.

(** * Vocabulary of the properties *)

(** ** Ignore rules *)

Section RuleVocabulary.
Context `{SemverLib}.

(** The version a rule names: the text after "<" for a bound, the rule
    itself otherwise. *)
Definition rule_version (rule : string) : string :=
  if Str.startsWith rule "<" then Str.substring1 rule else rule.

(** The rule can be read as a version. *)
Definition rule_readable (rule : string) : bool :=
  semver_valid (rule_version rule).

(** A rule "<b" matches a release strictly below [b]; any other rule matches
    a release that compares equal to it. *)
Definition rule_matches (release_version rule : string) : bool :=
  match semver_parse release_version, semver_parse (rule_version rule) with
  | Some v, Some r =>
      if Str.startsWith rule "<" then is_Lt (semver_compare v r)
      else is_Eq (semver_compare r v)
  | _, _ => false
  end.

Definition ignore_message (modName release_version rule : string) : string :=
  "ignoring release - " +:+ modName +:+ ":" +:+
  (if Str.startsWith rule "<" then release_version else rule).

End RuleVocabulary.

(** ** Assets *)

(** The lower-cased name of the asset starts with the prefix. *)
Definition matches_prefix (prefix : string) (asset : Asset) : bool :=
  Str.startsWith (Str.toLowerCase (name asset)) prefix.

(** The first and the last asset of a release with a given prefix. *)
Definition first_match (prefix : string) (assets : list Asset) : option Asset :=
  find (matches_prefix prefix) assets.

Definition last_match (prefix : string) (assets : list Asset) : option Asset :=
  find (matches_prefix prefix) (rev assets).

(** The platform slots of a version: URL and download count together. *)
Definition slot (pick : forall A, Slots A -> A) (v : VersionInfo)
  : option string * Z :=
  (pick _ (assets v), pick _ (assetDownloadCounts v)).

Definition slot_of (found : option Asset) : option string * Z :=
  match found with
  | Some asset => (Some (browser_download_url asset), download_count asset)
  | None => (None, 0)
  end.

(** ** Release dates *)

Section DateVocabulary.
Context `{World}.

(** What one pass of the loop leaves for the game, from what was there. *)
Definition merged_entry (modInfo : ModEntry) (newPublishedDate : string)
  (supportedGame : string) (before : option PerGameInfo) : PerGameInfo :=
  let current := default empty_per_game before in
  match release_date_override modInfo with
  | Some override => with_releaseDate override current
  | None =>
      match per_game_override modInfo supportedGame with
      | Some override => with_releaseDate override current
      | None =>
          match pgi_releaseDate current with
          | None => with_releaseDate newPublishedDate current
          | Some stored =>
              if later_than stored newPublishedDate
              then with_releaseDate newPublishedDate current
              else current
          end
      end
  end.

(** The date the claim asks for, from the date stored before the release
    ([None] when the game has none). *)
Definition resolved_date (modInfo : ModEntry) (game : string)
  (stored : option string) (published date : string) : Prop :=
  match release_date_override modInfo with
  | Some override => date = override
  | None =>
      match (per_game_config modInfo ≫= (.!! game))
            ≫= pg_release_date_override with
      | Some override => date = override
      | None =>
          match stored with
          | None => date = published
          | Some s =>
              (date = s \/ date = published) /\
              (forall a b, Date_parse s = Some a ->
                           Date_parse published = Some b ->
                           Date_parse date = Some (Z.min a b)) /\
              (Date_parse s = None \/ Date_parse published = None -> date = s)
          end
      end
  end.

End DateVocabulary.

(** ** The persisted catalog *)

Section WriteVocabulary.
Context `{JsonLib}.

(** The catalog persisted by an earlier run, without its [lastUpdated];
    [None] when there is no file or it cannot be read back. *)
Definition previous (existing : option string) : option Parsed :=
  text ← existing; parsed ← JSON_parse text; delete_lastUpdated parsed.

(** The new catalog differs from the persisted one: their texts under
    [JSON.stringify] are not the same. *)
Definition differs (existing : option string) (modSourceData : Catalog) : Prop :=
  exists old, previous existing = Some old /\
              JSON_stringify_parsed old <> JSON_stringify modSourceData.

End WriteVocabulary.

(** * Running the script on examples *)

(** Two Windows builds in one release. *)
Definition two_windows_assets : list Asset :=
  [ {| name := "windows-1.0.0.zip";
       browser_download_url := "https://example.org/dl/windows-1.0.0.zip";
       download_count := 7 |};
    {| name := "Windows-1.0.0-debug.zip";
       browser_download_url := "https://example.org/dl/Windows-1.0.0-debug.zip";
       download_count := 2 |} ].

Definition release_of (tag : string) (assets : list Asset) : Release :=
  {| tag_name := tag; published_at := "2024-01-01T00:00:00Z";
     release_assets := assets |}.

Module Scenario.

Definition windows_asset : Asset :=
  {| name := "windows-1.0.0.zip";
     browser_download_url := "https://example.org/dl/windows-1.0.0.zip";
     download_count := 7 |}.

Definition metadata_asset (url : string) : Asset :=
  {| name := "metadata.json"; browser_download_url := url;
     download_count := 1 |}.

Definition plain_metadata : string := "https://example.org/dl/metadata.json".
Definition partial_metadata : string :=
  "https://example.org/dl/partial/metadata.json".

(** The release of the scenario of the specification: tag "v1.0.0", a
    Windows build and a [metadata.json]. *)
Definition scenario_release : Release :=
  release_of "v1.0.0" [windows_asset; metadata_asset plain_metadata].

(** The same release without [metadata.json]. *)
Definition release_without_metadata : Release :=
  release_of "v1.0.0" [windows_asset].

(** A release whose [metadata.json] sets one of the two default settings. *)
Definition release_with_partial_settings : Release :=
  release_of "v1.1.0" [windows_asset; metadata_asset partial_metadata].

(** A texture-pack release without any asset. *)
Definition release_without_assets : Release := release_of "1.0.0" [].

Definition jak1_only : MetadataDoc :=
  {| md_settings := None; md_supportedGames := Some ["jak1"] |}.

Definition partial_settings : json := JObj [("shareVanillaSaves", JBool true)].

Definition jak1_partial : MetadataDoc :=
  {| md_settings := Some partial_settings;
     md_supportedGames := Some ["jak1"] |}.

Definition world : World :=
  {| listReleases := fun owner repo =>
       if String.eqb owner "x" then
         if String.eqb repo "y" then Some [scenario_release]
         else if String.eqb repo "bare" then Some [release_without_metadata]
         else if String.eqb repo "pack" then Some [release_without_assets]
         else None
       else None;
     fetch := fun url =>
       if String.eqb url plain_metadata
       then Some {| status := 200; body_json := Some jak1_only;
                    body_error := "" |}
       else if String.eqb url partial_metadata
       then Some {| status := 200; body_json := Some jak1_partial;
                    body_error := "" |}
       else Some {| status := 404; body_json := None;
                    body_error := "SyntaxError: Unexpected token" |};
     Date_parse := fun text =>
       if String.eqb text "2024-01-01T00:00:00Z" then Some 1704067200000
       else if String.eqb text "2023-06-01T00:00:00Z" then Some 1685577600000
       else None;
     now := "2024-06-01T00:00:00.000Z" |}.

Definition jak1_art : PerGameEntry :=
  {| pg_cover_art_url := Some "https://example.org/cover.png";
     pg_thumbnail_art_url := Some "https://example.org/thumb.png";
     pg_release_date_override := None |}.

(** The mod "foo" of the scenario: owner "x", no [cover_art_url], both art
    URLs under [per_game_config.jak1]. *)
Definition foo (repo : string) (ignore : option (list string)) : ModEntry :=
  {| display_name := Some "Foo";
     description := Some "A mod";
     authors := Some ["someone"];
     tags := Some ["beta"];
     website_url := None;
     external_link := None;
     supported_games := None;
     repo_owner := Some "x";
     repo_name := Some repo;
     ignore_versions := ignore;
     release_date_override := None;
     cover_art_url := None;
     thumbnail_art_url := None;
     per_game_config := Some {[ "jak1" := jak1_art ]} |}.

Definition config_of (entry : ModEntry) : option (Config + string) :=
  Some (inl {| cfg_metadata := Some (Some "example source");
                cfg_mods := Some [("foo", entry)];
                cfg_texture_packs := None |}).

Definition pack_config (ignore : option (list string))
  : option (Config + string) :=
  Some (inl {| cfg_metadata := Some (Some "example source");
                cfg_mods := Some [];
                cfg_texture_packs := Some [("bar", foo "pack" ignore)] |}).

(** What the run stored for the mod "foo". *)
Definition foo_of (run : M Catalog) : option ModSourceInfo :=
  value_of run ≫= fun catalog => mods catalog !! "foo".

(** A stand-in for [JSON] to run the last step with: a document is its time
    stamp, "#", and a summary of the catalog. *)
Definition summary (c : Catalog) : string :=
  sourceName c +:+ "/" +:+
  String.concat ","
    (map (fun entry : string * ModSourceInfo =>
            fst entry +:+ "@" +:+
            String.concat ";" (map version (versions (snd entry))))
       (map_to_list (mods c))).

Definition stamped_text : JsonLib :=
  {| Parsed := string * string;
     JSON_parse := fun text =>
       let '(time, rest) := Str.cut "#"%char text in
       summary ← rest; Some (time, summary);
     delete_lastUpdated := fun doc => Some ("", snd doc);
     JSON_stringify_parsed := fun doc => fst doc +:+ "#" +:+ snd doc;
     JSON_stringify := fun c =>
       default "" (lastUpdated c) +:+ "#" +:+ summary c;
     JSON_stringify_pretty := fun c =>
       default "" (lastUpdated c) +:+ "#" +:+ summary c |}.

End Scenario.

Module Applied.
Import Scenario.

(** The metadata of the scenario release applied to the mod "foo", whose
    stored date for "jak1" is later than the release. *)
Definition modInfo : ModEntry := foo "y" (Some []).

Definition before : ModSourceInfo :=
  with_games_and_config ["jak1"]
    (<["jak1" := with_releaseDate "2024-01-01T00:00:00Z"
                   (initial_per_game jak1_art)]> ∅)
    (initial_mod_info modInfo).

Definition older_release : Release :=
  {| tag_name := "v0.9.0"; published_at := "2023-06-01T00:00:00Z";
     release_assets := [windows_asset; metadata_asset plain_metadata] |}.

Definition newVersion : VersionInfo :=
  fst (classify_assets (new_version "0.9.0" older_release)
         (release_assets older_release)).

Definition run : M (VersionInfo * ModSourceInfo) :=
  @apply_metadata world false "foo" modInfo "0.9.0" jak1_only newVersion before.

Definition after : VersionInfo * ModSourceInfo :=
  default (newVersion, before) (value_of run).

(** The release with partial settings, built into a version. *)
Definition built : M ModSourceInfo :=
  @build_version world false "foo" modInfo "1.1.0"
    release_with_partial_settings (initial_mod_info modInfo).

Definition built_info : ModSourceInfo :=
  default (initial_mod_info modInfo) (value_of built).

End Applied.

Module Rerun.
Import Scenario.

(** A first run without a file, and a second run over the file it wrote. *)
Definition config : option (Config + string) := config_of (foo "y" (Some [])).

Definition first : M (Catalog * option string) :=
  @main npm_semver world stamped_text [] config None.

Definition catalog : Catalog :=
  default {| schemaVersion := ""; sourceName := ""; mods := ∅;
             texturePacks := ∅; lastUpdated := None |}
    (fst <$> value_of first).

Definition file : option string := value_of first ≫= snd.

End Rerun.

(** * Vocabulary of the further properties *)

(** The four keys that every entry must have are there. *)
Definition required_present (modInfo : ModEntry) : bool :=
  has (display_name modInfo) && has (description modInfo) &&
  has (authors modInfo) && has (tags modInfo).

(** Both [repo_owner] and [repo_name] are there and not empty. *)
Definition repo_present (modInfo : ModEntry) : bool :=
  truthy (repo_owner modInfo) && truthy (repo_name modInfo).

(** What a lint run asks of a mod entry. *)
Definition lint_accepts_mod (modInfo : ModEntry) : bool :=
  required_present modInfo &&
  (if has (external_link modInfo) then has (supported_games modInfo)
   else repo_present modInfo).

(** What a lint run asks of a texture-pack entry. *)
Definition lint_accepts_pack (modInfo : ModEntry) : bool :=
  required_present modInfo &&
  (has (thumbnail_art_url modInfo) || has (per_game_config modInfo)) &&
  repo_present modInfo.

(** The version can be downloaded for some platform. *)
Definition has_platform (v : VersionInfo) : bool :=
  has (windows (assets v)) || has (linux (assets v)) || has (macos (assets v)).

(** The art URL of a game is known: for the whole mod, or for the game. *)
Definition art_available (topLevel : option string)
  (art : PerGameInfo -> option string) (cfg : gmap string PerGameInfo)
  (game : string) : Prop :=
  is_Some topLevel \/ is_Some (cfg !! game ≫= art).

(** The asset is named "metadata.json", whatever the case of the letters. *)
Definition is_metadata (asset : Asset) : bool :=
  String.eqb (Str.toLowerCase (name asset)) "metadata.json".

(** The tag and date under which a release would be listed. *)
Definition listing_of (release : Release) : string * string :=
  (clean_tag (tag_name release), published_at release).

Definition listed_as (v : VersionInfo) : string * string :=
  (version v, publishedDate v).

(** Every game of every listed version has its cover and its thumbnail. *)
Definition art_complete (m : ModSourceInfo) : Prop :=
  forall v, In v (versions m) ->
  forall game, In game (v_supportedGames v) ->
    art_available (coverArtUrl m) pgi_coverArtUrl (perGameConfig m) game /\
    art_available (thumbnailArtUrl m) pgi_thumbnailArtUrl (perGameConfig m) game.

(** The two records show the same card: texts, links and art. *)
Definition same_card (a b : ModSourceInfo) : Prop :=
  displayName b = displayName a /\
  msi_description b = msi_description a /\
  msi_authors b = msi_authors a /\
  msi_tags b = msi_tags a /\
  websiteUrl b = websiteUrl a /\
  coverArtUrl b = coverArtUrl a /\
  thumbnailArtUrl b = thumbnailArtUrl a /\
  externalLink b = externalLink a /\
  (forall game,
     perGameConfig b !! game ≫= pgi_coverArtUrl =
     perGameConfig a !! game ≫= pgi_coverArtUrl) /\
  (forall game,
     perGameConfig b !! game ≫= pgi_thumbnailArtUrl =
     perGameConfig a !! game ≫= pgi_thumbnailArtUrl).

(** The games of every listed version are among the games of the mod. *)
Definition games_covered (m : ModSourceInfo) : Prop :=
  forall v, In v (versions m) ->
  forall game, In game (v_supportedGames v) -> In game (supportedGames m).

(** Where a release date of the output can come from. *)
Definition date_origin (modInfo : ModEntry) (modReleases : list Release)
  (game date : string) : Prop :=
  release_date_override modInfo = Some date \/
  (release_date_override modInfo = None /\
   per_game_override modInfo game = Some date) \/
  (release_date_override modInfo = None /\
   per_game_override modInfo game = None /\
   exists release, In release modReleases /\ published_at release = date).

(** What a lint run does with a mod entry; neither GitHub nor [semver] takes
    part. *)
Definition lint_mod (modName : string) (modInfo : ModEntry) : M ModSourceInfo :=
  validate_entry modName modInfo;;
  match external_link modInfo with
  | Some link =>
      match supported_games modInfo with
      | None =>
          exitWithError (modName +:+ " is external but lacks 'supported_games'")
      | Some games => mret (as_external link games (initial_mod_info modInfo))
      end
  | None =>
      require_repo modName modInfo;;
      console_log
        ("had no supported games at the top level, this is optional, defaulted to 'jak1': "
         +:+ modName);;
      mret (with_games_and_config ["jak1"]
              (perGameConfig (initial_mod_info modInfo))
              (initial_mod_info modInfo))
  end.

(** What a lint run does with a texture-pack entry. *)
Definition lint_pack (modName : string) (modInfo : ModEntry) : M TexturePackInfo :=
  validate_entry modName modInfo;;
  (if negb (has (thumbnail_art_url modInfo)) && negb (has (per_game_config modInfo))
   then exitWithError (modName +:+
          " does not define 'thumbnail_art_url' but lacks 'per_game_config'")
   else mret tt);;
  require_repo modName modInfo;;
  mret (initial_pack_info modInfo).

Module Gallery.

(** A mod that lives elsewhere: a link and the games it supports. *)
Definition external (games : option (list string)) : ModEntry :=
  {| display_name := Some "Elsewhere";
     description := Some "A mod hosted elsewhere";
     authors := Some ["someone"];
     tags := Some ["external"];
     website_url := None;
     external_link := Some "https://example.org/elsewhere";
     supported_games := games;
     repo_owner := None;
     repo_name := None;
     ignore_versions := None;
     release_date_override := None;
     cover_art_url := Some "https://example.org/cover.png";
     thumbnail_art_url := Some "https://example.org/thumb.png";
     per_game_config := None |}.

(** An entry without [description]. *)
Definition nameless : ModEntry :=
  {| display_name := Some "Foo";
     description := None;
     authors := Some ["someone"];
     tags := None;
     website_url := None;
     external_link := None;
     supported_games := None;
     repo_owner := Some "x";
     repo_name := Some "y";
     ignore_versions := None;
     release_date_override := None;
     cover_art_url := None;
     thumbnail_art_url := None;
     per_game_config := None |}.

(** A world in which nothing answers. *)
Definition silent : World :=
  {| listReleases := fun _ _ => None;
     fetch := fun _ => None;
     Date_parse := fun _ => None;
     now := "" |}.

End Gallery.

Module Walk.
Import Scenario.

(** The mod "foo" with an empty ignore list, taken through the loop over its
    one release and through the whole entry. *)
Definition entry : ModEntry := foo "y" (Some []).

Definition start : ModSourceInfo := initial_mod_info entry.

Definition built : M ModSourceInfo :=
  @build_version world false "foo" entry "1.0.0" scenario_release start.

Definition built_info : ModSourceInfo := default start (value_of built).

Definition looped : M ModSourceInfo :=
  @process_releases npm_semver world false "foo" entry [scenario_release] start.

Definition looped_info : ModSourceInfo := default start (value_of looped).

Definition whole : M ModSourceInfo :=
  @process_mod npm_semver world false "foo" entry.

Definition whole_info : ModSourceInfo := default start (value_of whole).

(** The same mod with a release date for all games. *)
Definition dated : ModEntry :=
  {| display_name := display_name entry;
     description := description entry;
     authors := authors entry;
     tags := tags entry;
     website_url := website_url entry;
     external_link := external_link entry;
     supported_games := supported_games entry;
     repo_owner := repo_owner entry;
     repo_name := repo_name entry;
     ignore_versions := ignore_versions entry;
     release_date_override := Some "2020-02-02";
     cover_art_url := cover_art_url entry;
     thumbnail_art_url := thumbnail_art_url entry;
     per_game_config := per_game_config entry |}.

Definition dated_whole : M ModSourceInfo :=
  @process_mod npm_semver world false "foo" dated.

Definition dated_info : ModSourceInfo :=
  default (initial_mod_info dated) (value_of dated_whole).

(** A release that has its [metadata.json] and nothing to download. *)
Definition source_only : Release :=
  release_of "v2.0.0" [metadata_asset plain_metadata].

Definition dropped : M ModSourceInfo :=
  @build_version world false "foo" entry "2.0.0" source_only start.

Definition dropped_info : ModSourceInfo := default start (value_of dropped).

(** A texture pack without an ignore list. *)
Definition pack : ModEntry := foo "pack" None.

Definition pack_run : M TexturePackInfo :=
  @process_pack npm_semver world false "bar" pack.

(** The catalog of a configuration with the mod "foo" and an external mod. *)
Definition two_mods : option (Config + string) :=
  Some (inl {| cfg_metadata := Some (Some "example source");
                cfg_mods := Some [("foo", entry);
                                  ("elsewhere", Gallery.external (Some []))];
                cfg_texture_packs := None |}).

Definition assembled : M Catalog :=
  @assemble npm_semver world false two_mods.

Definition assembled_catalog : Catalog :=
  default {| schemaVersion := ""; sourceName := ""; mods := ∅;
             texturePacks := ∅; lastUpdated := None |}
    (value_of assembled).

(** A lint run over that configuration, with a file already there. *)
Definition lint_run : M (Catalog * option string) :=
  @main npm_semver world stamped_text ["lint"] two_mods (Some "old#text").

Definition lint_result : Catalog * option string :=
  default (assembled_catalog, Some "") (value_of lint_run).

Definition two_entries : M (gmap string ModSourceInfo) :=
  @process_mods npm_semver world false
    [("foo", entry); ("elsewhere", Gallery.external (Some []))] ∅.

Definition two_entries_map : gmap string ModSourceInfo :=
  default ∅ (value_of two_entries).

(** A configuration in which one mod is named "__proto__". *)
Definition odd_entries : list (string * ModEntry) :=
  [("foo", entry); ("__proto__", Gallery.external (Some ["jak1"]))].

Definition odd_run : M (gmap string ModSourceInfo) :=
  @process_mods npm_semver world false odd_entries ∅.

Definition odd_map : gmap string ModSourceInfo :=
  default ∅ (value_of odd_run).

Definition odd_config : option (Config + string) :=
  Some (inl {| cfg_metadata := Some (Some "example source");
                cfg_mods := Some odd_entries;
                cfg_texture_packs := Some [("__proto__", foo "pack" None)] |}).

Definition odd_assembled : M Catalog :=
  @assemble npm_semver world false odd_config.

Definition odd_catalog : Catalog :=
  default {| schemaVersion := ""; sourceName := ""; mods := ∅;
             texturePacks := ∅; lastUpdated := None |}
    (value_of odd_assembled).

End Walk.

Module Edge.
Import Scenario.

(** An ignore list whose first rule is not a version, and a release that
    the second rule matches. *)
Definition unreadable_first : list string := ["not a version"; "<1.2.0"].

Definition release_1_1_9 : Release :=
  release_of "v1.1.9" [windows_asset; metadata_asset plain_metadata].

(** A mod with art for all games, and a document that names the game
    "__proto__". *)
Definition with_art : ModEntry :=
  {| display_name := Some "Foo";
     description := Some "A mod";
     authors := Some ["someone"];
     tags := Some ["beta"];
     website_url := None;
     external_link := None;
     supported_games := None;
     repo_owner := Some "x";
     repo_name := Some "y";
     ignore_versions := Some [];
     release_date_override := None;
     cover_art_url := Some "https://example.org/cover.png";
     thumbnail_art_url := Some "https://example.org/thumb.png";
     per_game_config := Some {[ "__proto__" := jak1_art ]} |}.

Definition proto_document : MetadataDoc :=
  {| md_settings := None; md_supportedGames := Some ["__proto__"] |}.

Definition proto_run : M (VersionInfo * ModSourceInfo) :=
  @apply_metadata world false "foo" with_art "1.0.0" proto_document
    (new_version "1.0.0" scenario_release) (initial_mod_info with_art).

(** A full run with an argument that is not "lint", and no file yet. *)
Definition checked : M (Catalog * option string) :=
  @main npm_semver world stamped_text ["check"] Walk.two_mods None.

Definition checked_result : Catalog * option string :=
  default (Walk.assembled_catalog, None) (value_of checked).

End Edge.

(** * Properties *)

(** ** Running computations *)

Lemma bind_Done {A B} (a : A) (l : list Line) (k : A -> M B) :
  (Done a l ≫= k) =
  match k a with
  | Done b l2 => Done b (l ++ l2)
  | Halt w l2 => Halt w (l ++ l2)
  end.
Proof. reflexivity. Qed.

Lemma bind_Halt {A B} (w : Stop) (l : list Line) (k : A -> M B) :
  (Halt w l ≫= k) = Halt w l.
Proof. reflexivity. Qed.

Lemma bind_mret {A B} (a : A) (k : A -> M B) : (mret a ≫= k) = k a.
Proof.
  unfold mret, M_ret. rewrite bind_Done. destruct (k a); reflexivity.
Qed.

Lemma bind_assoc {A B C} (m : M A) (f : A -> M B) (g : B -> M C) :
  ((m ≫= f) ≫= g) = (m ≫= fun a => f a ≫= g).
Proof.
  destruct m as [a l|w l]; [|reflexivity].
  rewrite !bind_Done.
  destruct (f a) as [b l2|w l2]; [|reflexivity].
  rewrite !bind_Done.
  destruct (g b); rewrite app_assoc; reflexivity.
Qed.

(** ** Assignments to an object *)

Lemma set_proto {V} (value : V) (o : gmap string V) :
  Js.set Js.proto value o = o.
Proof. reflexivity. Qed.

Lemma lookup_set_eq {V} (key : string) (value : V) (o : gmap string V) :
  key <> Js.proto -> Js.set key value o !! key = Some value.
Proof.
  intros Hkey. unfold Js.set. apply String.eqb_neq in Hkey. rewrite Hkey.
  apply lookup_insert_eq.
Qed.

Lemma lookup_set_ne {V} (key other : string) (value : V) (o : gmap string V) :
  key <> other -> Js.set key value o !! other = o !! other.
Proof.
  intros Hne. unfold Js.set. destruct (String.eqb key Js.proto); [reflexivity|].
  apply lookup_insert_ne. exact Hne.
Qed.

Lemma lookup_set_proto {V} (key : string) (value : V) (o : gmap string V) :
  Js.set key value o !! Js.proto = o !! Js.proto.
Proof.
  unfold Js.set. destruct (String.eqb key Js.proto) eqn:Hkey; [reflexivity|].
  apply String.eqb_neq in Hkey. apply lookup_insert_ne. exact Hkey.
Qed.

Lemma lookup_assign_all {A V} (f : A -> V) (src : gmap string A)
  (key : string) :
  Js.assign_all f src !! key =
  if decide (key = Js.proto) then None else f <$> src !! key.
Proof.
  unfold Js.assign_all. destruct (decide (key = Js.proto)) as [->|Hne].
  - apply lookup_delete_eq.
  - rewrite lookup_delete_ne by congruence. apply lookup_fmap.
Qed.

(** ** The semver instance on examples *)

Example parse_plain :
  NpmSemver.parse "1.0.0" =
  Some {| NpmSemver.major := 1; NpmSemver.minor := 0; NpmSemver.patch := 0;
          NpmSemver.prerelease := []; NpmSemver.build := [] |}.
Proof. reflexivity. Qed.

Example parse_full :
  NpmSemver.parse "v1.2.3-rc.1+build-5" =
  Some {| NpmSemver.major := 1; NpmSemver.minor := 2; NpmSemver.patch := 3;
          NpmSemver.prerelease :=
            [NpmSemver.Alphanumeric "rc"; NpmSemver.Numeric 1];
          NpmSemver.build := ["build-5"] |}.
Proof. reflexivity. Qed.

Example parse_rejects :
  map NpmSemver.parse ["1.0"; "01.0.0"; "1.0.0-"; "latest"; "vv1.0.0"; ""; "1.0.0-01"]
  = [None; None; None; None; None; None; None].
Proof. reflexivity. Qed.

Example compare_examples :
  map (fun '(a, b) => @semver_lt npm_semver a b)
    [("1.1.9", "1.2.0"); ("1.2.0", "1.2.0"); ("1.2.0-rc.1", "1.2.0");
     ("1.10.0", "1.9.0"); ("1.0.0-alpha", "1.0.0-alpha.1")]
  = [Done true []; Done false []; Done true []; Done false []; Done true []].
Proof. reflexivity. Qed.

(** ** Tags (lines 156-164 and 380-387) *)

Lemma startsWith_v (tag : string) :
  Str.startsWith tag "v" = true <-> exists s, tag = String "v" s.
Proof.
  destruct tag as [|c s]; cbn [Str.startsWith].
  - split; [discriminate|]. intros [? ?]; discriminate.
  - rewrite andb_true_r. rewrite Ascii.eqb_eq. split.
    + intros <-. eauto.
    + intros [? [= -> _]]. reflexivity.
Qed.

(** C8.  The cleaned tag is the tag without its first character when that
    character is "v", and the tag itself otherwise.  A release whose cleaned
    tag is not a valid version only prints a line on the error stream: the
    remaining releases are processed from the same [modSourceInfo], for mods
    and for texture packs. *)
Theorem invalid_tag_is_skipped `{SemverLib} `{World} :
  (forall tag : string,
     (exists s, tag = String "v" s /\ clean_tag tag = s) \/
     (Str.startsWith tag "v" = false /\ clean_tag tag = tag)) /\
  (forall lintMode modName modInfo release rest modSourceInfo,
     semver_valid (clean_tag (tag_name release)) = false ->
     process_releases lintMode modName modInfo (release :: rest) modSourceInfo =
     (console_error (modName +:+ ":" +:+ clean_tag (tag_name release) +:+
        " is not a valid semantic version, skipping");;
      process_releases lintMode modName modInfo rest modSourceInfo)) /\
  (forall modName modInfo release rest modSourceInfo,
     semver_valid (clean_tag (tag_name release)) = false ->
     process_pack_releases modName modInfo (release :: rest) modSourceInfo =
     (console_error (modName +:+ ":" +:+ clean_tag (tag_name release) +:+
        " is not a valid semantic version, skipping");;
      process_pack_releases modName modInfo rest modSourceInfo)).
Proof.
  split; [|split].
  - intros tag. unfold clean_tag.
    destruct (Str.startsWith tag "v") eqn:Hv.
    + left. apply startsWith_v in Hv as [s ->]. eauto.
    + right. split; reflexivity.
  - intros lintMode modName modInfo release rest modSourceInfo Hbad.
    cbn [process_releases]. unfold process_release. rewrite Hbad.
    cbn [negb]. rewrite bind_assoc. unfold console_error.
    rewrite !bind_Done, bind_mret. reflexivity.
  - intros modName modInfo release rest modSourceInfo Hbad.
    cbn [process_pack_releases]. unfold process_pack_release. rewrite Hbad.
    cbn [negb]. rewrite bind_assoc. unfold console_error.
    rewrite !bind_Done, bind_mret. reflexivity.
Qed.

(** ** Ignore rules (lines 166-184 and 389-407) *)

Section IgnoreRules.
Context `{SemverLib}.

Lemma ignore_loop_cons (modName v rule : string) (rest : list string) :
  ignore_loop modName v (rule :: rest) =
  if rule_matches v rule then Done true [Out (ignore_message modName v rule)]
  else if semver_valid v && rule_readable rule
       then ignore_loop modName v rest
       else Halt TypeError [].
Proof.
  cbn [ignore_loop].
  unfold rule_matches, rule_readable, rule_version, ignore_message,
    semver_lt, semver_eq, semver_compare_str, semver_valid.
  destruct (Str.startsWith rule "<").
  - destruct (semver_parse v) as [x|]; [|reflexivity].
    destruct (semver_parse (Str.substring1 rule)) as [b|]; [|reflexivity].
    rewrite bind_mret, bind_mret.
    destruct (is_Lt (semver_compare x b)); [reflexivity|].
    cbn [andb]. reflexivity.
  - destruct (semver_parse rule) as [r|].
    + destruct (semver_parse v) as [x|]; [|reflexivity].
      rewrite bind_mret, bind_mret.
      destruct (is_Eq (semver_compare r x)); [reflexivity|].
      cbn [andb]. reflexivity.
    + destruct (semver_parse v); reflexivity.
Qed.

Lemma ignore_loop_skips_iff (modName v : string) (rules : list string) :
  value_of (ignore_loop modName v rules) = Some true <->
  exists pre rule post,
    rules = (pre ++ rule :: post)%list /\
    Forall (fun q => rule_readable q = true /\ rule_matches v q = false) pre /\
    rule_matches v rule = true.
Proof.
  induction rules as [|q rules IH].
  - cbn. split; [discriminate|].
    intros (pre & rule & post & Heq & _). destruct pre; discriminate.
  - rewrite ignore_loop_cons.
    destruct (rule_matches v q) eqn:Hq.
    + split; [|reflexivity]. intros _.
      exists [], q, rules. repeat split; [constructor|assumption].
    + destruct (semver_valid v && rule_readable q) eqn:Hok.
      * apply andb_prop in Hok as [Hv Hr].
        rewrite IH. split.
        -- intros (pre & rule & post & -> & Hpre & Hm).
           exists (q :: pre), rule, post. repeat split; [|assumption].
           constructor; [split; assumption|assumption].
        -- intros (pre & rule & post & Heq & Hpre & Hm).
           destruct pre as [|q' pre]; cbn in Heq.
           ++ injection Heq as -> ->. congruence.
           ++ injection Heq as -> ->. inversion Hpre; subst.
              exists pre, rule, post. repeat split; assumption.
      * split; [discriminate|].
        intros (pre & rule & post & Heq & Hpre & Hm).
        destruct pre as [|q' pre]; cbn in Heq.
        -- injection Heq as -> ->. congruence.
        -- injection Heq as -> ->. inversion Hpre as [|? ? [Hr _] ?]; subst.
           unfold rule_matches in Hm. unfold semver_valid in Hok.
           destruct (semver_parse v); [|discriminate].
           rewrite Hr in Hok. discriminate.
Qed.

Lemma ignore_loop_readable (modName v : string) (rules : list string) :
  semver_valid v = true ->
  Forall (fun q => rule_readable q = true) rules ->
  exists lines,
    ignore_loop modName v rules = Done (existsb (rule_matches v) rules) lines.
Proof.
  intros Hv Hall. induction Hall as [|q rules Hq _ IH].
  - exists []. reflexivity.
  - rewrite ignore_loop_cons. cbn [existsb].
    destruct (rule_matches v q); [eauto|].
    rewrite Hv, Hq. exact IH.
Qed.

End IgnoreRules.

(** ** Assets of a mod release (lines 206-220) *)

Lemma last_match_snoc (prefix : string) (assets : list Asset) (asset : Asset) :
  last_match prefix (assets ++ [asset]) =
  if matches_prefix prefix asset then Some asset else last_match prefix assets.
Proof. unfold last_match. rewrite rev_app_distr. reflexivity. Qed.

Lemma classify_assets_snoc (v : VersionInfo) (assets : list Asset)
  (asset : Asset) :
  classify_assets v (assets ++ [asset]) =
  classify_asset (classify_assets v assets) asset.
Proof. unfold classify_assets. rewrite fold_left_app. reflexivity. Qed.

Lemma startsWith_first (s : string) (c : ascii) (p : string) :
  Str.startsWith s (String c p) = true -> exists rest, s = String c rest.
Proof.
  destruct s as [|d rest]; cbn [Str.startsWith]; [discriminate|].
  intros Hs. apply andb_prop in Hs as [Hc _].
  apply Ascii.eqb_eq in Hc as <-. eauto.
Qed.

(** The three prefixes exclude each other, so the order of the tests in the
    loop does not matter. *)
Lemma prefixes_exclusive (asset : Asset) :
  (matches_prefix "windows-" asset = true ->
   matches_prefix "linux-" asset = false /\
   matches_prefix "macos-" asset = false) /\
  (matches_prefix "linux-" asset = true ->
   matches_prefix "macos-" asset = false).
Proof.
  unfold matches_prefix. split; intros Hm;
    apply startsWith_first in Hm as [rest ->]; repeat split; reflexivity.
Qed.

Lemma classify_asset_slots (v : VersionInfo) (meta : option string)
  (asset : Asset) :
  let v' := fst (classify_asset (v, meta) asset) in
  slot (@windows) v' =
    (if matches_prefix "windows-" asset then slot_of (Some asset)
     else slot (@windows) v) /\
  slot (@linux) v' =
    (if matches_prefix "linux-" asset then slot_of (Some asset)
     else slot (@linux) v) /\
  slot (@macos) v' =
    (if matches_prefix "macos-" asset then slot_of (Some asset)
     else slot (@macos) v).
Proof.
  pose proof (prefixes_exclusive asset) as [Hw Hl].
  unfold classify_asset. fold (matches_prefix "windows-" asset).
  fold (matches_prefix "linux-" asset). fold (matches_prefix "macos-" asset).
  destruct (matches_prefix "windows-" asset).
  - destruct Hw as [-> ->]; [reflexivity|]. repeat split.
  - destruct (matches_prefix "linux-" asset).
    + rewrite Hl by reflexivity. repeat split.
    + destruct (matches_prefix "macos-" asset); [repeat split|].
      destruct (String.eqb _ _); repeat split.
Qed.

Lemma classify_assets_slots (cleaned_release_tag : string) (release : Release)
  (assets : list Asset) :
  let v := fst (classify_assets (new_version cleaned_release_tag release) assets) in
  slot (@windows) v = slot_of (last_match "windows-" assets) /\
  slot (@linux) v = slot_of (last_match "linux-" assets) /\
  slot (@macos) v = slot_of (last_match "macos-" assets).
Proof.
  induction assets as [|asset assets IH] using rev_ind.
  - repeat split.
  - cbn zeta in *. rewrite classify_assets_snoc, !last_match_snoc.
    destruct (classify_assets _ assets) as [v meta]. cbn [fst] in IH.
    destruct IH as (Hw & Hl & Hm).
    pose proof (classify_asset_slots v meta asset) as (Hw' & Hl' & Hm').
    cbn zeta in *. rewrite Hw', Hl', Hm', Hw, Hl, Hm.
    destruct (matches_prefix "windows-" asset),
      (matches_prefix "linux-" asset), (matches_prefix "macos-" asset);
      repeat split.
Qed.

(** C2 as stated fails: with two assets named "windows-...", the slot holds
    the URL and count of the second one, not of the first. *)
Lemma first_asset_does_not_win :
  let v := fst (classify_assets
                  (new_version "1.0.0" (release_of "v1.0.0" two_windows_assets))
                  two_windows_assets) in
  first_match "windows-" two_windows_assets = nth_error two_windows_assets 0 /\
  slot (@windows) v <> slot_of (first_match "windows-" two_windows_assets) /\
  slot (@windows) v = slot_of (nth_error two_windows_assets 1).
Proof. cbn. repeat split. discriminate. Qed.

(** C2, amended.  An asset belongs to a platform when its lower-cased name
    starts with "windows-", "linux-" or "macos-"; the URL and the download
    count of each slot are those of the last asset of the list with the
    slot's prefix, and the slot stays null with count 0 when there is none. *)
Theorem last_asset_per_prefix_wins :
  forall (cleaned_release_tag : string) (release : Release)
         (listed : list Asset),
    let v := fst (classify_assets (new_version cleaned_release_tag release)
                    listed) in
    (windows (assets v), windows (assetDownloadCounts v)) =
      slot_of (last_match "windows-" listed) /\
    (linux (assets v), linux (assetDownloadCounts v)) =
      slot_of (last_match "linux-" listed) /\
    (macos (assets v), macos (assetDownloadCounts v)) =
      slot_of (last_match "macos-" listed).
Proof.
  intros cleaned_release_tag release listed.
  exact (classify_assets_slots cleaned_release_tag release listed).
Qed.

(** ** Per-game release dates (lines 242-259) *)

Section ReleaseDates.
Context `{World}.

Lemma merge_lookup_same (modInfo : ModEntry) (published : string)
  (cfg : gmap string PerGameInfo) (game : string) :
  game <> Js.proto ->
  merge_release_date modInfo published cfg game !! game =
  Some (merged_entry modInfo published game (cfg !! game)).
Proof.
  intros Hgame. unfold merge_release_date, merged_entry.
  destruct (cfg !! game) as [info|] eqn:Hcfg.
  - rewrite Hcfg. cbn [default from_option id].
    destruct (release_date_override modInfo); [apply lookup_set_eq, Hgame|].
    destruct (per_game_override modInfo game); [apply lookup_set_eq, Hgame|].
    destruct (pgi_releaseDate info); [|apply lookup_set_eq, Hgame].
    destruct (later_than _ _); [apply lookup_set_eq, Hgame|assumption].
  - rewrite (lookup_set_eq _ _ _ Hgame).
    cbn [default from_option id empty_per_game pgi_releaseDate].
    destruct (release_date_override modInfo); [apply lookup_set_eq, Hgame|].
    destruct (per_game_override modInfo game); apply lookup_set_eq, Hgame.
Qed.

Lemma merge_lookup_other (modInfo : ModEntry) (published : string)
  (cfg : gmap string PerGameInfo) (game other : string) :
  other <> game ->
  merge_release_date modInfo published cfg other !! game = cfg !! game.
Proof.
  intros Hne. unfold merge_release_date.
  set (cfg1 := match cfg !! other with
               | None => Js.set other empty_per_game cfg
               | Some _ => cfg
               end).
  assert (Hcfg1 : cfg1 !! game = cfg !! game).
  { subst cfg1. destruct (cfg !! other); [reflexivity|].
    apply lookup_set_ne. exact Hne. }
  destruct (release_date_override modInfo);
    [rewrite lookup_set_ne by exact Hne; exact Hcfg1|].
  destruct (per_game_override modInfo other);
    [rewrite lookup_set_ne by exact Hne; exact Hcfg1|].
  destruct (pgi_releaseDate _);
    [|rewrite lookup_set_ne by exact Hne; exact Hcfg1].
  destruct (later_than _ _);
    [rewrite lookup_set_ne by exact Hne; exact Hcfg1|exact Hcfg1].
Qed.

(** For the key "__proto__" the loop changes no property of the object. *)
Lemma merge_lookup_proto (modInfo : ModEntry) (published : string)
  (cfg : gmap string PerGameInfo) (game : string) :
  merge_release_date modInfo published cfg game !! Js.proto = cfg !! Js.proto.
Proof.
  unfold merge_release_date.
  set (cfg1 := match cfg !! game with
               | None => Js.set game empty_per_game cfg
               | Some _ => cfg
               end).
  assert (Hcfg1 : cfg1 !! Js.proto = cfg !! Js.proto).
  { subst cfg1. destruct (cfg !! game); [reflexivity|].
    apply lookup_set_proto. }
  destruct (release_date_override modInfo);
    [rewrite lookup_set_proto; exact Hcfg1|].
  destruct (per_game_override modInfo game);
    [rewrite lookup_set_proto; exact Hcfg1|].
  destruct (pgi_releaseDate _);
    [|rewrite lookup_set_proto; exact Hcfg1].
  destruct (later_than _ _);
    [rewrite lookup_set_proto; exact Hcfg1|exact Hcfg1].
Qed.

Lemma later_than_irrefl (d : string) : later_than d d = false.
Proof.
  unfold later_than. destruct (Date_parse d); [|reflexivity].
  apply Z.ltb_irrefl.
Qed.

(** A second pass for the same game with the same release changes nothing. *)
Lemma merged_entry_twice (modInfo : ModEntry) (published game : string)
  (before : option PerGameInfo) :
  merged_entry modInfo published game
    (Some (merged_entry modInfo published game before)) =
  merged_entry modInfo published game before.
Proof.
  unfold merged_entry. cbn [default from_option id].
  destruct (release_date_override modInfo); [reflexivity|].
  destruct (per_game_override modInfo game); [reflexivity|].
  destruct (pgi_releaseDate (default empty_per_game before)) as [stored|] eqn:Hs.
  - destruct (later_than stored published) eqn:Hlt.
    + cbn [with_releaseDate pgi_releaseDate]. rewrite later_than_irrefl.
      reflexivity.
    + rewrite Hs, Hlt. reflexivity.
  - cbn [with_releaseDate pgi_releaseDate]. rewrite later_than_irrefl.
    reflexivity.
Qed.

Lemma merge_fold_lookup (modInfo : ModEntry) (published : string)
  (games : list string) (game : string) :
  forall cfg : gmap string PerGameInfo,
    fold_left (merge_release_date modInfo published) games cfg !! game =
    if decide (game ∈ games /\ game <> Js.proto)
    then Some (merged_entry modInfo published game (cfg !! game))
    else cfg !! game.
Proof.
  induction games as [|g games IH]; intros cfg.
  - rewrite decide_False; [reflexivity|]. intros [Hin _]. inversion Hin.
  - cbn [fold_left]. rewrite IH.
    destruct (decide (game = Js.proto)) as [->|Hproto].
    + rewrite !decide_False by tauto. apply merge_lookup_proto.
    + destruct (decide (g = game)) as [->|Hne].
      * rewrite (merge_lookup_same _ _ _ _ Hproto), merged_entry_twice.
        rewrite (decide_True (P := game ∈ game :: games /\ game <> Js.proto))
          by (split; [apply list_elem_of_here|exact Hproto]).
        destruct (decide (game ∈ games /\ game <> Js.proto)); reflexivity.
      * rewrite merge_lookup_other by exact Hne.
        destruct (decide (game ∈ games /\ game <> Js.proto)) as [[Hin _]|Hnot].
        -- rewrite decide_True; [reflexivity|].
           split; [apply list_elem_of_further; exact Hin|exact Hproto].
        -- rewrite decide_False; [reflexivity|].
           intros [[Heq|Hin]%elem_of_cons _]; [congruence|tauto].
Qed.

Lemma per_game_override_spec (modInfo : ModEntry) (game : string) :
  per_game_override modInfo game =
  (per_game_config modInfo ≫= (.!! game)) ≫= pg_release_date_override.
Proof.
  unfold per_game_override. destruct (per_game_config modInfo) as [cfg|];
    [|reflexivity].
  cbn. destruct (cfg !! game); reflexivity.
Qed.

Lemma merged_entry_date (modInfo : ModEntry) (published game : string)
  (before : option PerGameInfo) :
  exists date,
    pgi_releaseDate (merged_entry modInfo published game before) = Some date /\
    resolved_date modInfo game (before ≫= pgi_releaseDate) published date.
Proof.
  unfold merged_entry, resolved_date.
  rewrite <- per_game_override_spec.
  destruct (release_date_override modInfo) as [d|]; [exists d; split; reflexivity|].
  destruct (per_game_override modInfo game) as [d|];
    [exists d; split; reflexivity|].
  assert (Hstored : pgi_releaseDate (default empty_per_game before) =
                    before ≫= pgi_releaseDate) by (destruct before; reflexivity).
  rewrite <- Hstored.
  destruct (pgi_releaseDate (default empty_per_game before)) as [s|] eqn:Hs.
  - unfold later_than.
    destruct (Date_parse s) as [a|] eqn:Ha, (Date_parse published) as [b|] eqn:Hb.
    + destruct (b <? a) eqn:Hlt.
      * exists published. split; [reflexivity|]. split; [tauto|]. split.
        -- intros ? ? [= <-] [= <-]. rewrite Hb. f_equal.
           apply Z.ltb_lt in Hlt. lia.
        -- intros [?|?]; discriminate.
      * exists s. split; [exact Hs|]. split; [tauto|]. split.
        -- intros ? ? [= <-] [= <-]. rewrite Ha. f_equal.
           apply Z.ltb_ge in Hlt. lia.
        -- reflexivity.
    + exists s. split; [exact Hs|]. split; [tauto|]. split;
        [intros ? ? _ [=]|reflexivity].
    + exists s. split; [exact Hs|]. split; [tauto|]. split;
        [intros ? ? [=]|reflexivity].
    + exists s. split; [exact Hs|]. split; [tauto|]. split;
        [intros ? ? [=]|reflexivity].
  - exists published. split; reflexivity.
Qed.

End ReleaseDates.

(** ** What reading [metadata.json] leaves behind (lines 221-305) *)

Section Metadata.
Context `{World}.

Lemma apply_metadata_Done (lintMode : bool) (modName : string)
  (modInfo : ModEntry) (tag : string) (data : MetadataDoc)
  (newVersion newVersion' : VersionInfo)
  (modSourceInfo modSourceInfo' : ModSourceInfo) (lines : list Line) :
  apply_metadata lintMode modName modInfo tag data newVersion modSourceInfo =
    Done (newVersion', modSourceInfo') lines ->
  exists games,
    md_supportedGames data = Some games /\
    newVersion' =
      with_supportedGames games
        (match md_settings data with
         | Some s => with_settings s newVersion
         | None => newVersion
         end) /\
    modSourceInfo' =
      with_games_and_config
        (fold_left add_supported_game games (supportedGames modSourceInfo))
        (fold_left (merge_release_date modInfo (publishedDate newVersion))
           games (perGameConfig modSourceInfo))
        modSourceInfo.
Proof.
  unfold apply_metadata.
  destruct (md_supportedGames data) as [games|]; [|discriminate].
  assert (Hdate : publishedDate
            (with_supportedGames games
               match md_settings data with
               | Some s => with_settings s newVersion
               | None => newVersion
               end) = publishedDate newVersion)
    by (destruct (md_settings data); reflexivity).
  rewrite Hdate.
  destruct (verify_art _ _ "cover_art_url" _ _ _ _ _) as [[] l1|]; [|discriminate].
  rewrite bind_Done.
  destruct (verify_art _ _ "thumbnail_art_url" _ _ _ _ _) as [[] l2|]; [|discriminate].
  rewrite bind_Done. cbn.
  intros [= <- <- _]. exists games. repeat split.
Qed.

Lemma build_version_Done (lintMode : bool) (modName : string)
  (modInfo : ModEntry) (tag : string) (release : Release)
  (modSourceInfo modSourceInfo' : ModSourceInfo) (lines : list Line)
  (url : string) (metadataResp : Response) (data : MetadataDoc) :
  snd (classify_assets (new_version tag release) (release_assets release)) =
    Some url ->
  fetch url = Some metadataResp ->
  status metadataResp = 200 ->
  body_json metadataResp = Some data ->
  build_version lintMode modName modInfo tag release modSourceInfo =
    Done modSourceInfo' lines ->
  exists newVersion' merged lines',
    apply_metadata lintMode modName modInfo tag data
      (fst (classify_assets (new_version tag release) (release_assets release)))
      modSourceInfo = Done (newVersion', merged) lines' /\
    (modSourceInfo' = merged \/ modSourceInfo' = push_version newVersion' merged).
Proof.
  intros Hurl Hfetch Hstatus Hbody. unfold build_version.
  destruct (classify_assets _ _) as [newVersion meta]. cbn [fst snd] in *.
  subst meta. unfold resolve_metadata. rewrite Hfetch, Hstatus, Hbody.
  cbn [Z.eqb Pos.eqb].
  destruct (apply_metadata _ _ _ _ _ _ _) as [[newVersion' merged] l1|];
    [|discriminate].
  rewrite bind_Done.
  destruct (has _ || has _ || has _).
  - cbn. intros [= <- _]. eauto 10.
  - cbn. intros [= <- _]. eauto 10.
Qed.

End Metadata.

(** C6, amended.  After the metadata of a release has been applied, every
    game it names other than "__proto__" has a release date: the entry-level
    override when there is one, else the override of that game in
    [per_game_config], else the earlier of the date stored before and the
    publication date of the release (the publication date when none was
    stored). *)
Theorem release_date_precedence `{World} :
  forall (lintMode : bool) (modName : string) (modInfo : ModEntry)
         (tag : string) (data : MetadataDoc) (games : list string)
         (newVersion newVersion' : VersionInfo)
         (modSourceInfo modSourceInfo' : ModSourceInfo) (lines : list Line)
         (game : string),
    md_supportedGames data = Some games ->
    In game games ->
    game <> "__proto__" ->
    apply_metadata lintMode modName modInfo tag data newVersion modSourceInfo =
      Done (newVersion', modSourceInfo') lines ->
    exists info date,
      perGameConfig modSourceInfo' !! game = Some info /\
      pgi_releaseDate info = Some date /\
      resolved_date modInfo game
        (perGameConfig modSourceInfo !! game ≫= pgi_releaseDate)
        (publishedDate newVersion) date.
Proof.
  intros lintMode modName modInfo tag data games newVersion newVersion'
    modSourceInfo modSourceInfo' lines game Hgames Hin Hproto Hrun.
  apply apply_metadata_Done in Hrun as (games' & Hgames' & _ & ->).
  rewrite Hgames in Hgames'. injection Hgames' as <-.
  cbn [perGameConfig with_games_and_config].
  rewrite merge_fold_lookup.
  destruct (decide (game ∈ games /\ game <> Js.proto)) as [_|Hnot].
  - destruct (merged_entry_date modInfo (publishedDate newVersion) game
                (perGameConfig modSourceInfo !! game)) as (date & Hdate & Hres).
    eauto.
  - exfalso. apply Hnot. split; [apply list_elem_of_In; exact Hin|exact Hproto].
Qed.

(** ** Writing the catalog (lines 437-457) *)

Section WriteProperties.
Context `{World} `{JsonLib}.

Lemma previous_Some (text : string) (old : Parsed) :
  previous (Some text) = Some old <->
  exists parsed, JSON_parse text = Some parsed /\
                 delete_lastUpdated parsed = Some old.
Proof.
  unfold previous. cbn. destruct (JSON_parse text) as [parsed|]; cbn.
  - split; [eauto|]. intros (p & [= <-] & Hd). exact Hd.
  - split; [discriminate|]. intros (p & Hp & _). discriminate.
Qed.

End WriteProperties.

(** C7.  In a full run [fs.writeFileSync] is called exactly when there is no
    file yet or the new catalog differs from the persisted one without its
    [lastUpdated]; the text written is the catalog stamped with the current
    time.  When the two are equal nothing is written and a line says so.  In
    lint mode nothing is written. *)
Theorem catalog_written_iff_changed `{World} `{JsonLib} :
  forall (existing : option string) (modSourceData : Catalog),
    (forall text,
       value_of (diff_and_write false existing modSourceData) = Some (Some text)
       <->
       text = JSON_stringify_pretty (stamp now modSourceData) /\
       (existing = None \/ differs existing modSourceData)) /\
    (forall old,
       previous existing = Some old ->
       JSON_stringify_parsed old = JSON_stringify modSourceData ->
       diff_and_write false existing modSourceData =
       Done None [Out "mods.json would be unchanged, not updating the file"]) /\
    (lastUpdated (stamp now modSourceData) = Some now /\
     mods (stamp now modSourceData) = mods modSourceData /\
     texturePacks (stamp now modSourceData) = texturePacks modSourceData /\
     sourceName (stamp now modSourceData) = sourceName modSourceData /\
     schemaVersion (stamp now modSourceData) = schemaVersion modSourceData) /\
    diff_and_write true existing modSourceData = Done None [].
Proof.
  intros existing modSourceData. split; [|split; [|split]].
  - intros text. unfold diff_and_write, differs. cbn [negb].
    destruct existing as [old_text|].
    + destruct (JSON_parse old_text) as [parsed|] eqn:Hparse.
      * destruct (delete_lastUpdated parsed) as [old|] eqn:Hdel.
        -- assert (Hprev : previous (Some old_text) = Some old)
             by (apply previous_Some; eauto).
           destruct (String.eqb _ _) eqn:Heq.
           ++ apply String.eqb_eq in Heq. cbn -[previous]. split; [discriminate|].
              intros [_ [?|(old' & Hold' & Hne)]]; [discriminate|].
              rewrite Hprev in Hold'. injection Hold' as <-. contradiction.
           ++ apply String.eqb_neq in Heq. cbn -[previous]. split.
              ** intros [= <-]. split; [reflexivity|]. right. eauto.
              ** intros [-> _]. reflexivity.
        -- cbn -[previous]. split; [discriminate|].
           intros [_ [?|(old' & Hold' & _)]]; [discriminate|].
           apply previous_Some in Hold' as (p & Hp & Hd). congruence.
      * cbn -[previous]. split; [discriminate|].
        intros [_ [?|(old' & Hold' & _)]]; [discriminate|].
        apply previous_Some in Hold' as (p & Hp & Hd). congruence.
    + cbn -[previous]. split.
      * intros [= <-]. split; [reflexivity|]. left. reflexivity.
      * intros [-> _]. reflexivity.
  - intros old Hprev Hsame. unfold diff_and_write. cbn [negb].
    destruct existing as [old_text|]; [|discriminate].
    apply previous_Some in Hprev as (parsed & -> & ->).
    rewrite Hsame, String.eqb_refl. reflexivity.
  - repeat split.
  - reflexivity.
Qed.

Section NoIgnoreList.
Context `{SemverLib} `{World}.

(** Without [ignore_versions] the loop over the releases leaves
    [modSourceInfo] as it was: the code that builds a version sits inside the
    test for that key. *)
Lemma no_ignore_list_no_versions (lintMode : bool) (modName : string)
  (modInfo : ModEntry) (modReleases : list Release)
  (modSourceInfo : ModSourceInfo) :
  ignore_versions modInfo = None ->
  exists lines,
    process_releases lintMode modName modInfo modReleases modSourceInfo =
    Done modSourceInfo lines.
Proof.
  intros Hnone. induction modReleases as [|release rest [lines IH]].
  - exists []. reflexivity.
  - cbn [process_releases]. unfold process_release. rewrite Hnone.
    destruct (negb _).
    + rewrite bind_assoc. unfold console_error.
      rewrite bind_Done, bind_mret, IH. eauto.
    + rewrite bind_mret, IH. eauto.
Qed.

(** With [ignore_versions] configured, a release that no rule matches and
    that has no asset named "metadata.json" ends the run. *)
Lemma missing_metadata_aborts_with_ignore_list (lintMode : bool)
  (modName : string) (modInfo : ModEntry) (modSourceInfo : ModSourceInfo)
  (release : Release) (rules : list string) (lines : list Line) :
  semver_valid (clean_tag (tag_name release)) = true ->
  ignore_versions modInfo = Some rules ->
  ignore_loop modName (clean_tag (tag_name release)) rules = Done false lines ->
  Forall (fun asset =>
            String.eqb (Str.toLowerCase (name asset)) "metadata.json" = false)
    (release_assets release) ->
  process_release lintMode modName modInfo modSourceInfo release =
  Halt Exit1
    (lines ++ [Err ("Could not find 'metadata.json' asset in " +:+ modName +:+
                    ":" +:+ clean_tag (tag_name release))]).
Proof.
  intros Hvalid Hrules Hloop Hnone.
  unfold process_release. rewrite Hvalid, Hrules, Hloop. cbn [negb].
  rewrite bind_Done. unfold build_version.
  assert (Hmeta : forall v meta,
            snd (fold_left classify_asset (release_assets release) (v, meta))
            = meta).
  { induction Hnone as [|asset rest Hasset _ IH]; intros v meta.
    - reflexivity.
    - cbn [fold_left]. unfold classify_asset at 2.
      repeat (destruct (Str.startsWith _ _); [apply IH|]).
      rewrite Hasset. apply IH. }
  unfold classify_assets.
  specialize (Hmeta (new_version (clean_tag (tag_name release)) release) None).
  destruct (fold_left _ _ _) as [v meta]. cbn [snd] in Hmeta. subst meta.
  reflexivity.
Qed.

(** A texture-pack release that gets past the ignore rules stops the run. *)
Lemma build_pack_version_throws (modName tag : string) (release : Release)
  (modSourceInfo : TexturePackInfo) :
  build_pack_version modName tag release modSourceInfo = Halt TypeError [].
Proof. reflexivity. Qed.

End NoIgnoreList.

(** ** The scenario of the specification *)

(** C1.  The scenario as the claim gives it, without [ignore_versions]: the
    run ends normally, but the mod "foo" has no version at all, and its
    supported games are the fallback. *)
Theorem scenario_without_ignore_list_has_no_version :
  let run := @assemble npm_semver Scenario.world false
               (Scenario.config_of (Scenario.foo "y" None)) in
  stopped run = None /\
  versions <$> Scenario.foo_of run = Some [] /\
  supportedGames <$> Scenario.foo_of run = Some ["jak1"] /\
  lines_of run =
    [Out "had no supported games at the top level, this is optional, defaulted to 'jak1': foo"].
Proof. vm_compute. repeat split. Qed.

(** The same scenario with an empty [ignore_versions] list gives the version
    that the claim describes. *)
Example scenario_with_empty_ignore_list :
  let run := @assemble npm_semver Scenario.world false
               (Scenario.config_of (Scenario.foo "y" (Some []))) in
  stopped run = None /\
  versions <$> Scenario.foo_of run =
    Some [ {| version := "1.0.0";
              publishedDate := "2024-01-01T00:00:00Z";
              v_supportedGames := ["jak1"];
              settings := default_settings;
              assets := {| windows := Some "https://example.org/dl/windows-1.0.0.zip";
                           linux := None; macos := None |};
              assetDownloadCounts := {| windows := 7; linux := 0; macos := 0 |} |} ].
Proof. vm_compute. repeat split. Qed.

(** C3.  A texture pack with an empty [ignore_versions] list and a release
    "1.0.0" without any asset: the run stops on the exception of line 423,
    and no line is printed. *)
Theorem pack_release_without_archive_stops_run :
  let run := @assemble npm_semver Scenario.world false
               (Scenario.pack_config (Some [])) in
  stopped run = Some TypeError /\ lines_of run = [].
Proof. vm_compute. repeat split. Qed.

(** Without [ignore_versions] the same release is passed over in silence. *)
Example pack_release_without_ignore_list :
  let run := @assemble npm_semver Scenario.world false
               (Scenario.pack_config None) in
  stopped run = None /\ lines_of run = [] /\
  (value_of run ≫= fun catalog => tp_versions <$> texturePacks catalog !! "bar")
    = Some [].
Proof. vm_compute. repeat split. Qed.

(** C4.  The mod "foo" without [ignore_versions] and a release "v1.0.0" that
    has a Windows build but no [metadata.json]: the run ends normally and the
    release is passed over. *)
Theorem release_without_metadata_passes_silently :
  let run := @assemble npm_semver Scenario.world false
               (Scenario.config_of (Scenario.foo "bare" None)) in
  stopped run = None /\
  versions <$> Scenario.foo_of run = Some [] /\
  lines_of run =
    [Out "had no supported games at the top level, this is optional, defaulted to 'jak1': foo"].
Proof. vm_compute. repeat split. Qed.

(** With an empty [ignore_versions] list the same release ends the run. *)
Example release_without_metadata_with_ignore_list :
  let run := @assemble npm_semver Scenario.world false
               (Scenario.config_of (Scenario.foo "bare" (Some []))) in
  stopped run = Some Exit1 /\
  lines_of run = [Err "Could not find 'metadata.json' asset in foo:1.0.0"].
Proof. vm_compute. repeat split. Qed.

(** ** The general statements at work *)

(** The bound itself is kept, and so is anything above it. *)
Example bound_is_kept :
  map (fun v => value_of (@ignore_loop npm_semver "foo" v ["<1.2.0"; "v2.0.0+build"]))
    ["1.1.9"; "1.2.0-rc.1"; "1.2.0"; "1.2.1"; "2.0.0"]
  = [Some true; Some true; Some false; Some false; Some true].
Proof. reflexivity. Qed.

Lemma invalid_tag_witness :
  @semver_valid npm_semver (clean_tag "latest") = false /\
  @process_releases npm_semver Scenario.world false "foo"
    (Scenario.foo "y" (Some []))
    [release_of "latest" [Scenario.windows_asset]; Scenario.scenario_release]
    (initial_mod_info (Scenario.foo "y" (Some []))) =
  (console_error "foo:latest is not a valid semantic version, skipping";;
   @process_releases npm_semver Scenario.world false "foo"
     (Scenario.foo "y" (Some [])) [Scenario.scenario_release]
     (initial_mod_info (Scenario.foo "y" (Some [])))).
Proof.
  split; [reflexivity|].
  apply (proj1 (proj2 (@invalid_tag_is_skipped npm_semver Scenario.world))
           false "foo" (Scenario.foo "y" (Some []))
           (release_of "latest" [Scenario.windows_asset])).
  reflexivity.
Defined.

Lemma release_date_witness :
  md_supportedGames Scenario.jak1_only = Some ["jak1"] /\
  In "jak1" ["jak1"] /\
  "jak1" <> "__proto__" /\
  Applied.run = Done Applied.after [] /\
  exists info date,
    perGameConfig (snd Applied.after) !! "jak1" = Some info /\
    pgi_releaseDate info = Some date /\
    @resolved_date Scenario.world Applied.modInfo "jak1"
      (perGameConfig Applied.before !! "jak1" ≫= pgi_releaseDate)
      (publishedDate Applied.newVersion) date.
Proof.
  assert (Hrun : Applied.run = Done Applied.after [])
    by (vm_compute; reflexivity).
  assert (Hname : "jak1" <> "__proto__") by discriminate.
  split; [reflexivity|]. split; [left; reflexivity|]. split; [exact Hname|].
  split; [exact Hrun|].
  exact (@release_date_precedence Scenario.world false "foo" Applied.modInfo
           "0.9.0" Scenario.jak1_only ["jak1"] Applied.newVersion
           (fst Applied.after) Applied.before (snd Applied.after) [] "jak1"
           eq_refl (or_introl eq_refl) Hname Hrun).
Defined.

(** The earlier release moves the date of "jak1" back. *)
Example earlier_release_wins :
  (perGameConfig (snd Applied.after) !! "jak1") ≫= pgi_releaseDate
    = Some "2023-06-01T00:00:00Z".
Proof. vm_compute. reflexivity. Qed.

(** The version built from the partial document has the one setting of the
    document and neither of the defaults. *)
Example partial_settings_lose_defaults :
  map settings (versions Applied.built_info) = [Scenario.partial_settings] /\
  map (fun v => json_keys (settings v)) (versions Applied.built_info)
    = [["shareVanillaSaves"]] /\
  json_keys default_settings = ["decompConfigOverride"; "shareVanillaSaves"].
Proof. vm_compute. repeat split. Qed.

Lemma unchanged_catalog_witness :
  @previous Scenario.stamped_text Rerun.file =
    Some ("", "example source/foo@1.0.0") /\
  @JSON_stringify_parsed Scenario.stamped_text ("", "example source/foo@1.0.0")
    = @JSON_stringify Scenario.stamped_text Rerun.catalog /\
  @diff_and_write Scenario.world Scenario.stamped_text false Rerun.file
    Rerun.catalog =
  Done None [Out "mods.json would be unchanged, not updating the file"].
Proof.
  assert (Hprev : @previous Scenario.stamped_text Rerun.file =
                  Some ("", "example source/foo@1.0.0"))
    by (vm_compute; reflexivity).
  assert (Hsame : @JSON_stringify_parsed Scenario.stamped_text
                    ("", "example source/foo@1.0.0")
                  = @JSON_stringify Scenario.stamped_text Rerun.catalog)
    by (vm_compute; reflexivity).
  split; [exact Hprev|]. split; [exact Hsame|].
  exact (proj1 (proj2 (@catalog_written_iff_changed Scenario.world
           Scenario.stamped_text Rerun.file Rerun.catalog)) _ Hprev Hsame).
Defined.

(** * Further properties *)

(** ** Required keys (lines 53-61, 97-99, 331-333) *)

Lemma includes_In (xs : list string) (x : string) :
  Str.includes xs x = true <-> In x xs.
Proof.
  unfold Str.includes. rewrite existsb_exists. split.
  - intros (y & Hy & Heq). apply String.eqb_eq in Heq. subst. exact Hy.
  - intros Hx. exists x. split; [exact Hx|apply String.eqb_refl].
Qed.

Lemma includes_app (xs ys : list string) (x : string) :
  Str.includes (xs ++ ys) x = Str.includes xs x || Str.includes ys x.
Proof. apply existsb_app. Qed.

Lemma includes_key (present : bool) (key x : string) :
  Str.includes (if present then [key] else []) x = present && String.eqb x key.
Proof. destruct present; cbn; [apply orb_false_r|reflexivity]. Qed.

Lemma includes_required (modInfo : ModEntry) :
  Str.includes (keys_of modInfo) "display_name" = has (display_name modInfo) /\
  Str.includes (keys_of modInfo) "description" = has (description modInfo) /\
  Str.includes (keys_of modInfo) "authors" = has (authors modInfo) /\
  Str.includes (keys_of modInfo) "tags" = has (tags modInfo).
Proof.
  unfold keys_of. rewrite !includes_app, !includes_key. cbn.
  rewrite !andb_false_r, !andb_true_r, !orb_false_r. repeat split.
Qed.

(** X1.  [validateJsonKeys] answers true without printing when every key to
    check is among the keys; otherwise it answers false and prints one line,
    which names the first missing key in the order of the check. *)
Theorem validateJsonKeys_names_first_missing_key :
  forall (keysToCheck keys : list string) (messagePrefix : string),
    (Forall (fun key => In key keys) keysToCheck /\
     validateJsonKeys keysToCheck keys messagePrefix = Done true []) \/
    (exists found key rest,
       keysToCheck = (found ++ key :: rest)%list /\
       Forall (fun k => In k keys) found /\
       ~ In key keys /\
       validateJsonKeys keysToCheck keys messagePrefix =
       Done false [Err (messagePrefix +:+ ": missing " +:+ key)]).
Proof.
  intros keysToCheck keys messagePrefix.
  induction keysToCheck as [|key rest IH].
  - left. split; [constructor|reflexivity].
  - cbn [validateJsonKeys].
    destruct (Str.includes keys key) eqn:Hkey; cbn [negb].
    + apply includes_In in Hkey.
      destruct IH as [[Hall Hrun]|(found & missing & rest' & -> & Hfound & Hmiss & Hrun)].
      * left. split; [constructor; assumption|exact Hrun].
      * right. exists (key :: found), missing, rest'.
        repeat split; [constructor; assumption|exact Hmiss|exact Hrun].
    + right. exists [], key, rest. repeat split; [constructor|].
      intros Hin. apply includes_In in Hin. congruence.
Qed.

Lemma validate_entry_ok (modName : string) (modInfo : ModEntry) :
  required_present modInfo = true ->
  validate_entry modName modInfo = Done tt [].
Proof.
  unfold required_present, validate_entry, required_keys. intros Hreq.
  apply andb_prop in Hreq as [Hreq Htags].
  apply andb_prop in Hreq as [Hreq Hauthors].
  apply andb_prop in Hreq as [Hname Hdesc].
  destruct (includes_required modInfo) as (H1 & H2 & H3 & H4).
  cbn [validateJsonKeys]. rewrite H1, H2, H3, H4, Hname, Hdesc, Hauthors, Htags.
  reflexivity.
Qed.

Lemma validate_entry_missing (modName : string) (modInfo : ModEntry) :
  required_present modInfo = false ->
  exists lines, validate_entry modName modInfo = Halt Exit1 lines.
Proof.
  unfold required_present, validate_entry, required_keys. intros Hreq.
  destruct (includes_required modInfo) as (H1 & H2 & H3 & H4).
  cbn [validateJsonKeys]. rewrite H1, H2, H3, H4.
  destruct (has (display_name modInfo)); [|eexists; reflexivity].
  destruct (has (description modInfo)); [|eexists; reflexivity].
  destruct (has (authors modInfo)); [|eexists; reflexivity].
  destruct (has (tags modInfo)); [discriminate|eexists; reflexivity].
Qed.

Lemma require_repo_ok (modName : string) (modInfo : ModEntry) :
  repo_present modInfo = true -> require_repo modName modInfo = Done tt [].
Proof.
  unfold repo_present, require_repo. intros Hrepo.
  apply andb_prop in Hrepo as [-> ->]. reflexivity.
Qed.

Lemma require_repo_missing (modName : string) (modInfo : ModEntry) :
  repo_present modInfo = false ->
  require_repo modName modInfo =
  Halt Exit1 [Err ("'repo_owner' or 'repo_name' missing in: " +:+ modName)].
Proof.
  unfold repo_present, require_repo. intros Hrepo.
  destruct (truthy (repo_owner modInfo)), (truthy (repo_name modInfo));
    try discriminate; reflexivity.
Qed.

(** ** Lint runs (lines 9-17, 153, 376, 437) *)

Lemma process_mod_lint `{SemverLib} `{World} (modName : string)
  (modInfo : ModEntry) :
  process_mod true modName modInfo = lint_mod modName modInfo.
Proof.
  unfold process_mod, lint_mod.
  destruct (validate_entry modName modInfo) as [[] l|w l]; [|reflexivity].
  rewrite !bind_Done.
  destruct (external_link modInfo); [reflexivity|].
  destruct (require_repo modName modInfo) as [[] l2|w l2]; reflexivity.
Qed.

Lemma process_pack_lint `{SemverLib} `{World} (modName : string)
  (modInfo : ModEntry) :
  process_pack true modName modInfo = lint_pack modName modInfo.
Proof. reflexivity. Qed.

Lemma process_mods_lint (sv sv' : SemverLib) (w w' : World)
  (entries : list (string * ModEntry)) :
  forall acc,
    @process_mods sv w true entries acc = @process_mods sv' w' true entries acc.
Proof.
  induction entries as [|[modName modInfo] rest IH]; intros acc.
  - reflexivity.
  - cbn [process_mods].
    rewrite (@process_mod_lint sv w modName modInfo).
    rewrite (@process_mod_lint sv' w' modName modInfo).
    destruct (lint_mod modName modInfo) as [info l|stop l]; [|reflexivity].
    rewrite !bind_Done, IH. reflexivity.
Qed.

Lemma process_packs_lint (sv sv' : SemverLib) (w w' : World)
  (entries : list (string * ModEntry)) :
  forall acc,
    @process_packs sv w true entries acc = @process_packs sv' w' true entries acc.
Proof.
  induction entries as [|[modName modInfo] rest IH]; intros acc.
  - reflexivity.
  - cbn [process_packs].
    rewrite (@process_pack_lint sv w modName modInfo).
    rewrite (@process_pack_lint sv' w' modName modInfo).
    destruct (lint_pack modName modInfo) as [info l|stop l]; [|reflexivity].
    rewrite !bind_Done, IH. reflexivity.
Qed.

Lemma assemble_lint (sv sv' : SemverLib) (w w' : World)
  (configFile : option (Config + string)) :
  @assemble sv w true configFile = @assemble sv' w' true configFile.
Proof.
  unfold assemble.
  destruct configFile as [[cfg|]|]; try reflexivity.
  destruct (cfg_metadata cfg) as [metadata_name|]; [|reflexivity].
  destruct (negb (truthy metadata_name)); [reflexivity|].
  rewrite !bind_mret.
  destruct (cfg_mods cfg) as [entries|]; [|reflexivity].
  rewrite (process_mods_lint sv sv' w w').
  destruct (process_mods true entries ∅) as [mods l|stop l]; [|reflexivity].
  rewrite !bind_Done.
  destruct (cfg_texture_packs cfg) as [packs|]; [|reflexivity].
  rewrite (process_packs_lint sv sv' w w'). reflexivity.
Qed.

(** X2.  A lint run accepts a mod entry exactly when the four required keys
    are there and, for an external entry, [supported_games] is there, or
    else [repo_owner] and [repo_name] are there and not empty.  An accepted
    entry is stored without versions; a refused one ends the run with exit
    code 1.  Art URLs are not looked at, and the answer is the same whatever
    GitHub and [semver] would say. *)
Theorem lint_run_accepts_mod_entry :
  forall (sv : SemverLib) (w : World) (modName : string) (modInfo : ModEntry),
    (if lint_accepts_mod modInfo
     then exists info lines,
            @process_mod sv w true modName modInfo = Done info lines /\
            versions info = []
     else exists lines,
            @process_mod sv w true modName modInfo = Halt Exit1 lines) /\
    (forall (sv' : SemverLib) (w' : World),
       @process_mod sv' w' true modName modInfo =
       @process_mod sv w true modName modInfo).
Proof.
  intros sv w modName modInfo.
  split; [|intros sv' w'; rewrite !process_mod_lint; reflexivity].
  rewrite process_mod_lint.
  unfold lint_accepts_mod, lint_mod.
  destruct (required_present modInfo) eqn:Hreq; cbn [andb].
  - rewrite (validate_entry_ok _ _ Hreq), bind_Done.
    destruct (external_link modInfo) as [link|]; cbn [has].
    + destruct (supported_games modInfo); cbn [has].
      * eexists _, _. split; reflexivity.
      * eexists. reflexivity.
    + destruct (repo_present modInfo) eqn:Hrepo.
      * rewrite (require_repo_ok _ _ Hrepo). eexists _, _. split; reflexivity.
      * rewrite (require_repo_missing _ _ Hrepo). eexists. reflexivity.
  - destruct (validate_entry_missing modName modInfo Hreq) as [lines ->].
    eexists. reflexivity.
Qed.

(** X3.  A texture-pack entry passes a lint run exactly when the four
    required keys are there, [thumbnail_art_url] or [per_game_config] is
    there, and [repo_owner] and [repo_name] are there and not empty; it is
    then stored without versions, and otherwise the run ends with exit
    code 1. *)
Theorem lint_run_accepts_texture_pack :
  forall (sv : SemverLib) (w : World) (modName : string) (modInfo : ModEntry),
    if lint_accepts_pack modInfo
    then @process_pack sv w true modName modInfo =
         Done (initial_pack_info modInfo) [] /\
         tp_versions (initial_pack_info modInfo) = []
    else exists lines,
           @process_pack sv w true modName modInfo = Halt Exit1 lines.
Proof.
  intros sv w modName modInfo. rewrite process_pack_lint.
  unfold lint_accepts_pack, lint_pack.
  destruct (required_present modInfo) eqn:Hreq; cbn [andb].
  - rewrite (validate_entry_ok _ _ Hreq), bind_Done.
    destruct (has (thumbnail_art_url modInfo)), (has (per_game_config modInfo));
      cbn [negb andb orb]; try (eexists; reflexivity).
    all: destruct (repo_present modInfo) eqn:Hrepo;
      [rewrite (require_repo_ok _ _ Hrepo); split; reflexivity
      |rewrite (require_repo_missing _ _ Hrepo); eexists; reflexivity].
  - destruct (validate_entry_missing modName modInfo Hreq) as [lines ->].
    eexists. reflexivity.
Qed.

(** X4.  A run whose first argument is "lint" never writes the catalog, and
    its outcome does not depend on what GitHub, [fetch], the clock, [semver],
    [JSON] or the existing file hold. *)
Theorem lint_run_is_offline :
  forall (sv : SemverLib) (w : World) (j : JsonLib) (rest : list string)
         (configFile : option (Config + string)) (existing : option string),
    (forall catalog written lines,
       @main sv w j ("lint" :: rest) configFile existing =
         Done (catalog, written) lines ->
       written = None) /\
    (forall (sv' : SemverLib) (w' : World) (j' : JsonLib)
            (existing' : option string),
       @main sv' w' j' ("lint" :: rest) configFile existing' =
       @main sv w j ("lint" :: rest) configFile existing).
Proof.
  intros sv w j rest configFile existing.
  assert (Hmain : forall sv' w' j' existing',
            @main sv' w' j' ("lint" :: rest) configFile existing' =
            (console_log "lint mode enabled";;
             modSourceData ← @assemble sv w true configFile;
             mret (modSourceData, None))).
  { intros sv' w' j' existing'. unfold main.
    cbn [parse_args String.eqb Ascii.eqb Bool.eqb].
    rewrite bind_assoc, bind_mret, (assemble_lint sv' sv w' w). reflexivity. }
  split.
  - intros catalog written lines. rewrite Hmain. unfold console_log.
    rewrite bind_Done.
    destruct (assemble true configFile) as [c l|stop l]; [|discriminate].
    rewrite bind_Done. cbn. intros [= _ <- _]. reflexivity.
  - intros sv' w' j' existing'. rewrite !Hmain. reflexivity.
Qed.

(** ** The loop over the assets, once more (lines 206-220) *)

Lemma is_metadata_no_platform (asset : Asset) :
  is_metadata asset = true ->
  matches_prefix "windows-" asset = false /\
  matches_prefix "linux-" asset = false /\
  matches_prefix "macos-" asset = false.
Proof.
  unfold is_metadata, matches_prefix. intros Hm.
  apply String.eqb_eq in Hm. rewrite Hm. repeat split.
Qed.

Lemma classify_asset_metadata (v : VersionInfo) (meta : option string)
  (asset : Asset) :
  snd (classify_asset (v, meta) asset) =
  if is_metadata asset then Some (browser_download_url asset) else meta.
Proof.
  unfold classify_asset. fold (matches_prefix "windows-" asset).
  fold (matches_prefix "linux-" asset). fold (matches_prefix "macos-" asset).
  fold (is_metadata asset).
  destruct (is_metadata asset) eqn:Hm.
  - destruct (is_metadata_no_platform asset Hm) as (-> & -> & ->). reflexivity.
  - destruct (matches_prefix "windows-" asset); [reflexivity|].
    destruct (matches_prefix "linux-" asset); [reflexivity|].
    destruct (matches_prefix "macos-" asset); reflexivity.
Qed.

Lemma classify_asset_keeps (v : VersionInfo) (meta : option string)
  (asset : Asset) :
  let v' := fst (classify_asset (v, meta) asset) in
  version v' = version v /\ publishedDate v' = publishedDate v /\
  settings v' = settings v /\ v_supportedGames v' = v_supportedGames v.
Proof.
  unfold classify_asset.
  repeat (destruct (Str.startsWith _ _); [repeat split|]).
  destruct (String.eqb _ _); repeat split.
Qed.

Lemma classify_assets_keeps (listed : list Asset) :
  forall v : VersionInfo,
    let v' := fst (classify_assets v listed) in
    version v' = version v /\ publishedDate v' = publishedDate v /\
    settings v' = settings v /\ v_supportedGames v' = v_supportedGames v.
Proof.
  induction listed as [|asset listed IH] using rev_ind; intros v.
  - repeat split.
  - cbn zeta. rewrite classify_assets_snoc.
    specialize (IH v). cbn zeta in IH.
    destruct (classify_assets v listed) as [v1 meta]. cbn [fst] in IH.
    pose proof (classify_asset_keeps v1 meta asset) as Hstep. cbn zeta in Hstep.
    destruct Hstep as (Ha & Hb & Hc & Hd). rewrite Ha, Hb, Hc, Hd. exact IH.
Qed.

Lemma classify_assets_metadata (v : VersionInfo) (listed : list Asset) :
  snd (classify_assets v listed) =
  browser_download_url <$> find is_metadata (rev listed).
Proof.
  induction listed as [|asset listed IH] using rev_ind.
  - reflexivity.
  - rewrite classify_assets_snoc, rev_app_distr. cbn [rev app find].
    destruct (classify_assets v listed) as [v1 meta]. cbn [snd] in IH.
    rewrite classify_asset_metadata, IH.
    destruct (is_metadata asset); reflexivity.
Qed.

(** X5.  The URL of [metadata.json] is that of the last asset of the release
    whose lower-cased name is "metadata.json", and null when there is none;
    such an asset never fills a platform slot.  The loop leaves the version,
    date, settings and supported games of [newVersion] alone. *)
Theorem metadata_url_is_last_metadata_asset :
  forall (v : VersionInfo) (listed : list Asset),
    snd (classify_assets v listed) =
      browser_download_url <$> find is_metadata (rev listed) /\
    (forall asset meta, is_metadata asset = true ->
       classify_asset (v, meta) asset = (v, Some (browser_download_url asset))) /\
    version (fst (classify_assets v listed)) = version v /\
    publishedDate (fst (classify_assets v listed)) = publishedDate v /\
    settings (fst (classify_assets v listed)) = settings v /\
    v_supportedGames (fst (classify_assets v listed)) = v_supportedGames v.
Proof.
  intros v listed. split; [|split].
  - apply classify_assets_metadata.
  - intros asset meta Hm.
    destruct (is_metadata_no_platform asset Hm) as (Hw & Hl & Hmac).
    unfold classify_asset. unfold matches_prefix in Hw, Hl, Hmac.
    rewrite Hw, Hl, Hmac. unfold is_metadata in Hm. rewrite Hm. reflexivity.
  - exact (classify_assets_keeps listed v).
Qed.

(** ** What a built version went through (lines 186-305) *)

Section Inversion.
Context `{SemverLib} `{World}.

Lemma verify_art_Done (modName key : string) (modInfo : ModEntry)
  (topLevel : option string) (art : PerGameInfo -> option string)
  (cfg : gmap string PerGameInfo) (games : list string) (lines : list Line) :
  verify_art false modName key modInfo topLevel art cfg games = Done tt lines ->
  forall game, In game games -> art_available topLevel art cfg game.
Proof.
  unfold verify_art, art_available.
  destruct topLevel as [url|]; [intros _ game _; left; eauto|].
  destruct (has (per_game_config modInfo)); cbn [negb]; [|discriminate].
  rewrite bind_mret. intros Hcheck game Hin. right.
  revert lines Hcheck. induction games as [|g games IH]; intros lines Hcheck.
  - destruct Hin.
  - cbn [check_per_game_art] in Hcheck.
    destruct (cfg !! g ≫= art) as [url|] eqn:Hart; [|discriminate].
    destruct Hin as [<-|Hin]; [rewrite Hart; eauto|].
    exact (IH Hin lines Hcheck).
Qed.

Lemma apply_metadata_art (modName : string) (modInfo : ModEntry) (tag : string)
  (data : MetadataDoc) (newVersion newVersion' : VersionInfo)
  (modSourceInfo modSourceInfo' : ModSourceInfo) (lines : list Line) :
  apply_metadata false modName modInfo tag data newVersion modSourceInfo =
    Done (newVersion', modSourceInfo') lines ->
  forall game, In game (v_supportedGames newVersion') ->
    art_available (coverArtUrl modSourceInfo') pgi_coverArtUrl
      (perGameConfig modSourceInfo') game /\
    art_available (thumbnailArtUrl modSourceInfo') pgi_thumbnailArtUrl
      (perGameConfig modSourceInfo') game.
Proof.
  intros Hrun.
  destruct (apply_metadata_Done _ _ _ _ _ _ _ _ _ _ Hrun)
    as (games & Hgames & -> & ->).
  revert Hrun. unfold apply_metadata. rewrite Hgames.
  assert (Hdate : publishedDate
            (with_supportedGames games
               match md_settings data with
               | Some s => with_settings s newVersion
               | None => newVersion
               end) = publishedDate newVersion)
    by (destruct (md_settings data); reflexivity).
  rewrite Hdate.
  destruct (verify_art _ _ "cover_art_url" _ _ _ _ _) as [[] l1|] eqn:Hcover;
    [|discriminate].
  rewrite bind_Done.
  destruct (verify_art _ _ "thumbnail_art_url" _ _ _ _ _) as [[] l2|] eqn:Hthumb;
    [|discriminate].
  intros _ game Hin. cbn [v_supportedGames with_supportedGames] in Hin.
  split.
  - exact (verify_art_Done _ _ _ _ _ _ _ _ Hcover game Hin).
  - exact (verify_art_Done _ _ _ _ _ _ _ _ Hthumb game Hin).
Qed.

Lemma build_version_inv (lintMode : bool) (modName : string)
  (modInfo : ModEntry) (tag : string) (release : Release)
  (modSourceInfo modSourceInfo' : ModSourceInfo) (lines : list Line) :
  build_version lintMode modName modInfo tag release modSourceInfo =
    Done modSourceInfo' lines ->
  exists url metadataResp data newVersion' merged lines',
    snd (classify_assets (new_version tag release) (release_assets release)) =
      Some url /\
    fetch url = Some metadataResp /\
    status metadataResp = 200 /\
    body_json metadataResp = Some data /\
    apply_metadata lintMode modName modInfo tag data
      (fst (classify_assets (new_version tag release) (release_assets release)))
      modSourceInfo = Done (newVersion', merged) lines' /\
    ((has_platform newVersion' = true /\
      modSourceInfo' = push_version newVersion' merged /\
      lines = lines') \/
     (has_platform newVersion' = false /\ modSourceInfo' = merged /\
      lines = (lines' ++ [Out ("ignoring version, no assets found - " +:+
                               modName +:+ ":" +:+ tag)])%list)).
Proof.
  unfold build_version.
  destruct (classify_assets _ _) as [newVersion meta]. cbn [fst snd].
  unfold resolve_metadata.
  destruct meta as [url|]; [|discriminate].
  destruct (fetch url) as [metadataResp|] eqn:Hfetch; [|discriminate].
  destruct (status metadataResp =? 200) eqn:Hstatus; [|discriminate].
  apply Z.eqb_eq in Hstatus.
  destruct (body_json metadataResp) as [data|] eqn:Hbody; [|discriminate].
  destruct (apply_metadata _ _ _ _ _ _ _) as [[newVersion' merged] l1|] eqn:Hap;
    [|discriminate].
  rewrite bind_Done. fold (has_platform newVersion').
  destruct (has_platform newVersion') eqn:Hplat; cbn; intros [= <- <-].
  - exists url, metadataResp, data, newVersion', merged, l1.
    rewrite app_nil_r. tauto.
  - exists url, metadataResp, data, newVersion', merged, l1. tauto.
Qed.

Lemma process_release_inv (lintMode : bool) (modName : string)
  (modInfo : ModEntry) (release : Release)
  (modSourceInfo modSourceInfo' : ModSourceInfo) (lines : list Line) :
  process_release lintMode modName modInfo modSourceInfo release =
    Done modSourceInfo' lines ->
  modSourceInfo' = modSourceInfo \/
  (semver_valid (clean_tag (tag_name release)) = true /\
   exists lines',
     build_version lintMode modName modInfo (clean_tag (tag_name release))
       release modSourceInfo = Done modSourceInfo' lines').
Proof.
  unfold process_release.
  destruct (semver_valid _) eqn:Hvalid; cbn [negb].
  - destruct (ignore_versions modInfo) as [rules|].
    + destruct (ignore_loop _ _ rules) as [[|] l1|]; [| |discriminate].
      * rewrite bind_Done. cbn. intros [= <- _]. left. reflexivity.
      * rewrite bind_Done.
        destruct (build_version _ _ _ _ _ _) as [m l2|] eqn:Hbuild;
          [|discriminate].
        intros [= <- _]. right. split; [reflexivity|]. eauto.
    + cbn. intros [= <- _]. left. reflexivity.
  - cbn. intros [= <- _]. left. reflexivity.
Qed.

(** A relation that every built version respects holds across the loop. *)
Lemma process_releases_respects (R : ModSourceInfo -> ModSourceInfo -> Prop)
  (lintMode : bool) (modName : string) (modInfo : ModEntry)
  (modReleases : list Release) :
  (forall m, R m m) ->
  (forall a b c, R a b -> R b c -> R a c) ->
  (forall release m m' lines,
     In release modReleases ->
     semver_valid (clean_tag (tag_name release)) = true ->
     build_version lintMode modName modInfo (clean_tag (tag_name release))
       release m = Done m' lines ->
     R m m') ->
  forall modSourceInfo modSourceInfo' lines,
    process_releases lintMode modName modInfo modReleases modSourceInfo =
      Done modSourceInfo' lines ->
    R modSourceInfo modSourceInfo'.
Proof.
  intros Hrefl Htrans. induction modReleases as [|release rest IH];
    intros Hstep modSourceInfo modSourceInfo' lines.
  - cbn. intros [= <- _]. apply Hrefl.
  - cbn [process_releases].
    destruct (process_release _ _ _ _ release) as [m1 l1|] eqn:Hone;
      [|discriminate].
    rewrite bind_Done.
    destruct (process_releases _ _ _ rest m1) as [m2 l2|] eqn:Hrest;
      [|discriminate].
    intros [= <- _].
    apply Htrans with m1.
    + apply process_release_inv in Hone as [->|(Hvalid & l' & Hbuild)];
        [apply Hrefl|].
      exact (Hstep release _ _ _ (or_introl eq_refl) Hvalid Hbuild).
    + apply (IH (fun r m m' l Hin => Hstep r m m' l (or_intror Hin)) _ _ _ Hrest).
Qed.

End Inversion.

(** ** Supported games (lines 235-239, 314-317) *)

Lemma add_supported_game_spec (acc : list string) (game : string) :
  (In game acc /\ add_supported_game acc game = acc) \/
  (~ In game acc /\ add_supported_game acc game = (acc ++ [game])%list).
Proof.
  unfold add_supported_game.
  destruct (Str.includes acc game) eqn:Hin; cbn [negb].
  - left. split; [apply includes_In; exact Hin|reflexivity].
  - right. split; [|reflexivity].
    intros Hgame. apply includes_In in Hgame. congruence.
Qed.

Lemma union_games_spec (games : list string) :
  forall acc : list string,
    NoDup acc ->
    NoDup (fold_left add_supported_game games acc) /\
    (exists added, fold_left add_supported_game games acc = (acc ++ added)%list) /\
    (forall game, In game (fold_left add_supported_game games acc) <->
                  In game acc \/ In game games).
Proof.
  induction games as [|g games IH]; intros acc Hnodup.
  - cbn. split; [exact Hnodup|]. split; [exists []; rewrite app_nil_r; reflexivity|].
    intros game. tauto.
  - cbn [fold_left].
    destruct (add_supported_game_spec acc g) as [[Hin ->]|[Hnot ->]].
    + destruct (IH acc Hnodup) as (Hnd & Hpre & Hmem).
      split; [exact Hnd|]. split; [exact Hpre|].
      intros game. rewrite Hmem. cbn. split; [tauto|].
      intros [?|[<-|?]]; tauto.
    + assert (Hnodup' : NoDup (acc ++ [g])).
      { apply NoDup_app. split; [exact Hnodup|]. split.
        - intros x Hx ->%list_elem_of_singleton. apply Hnot.
          apply list_elem_of_In. exact Hx.
        - apply NoDup_singleton. }
      destruct (IH (acc ++ [g])%list Hnodup') as (Hnd & [added Hpre] & Hmem).
      split; [exact Hnd|]. split.
      * exists (g :: added). rewrite Hpre, <- app_assoc. reflexivity.
      * intros game. rewrite Hmem, in_app_iff. cbn. tauto.
Qed.

(** X6.  Merging the supported games of a release into the list of the mod
    keeps what was there, in place, appends each new game once, and leaves
    the list free of duplicates. *)
Theorem supported_games_are_merged_without_duplicates :
  forall (games acc : list string),
    NoDup acc ->
    NoDup (fold_left add_supported_game games acc) /\
    (exists added, fold_left add_supported_game games acc = (acc ++ added)%list) /\
    (forall game, In game (fold_left add_supported_game games acc) <->
                  In game acc \/ In game games).
Proof. intros games acc Hnodup. exact (union_games_spec games acc Hnodup). Qed.

Lemma supported_games_witness :
  NoDup ["jak1"] /\
  NoDup (fold_left add_supported_game ["jak2"; "jak1"; "jak2"] ["jak1"]).
Proof.
  assert (Hnodup : NoDup ["jak1"]) by (apply NoDup_singleton).
  split; [exact Hnodup|].
  exact (proj1 (supported_games_are_merged_without_duplicates
                  ["jak2"; "jak1"; "jak2"] ["jak1"] Hnodup)).
Defined.

(** ** Versions that reach the output (lines 156-306) *)

(** X7.  A version is built only from a release that has an asset named
    "metadata.json" (in any case of letters) whose download answers with
    status 200 and a document that parses and has [supportedGames]. *)
Theorem version_requires_metadata `{World} :
  forall (lintMode : bool) (modName : string) (modInfo : ModEntry)
         (tag : string) (release : Release)
         (modSourceInfo modSourceInfo' : ModSourceInfo) (lines : list Line),
    build_version lintMode modName modInfo tag release modSourceInfo =
      Done modSourceInfo' lines ->
    exists asset metadataResp data games,
      In asset (release_assets release) /\
      is_metadata asset = true /\
      fetch (browser_download_url asset) = Some metadataResp /\
      status metadataResp = 200 /\
      body_json metadataResp = Some data /\
      md_supportedGames data = Some games.
Proof.
  intros lintMode modName modInfo tag release modSourceInfo modSourceInfo'
    lines Hrun.
  apply build_version_inv in Hrun
    as (url & resp & data & v' & merged & l' & Hurl & Hfetch & Hstatus & Hbody
        & Hmeta & _).
  rewrite classify_assets_metadata in Hurl.
  apply fmap_Some in Hurl as (asset & Hfind & ->).
  apply find_some in Hfind as [Hin Hname]. apply in_rev in Hin.
  apply apply_metadata_Done in Hmeta as (games & Hgames & _).
  exists asset, resp, data, games. tauto.
Qed.

Lemma version_requires_metadata_witness :
  Walk.built = Done Walk.built_info [] /\
  exists asset metadataResp data games,
    In asset (release_assets Scenario.scenario_release) /\
    is_metadata asset = true /\
    @fetch Scenario.world (browser_download_url asset) = Some metadataResp /\
    status metadataResp = 200 /\
    body_json metadataResp = Some data /\
    md_supportedGames data = Some games.
Proof.
  assert (Hrun : Walk.built = Done Walk.built_info [])
    by (vm_compute; reflexivity).
  split; [exact Hrun|].
  exact (@version_requires_metadata Scenario.world false "foo" Walk.entry
           "1.0.0" Scenario.scenario_release Walk.start Walk.built_info []
           Hrun).
Defined.

Section Listing.
Context `{SemverLib} `{World}.

Lemma build_version_listing (lintMode : bool) (modName : string)
  (modInfo : ModEntry) (release : Release)
  (m m' : ModSourceInfo) (lines : list Line) :
  build_version lintMode modName modInfo (clean_tag (tag_name release))
    release m = Done m' lines ->
  versions m' = versions m \/
  exists v, versions m' = (versions m ++ [v])%list /\
            listed_as v = listing_of release /\
            has_platform v = true.
Proof.
  intros Hrun.
  apply build_version_inv in Hrun
    as (url & resp & data & v' & merged & l' & _ & _ & _ & _ & Hmeta & Hout).
  apply apply_metadata_Done in Hmeta as (games & _ & Hv' & ->).
  destruct Hout as [(Hplat & -> & _)|(_ & -> & _)]; [right|left; reflexivity].
  exists v'. split; [reflexivity|]. split; [|exact Hplat].
  subst v'. unfold listed_as, listing_of.
  pose proof (classify_assets_keeps (release_assets release)
                (new_version (clean_tag (tag_name release)) release))
    as (Hversion & Hdate & _).
  destruct (md_settings data);
    cbn [version publishedDate with_supportedGames with_settings];
    rewrite Hversion, Hdate; reflexivity.
Qed.

Lemma process_releases_listing (lintMode : bool) (modName : string)
  (modInfo : ModEntry) (modReleases : list Release) :
  forall (m m' : ModSourceInfo) (lines : list Line),
    process_releases lintMode modName modInfo modReleases m = Done m' lines ->
    exists new,
      versions m' = (versions m ++ new)%list /\
      (listed_as <$> new) `sublist_of` (listing_of <$> modReleases) /\
      Forall (fun v => has_platform v = true /\
                       semver_valid (version v) = true) new.
Proof.
  induction modReleases as [|release rest IH]; intros m m' lines.
  - cbn. intros [= <- _]. exists []. rewrite app_nil_r.
    repeat split; constructor.
  - cbn [process_releases].
    destruct (process_release _ _ _ _ release) as [m1 l1|] eqn:Hone;
      [|discriminate].
    rewrite bind_Done.
    destruct (process_releases _ _ _ rest m1) as [m2 l2|] eqn:Hrest;
      [|discriminate].
    intros [= <- _].
    destruct (IH _ _ _ Hrest) as (new & Hnew & Hsub & Hgood).
    apply process_release_inv in Hone as [->|(Hvalid & l' & Hbuild)].
    + exists new. split; [exact Hnew|]. split; [|exact Hgood].
      cbn [fmap list_fmap]. apply sublist_cons. exact Hsub.
    + apply build_version_listing in Hbuild
        as [Hsame|(v & Hpush & Hlisted & Hplat)].
      * exists new. rewrite Hnew, Hsame. split; [reflexivity|].
        split; [|exact Hgood].
        cbn [fmap list_fmap]. apply sublist_cons. exact Hsub.
      * exists (v :: new). rewrite Hnew, Hpush, <- app_assoc.
        split; [reflexivity|]. split.
        -- cbn [fmap list_fmap]. rewrite Hlisted. apply sublist_skip.
           exact Hsub.
        -- constructor; [|exact Hgood]. split; [exact Hplat|].
           injection Hlisted as -> _. exact Hvalid.
Qed.

End Listing.

(** X8.  The loop over the releases only appends to [versions]: each new
    version has the cleaned tag and the publication date of a listed
    release, in the order of the listing and at most one per release; it has
    a download for some platform, and its version is valid for [semver]. *)
Theorem emitted_versions_follow_the_listing `{SemverLib} `{World} :
  forall (lintMode : bool) (modName : string) (modInfo : ModEntry)
         (modReleases : list Release)
         (modSourceInfo modSourceInfo' : ModSourceInfo) (lines : list Line),
    process_releases lintMode modName modInfo modReleases modSourceInfo =
      Done modSourceInfo' lines ->
    exists new,
      versions modSourceInfo' = (versions modSourceInfo ++ new)%list /\
      (listed_as <$> new) `sublist_of` (listing_of <$> modReleases) /\
      Forall (fun v => has_platform v = true /\
                       semver_valid (version v) = true) new.
Proof.
  intros lintMode modName modInfo modReleases modSourceInfo modSourceInfo'
    lines Hrun.
  exact (process_releases_listing _ _ _ _ _ _ _ Hrun).
Qed.

Lemma emitted_versions_witness :
  Walk.looped = Done Walk.looped_info [] /\
  exists new,
    versions Walk.looped_info = (versions Walk.start ++ new)%list /\
    (listed_as <$> new) `sublist_of`
      (listing_of <$> [Scenario.scenario_release]) /\
    Forall (fun v => has_platform v = true /\
                     @semver_valid npm_semver (version v) = true) new.
Proof.
  assert (Hrun : Walk.looped = Done Walk.looped_info [])
    by (vm_compute; reflexivity).
  split; [exact Hrun|].
  exact (@emitted_versions_follow_the_listing npm_semver Scenario.world false
           "foo" Walk.entry [Scenario.scenario_release] Walk.start
           Walk.looped_info [] Hrun).
Defined.

(** ** What the loop never touches, and what it guarantees *)

Section Shape.
Context `{SemverLib} `{World}.

Lemma merged_entry_art (modInfo : ModEntry) (published game : string)
  (before : option PerGameInfo) :
  pgi_coverArtUrl (merged_entry modInfo published game before) =
    before ≫= pgi_coverArtUrl /\
  pgi_thumbnailArtUrl (merged_entry modInfo published game before) =
    before ≫= pgi_thumbnailArtUrl.
Proof.
  unfold merged_entry.
  destruct (release_date_override modInfo); [destruct before; split; reflexivity|].
  destruct (per_game_override modInfo game); [destruct before; split; reflexivity|].
  destruct before as [info|]; cbn [default from_option id mbind option_bind].
  - destruct (pgi_releaseDate info); [|split; reflexivity].
    destruct (later_than _ _); split; reflexivity.
  - split; reflexivity.
Qed.

Lemma merge_fold_art (modInfo : ModEntry) (published : string)
  (games : list string) (cfg : gmap string PerGameInfo) (game : string) :
  fold_left (merge_release_date modInfo published) games cfg !! game
    ≫= pgi_coverArtUrl = cfg !! game ≫= pgi_coverArtUrl /\
  fold_left (merge_release_date modInfo published) games cfg !! game
    ≫= pgi_thumbnailArtUrl = cfg !! game ≫= pgi_thumbnailArtUrl.
Proof.
  rewrite merge_fold_lookup.
  destruct (decide (game ∈ games /\ game <> Js.proto)); [|split; reflexivity].
  cbn [mbind option_bind].
  exact (merged_entry_art modInfo published game (cfg !! game)).
Qed.

(** All that a built version leaves in [modSourceInfo]. *)
Lemma build_version_shape (lintMode : bool) (modName : string)
  (modInfo : ModEntry) (release : Release)
  (m m' : ModSourceInfo) (lines : list Line) :
  build_version lintMode modName modInfo (clean_tag (tag_name release))
    release m = Done m' lines ->
  exists games v merged,
    merged =
      with_games_and_config
        (fold_left add_supported_game games (supportedGames m))
        (fold_left (merge_release_date modInfo (published_at release))
           games (perGameConfig m))
        m /\
    v_supportedGames v = games /\
    (m' = merged \/ m' = push_version v merged) /\
    (lintMode = false ->
     forall game, In game games ->
       art_available (coverArtUrl merged) pgi_coverArtUrl
         (perGameConfig merged) game /\
       art_available (thumbnailArtUrl merged) pgi_thumbnailArtUrl
         (perGameConfig merged) game).
Proof.
  intros Hrun.
  apply build_version_inv in Hrun
    as (url & resp & data & v' & merged & l' & _ & _ & _ & _ & Hmeta & Hout).
  pose proof Hmeta as Hshape.
  apply apply_metadata_Done in Hshape as (games & _ & Hv' & Hmerged).
  pose proof (classify_assets_keeps (release_assets release)
                (new_version (clean_tag (tag_name release)) release))
    as (_ & Hdate & _).
  cbn [publishedDate new_version] in Hdate. rewrite Hdate in Hmerged.
  exists games, v', merged. split; [exact Hmerged|].
  split; [subst v'; reflexivity|]. split; [tauto|].
  intros -> game Hin.
  apply (apply_metadata_art _ _ _ _ _ _ _ _ _ Hmeta).
  subst v'. exact Hin.
Qed.

Lemma same_card_refl (m : ModSourceInfo) : same_card m m.
Proof. unfold same_card. repeat split. Qed.

Lemma same_card_trans (a b c : ModSourceInfo) :
  same_card a b -> same_card b c -> same_card a c.
Proof.
  unfold same_card.
  intros (A1 & A2 & A3 & A4 & A5 & A6 & A7 & A8 & A9 & A10)
         (B1 & B2 & B3 & B4 & B5 & B6 & B7 & B8 & B9 & B10).
  repeat split; congruence.
Qed.

Lemma build_version_same_card (lintMode : bool) (modName : string)
  (modInfo : ModEntry) (release : Release)
  (m m' : ModSourceInfo) (lines : list Line) :
  build_version lintMode modName modInfo (clean_tag (tag_name release))
    release m = Done m' lines ->
  same_card m m'.
Proof.
  intros Hrun.
  apply build_version_shape in Hrun as (games & v & merged & -> & _ & Hout & _).
  assert (Hcard : forall game,
            fold_left (merge_release_date modInfo (published_at release)) games
              (perGameConfig m) !! game ≫= pgi_coverArtUrl =
            perGameConfig m !! game ≫= pgi_coverArtUrl /\
            fold_left (merge_release_date modInfo (published_at release)) games
              (perGameConfig m) !! game ≫= pgi_thumbnailArtUrl =
            perGameConfig m !! game ≫= pgi_thumbnailArtUrl)
    by (intros game; apply merge_fold_art).
  destruct Hout as [-> | ->]; unfold same_card;
    cbn [displayName msi_description msi_authors msi_tags websiteUrl
         coverArtUrl thumbnailArtUrl externalLink perGameConfig
         with_games_and_config push_version];
    repeat split; intros game; apply Hcard.
Qed.

Lemma process_releases_same_card (lintMode : bool) (modName : string)
  (modInfo : ModEntry) (modReleases : list Release)
  (m m' : ModSourceInfo) (lines : list Line) :
  process_releases lintMode modName modInfo modReleases m = Done m' lines ->
  same_card m m'.
Proof.
  apply (process_releases_respects same_card).
  - apply same_card_refl.
  - apply same_card_trans.
  - intros release a b l _ _ Hbuild.
    exact (build_version_same_card _ _ _ _ _ _ _ Hbuild).
Qed.

Lemma art_available_same_card (a b : ModSourceInfo) (game : string) :
  same_card a b ->
  (art_available (coverArtUrl a) pgi_coverArtUrl (perGameConfig a) game ->
   art_available (coverArtUrl b) pgi_coverArtUrl (perGameConfig b) game) /\
  (art_available (thumbnailArtUrl a) pgi_thumbnailArtUrl (perGameConfig a) game ->
   art_available (thumbnailArtUrl b) pgi_thumbnailArtUrl (perGameConfig b) game).
Proof.
  unfold same_card, art_available.
  intros (_ & _ & _ & _ & _ & -> & -> & _ & Hcover & Hthumb).
  rewrite Hcover, Hthumb. tauto.
Qed.

Lemma process_releases_art (modName : string) (modInfo : ModEntry)
  (modReleases : list Release) (m m' : ModSourceInfo) (lines : list Line) :
  process_releases false modName modInfo modReleases m = Done m' lines ->
  art_complete m -> art_complete m'.
Proof.
  apply (process_releases_respects
           (fun a b => same_card a b /\ (art_complete a -> art_complete b))).
  - intros a. split; [apply same_card_refl|tauto].
  - intros a b c [Hab Hab'] [Hbc Hbc']. split; [|tauto].
    exact (same_card_trans _ _ _ Hab Hbc).
  - intros release a b l _ _ Hbuild.
    pose proof (build_version_same_card _ _ _ _ _ _ _ Hbuild) as Hcard.
    split; [exact Hcard|]. intros Hart.
    apply build_version_shape in Hbuild
      as (games & v & merged & Hmerged & Hgames & Hout & Hnew).
    specialize (Hnew eq_refl).
    assert (Hold : forall v0, In v0 (versions a) ->
              forall game, In game (v_supportedGames v0) ->
                art_available (coverArtUrl b) pgi_coverArtUrl
                  (perGameConfig b) game /\
                art_available (thumbnailArtUrl b) pgi_thumbnailArtUrl
                  (perGameConfig b) game).
    { intros v0 Hv0 game Hgame. destruct (Hart v0 Hv0 game Hgame) as [Hc Ht].
      destruct (art_available_same_card a b game Hcard) as [Hc' Ht'].
      split; [exact (Hc' Hc)|exact (Ht' Ht)]. }
    intros v0 Hv0 game Hgame.
    destruct Hout as [-> | ->].
    + apply (Hold v0); [|exact Hgame].
      rewrite Hmerged in Hv0. exact Hv0.
    + cbn [versions push_version] in Hv0. apply in_app_or in Hv0 as [Hv0|[<-|[]]].
      * apply (Hold v0); [|exact Hgame]. rewrite Hmerged in Hv0. exact Hv0.
      * rewrite Hgames in Hgame. exact (Hnew game Hgame).
Qed.

Lemma process_releases_games (lintMode : bool) (modName : string)
  (modInfo : ModEntry) (modReleases : list Release)
  (m m' : ModSourceInfo) (lines : list Line) :
  process_releases lintMode modName modInfo modReleases m = Done m' lines ->
  NoDup (supportedGames m) ->
  NoDup (supportedGames m') /\
  (forall game, In game (supportedGames m) -> In game (supportedGames m')) /\
  (games_covered m -> games_covered m').
Proof.
  apply (process_releases_respects
           (fun a b => NoDup (supportedGames a) ->
              NoDup (supportedGames b) /\
              (forall game, In game (supportedGames a) ->
                            In game (supportedGames b)) /\
              (games_covered a -> games_covered b))).
  - intros a Ha. tauto.
  - intros a b c Hab Hbc Ha.
    destruct (Hab Ha) as (Hb & Hin & Hcov).
    destruct (Hbc Hb) as (Hc & Hin' & Hcov'). split; [exact Hc|].
    split; [intros game Hg; exact (Hin' game (Hin game Hg))|tauto].
  - intros release a b l _ _ Hbuild Ha.
    apply build_version_shape in Hbuild
      as (games & v & merged & Hmerged & Hgames & Hout & _).
    destruct (union_games_spec games (supportedGames a) Ha)
      as (Hnodup & _ & Hmem).
    assert (Hsg : supportedGames b =
                  fold_left add_supported_game games (supportedGames a))
      by (destruct Hout as [-> | ->]; subst merged; reflexivity).
    rewrite Hsg. split; [exact Hnodup|].
    split; [intros game Hg; apply Hmem; tauto|].
    intros Hcov v0 Hv0 game Hgame. rewrite Hsg. apply Hmem.
    destruct Hout as [-> | ->]; subst merged;
      cbn [versions push_version with_games_and_config] in Hv0.
    + left. exact (Hcov v0 Hv0 game Hgame).
    + apply in_app_or in Hv0 as [Hv0|[<-|[]]].
      * left. exact (Hcov v0 Hv0 game Hgame).
      * right. rewrite Hgames in Hgame. exact Hgame.
Qed.

End Shape.

(** ** One mod entry from end to end (lines 93-321) *)

Section WholeEntry.
Context `{SemverLib} `{World}.

Lemma process_mod_inv (lintMode : bool) (modName : string)
  (modInfo : ModEntry) (info : ModSourceInfo) (lines : list Line) :
  process_mod lintMode modName modInfo = Done info lines ->
  required_present modInfo = true /\
  ((exists link games,
      external_link modInfo = Some link /\
      supported_games modInfo = Some games /\
      info = as_external link games (initial_mod_info modInfo)) \/
   (external_link modInfo = None /\
    repo_present modInfo = true /\
    exists m modReleases,
      ((lintMode = true /\ modReleases = [] /\ m = initial_mod_info modInfo) \/
       (lintMode = false /\
        listReleases (show (repo_owner modInfo)) (show (repo_name modInfo)) =
          Some modReleases /\
        exists lines',
          process_releases false modName modInfo modReleases
            (initial_mod_info modInfo) = Done m lines')) /\
      ((supportedGames m = [] /\
        info = with_games_and_config ["jak1"] (perGameConfig m) m) \/
       (supportedGames m <> [] /\ info = m)))).
Proof.
  unfold process_mod.
  destruct (required_present modInfo) eqn:Hreq.
  2: { destruct (validate_entry_missing modName modInfo Hreq) as [l ->].
       discriminate. }
  rewrite (validate_entry_ok _ _ Hreq), bind_Done.
  destruct (external_link modInfo) as [link|].
  - destruct (supported_games modInfo) as [games|]; [|discriminate].
    cbn. intros [= <- _]. split; [reflexivity|]. left. eauto.
  - destruct (repo_present modInfo) eqn:Hrepo.
    2: { rewrite (require_repo_missing _ _ Hrepo). discriminate. }
    rewrite (require_repo_ok _ _ Hrepo), bind_Done.
    intros Hrun. split; [reflexivity|]. right.
    split; [reflexivity|]. split; [reflexivity|].
    destruct lintMode; cbn [negb] in Hrun.
    + rewrite bind_mret in Hrun. cbn in Hrun. injection Hrun as <- _.
      exists (initial_mod_info modInfo), []. split; [left; auto|].
      left. split; reflexivity.
    + destruct (listReleases _ _) as [modReleases|]; [|discriminate].
      destruct (process_releases _ _ _ _ _) as [m l|] eqn:Hloop;
        [|discriminate].
      rewrite bind_Done in Hrun.
      exists m, modReleases. split; [right; eauto|].
      destruct (supportedGames m) as [|g gs] eqn:Hgames; cbn in Hrun.
      * injection Hrun as <- _. left. split; reflexivity.
      * injection Hrun as <- _. right. split; [discriminate|reflexivity].
Qed.

Lemma initial_card (modInfo : ModEntry) (game : string) :
  perGameConfig (initial_mod_info modInfo) !! game ≫= pgi_coverArtUrl =
    (if decide (game = Js.proto) then None
     else (per_game_config modInfo ≫= (.!! game)) ≫= pg_cover_art_url) /\
  perGameConfig (initial_mod_info modInfo) !! game ≫= pgi_thumbnailArtUrl =
    (if decide (game = Js.proto) then None
     else (per_game_config modInfo ≫= (.!! game)) ≫= pg_thumbnail_art_url) /\
  perGameConfig (initial_mod_info modInfo) !! game ≫= pgi_releaseDate = None.
Proof.
  cbn [perGameConfig initial_mod_info].
  destruct (per_game_config modInfo) as [cfg|]; cbn [mbind option_bind].
  - rewrite lookup_assign_all.
    destruct (decide (game = Js.proto)); [repeat split|].
    destruct (cfg !! game); repeat split.
  - rewrite lookup_empty. destruct (decide (game = Js.proto)); repeat split.
Qed.

(** The card of the stored record is the card of the record the entry
    starts with. *)
Lemma process_mod_same_card (lintMode : bool) (modName : string)
  (modInfo : ModEntry) (info : ModSourceInfo) (lines : list Line) :
  process_mod lintMode modName modInfo = Done info lines ->
  displayName info = display_name modInfo /\
  msi_description info = description modInfo /\
  msi_authors info = authors modInfo /\
  msi_tags info = tags modInfo /\
  websiteUrl info = resolve_website modInfo /\
  coverArtUrl info = cover_art_url modInfo /\
  thumbnailArtUrl info = thumbnail_art_url modInfo /\
  externalLink info = external_link modInfo /\
  (forall game,
     perGameConfig info !! game ≫= pgi_coverArtUrl =
     perGameConfig (initial_mod_info modInfo) !! game ≫= pgi_coverArtUrl) /\
  (forall game,
     perGameConfig info !! game ≫= pgi_thumbnailArtUrl =
     perGameConfig (initial_mod_info modInfo) !! game ≫= pgi_thumbnailArtUrl).
Proof.
  intros Hrun.
  apply process_mod_inv in Hrun
    as (_ & [(link & games & Hlink & _ & ->)
            |(Hlink & _ & m & rels & Hloop & Hout)]).
  - cbn. rewrite Hlink. repeat split.
  - assert (Hcard : same_card (initial_mod_info modInfo) m).
    { destruct Hloop as [(_ & _ & ->)|(_ & _ & l' & Hloop)];
        [apply same_card_refl|].
      exact (process_releases_same_card _ _ _ _ _ _ _ Hloop). }
    assert (Hinfo : same_card m info).
    { destruct Hout as [(_ & ->)|(_ & ->)]; [|apply same_card_refl].
      unfold same_card. cbn. repeat split. }
    pose proof (same_card_trans _ _ _ Hcard Hinfo)
      as (A1 & A2 & A3 & A4 & A5 & A6 & A7 & A8 & A9 & A10).
    rewrite A1, A2, A3, A4, A5, A6, A7, A8. cbn. rewrite Hlink.
    repeat split; assumption.
Qed.

End WholeEntry.

(** X9.  Whatever the releases hold, the stored record of a mod shows the
    texts and art URLs of its configuration entry: display name,
    description, authors, tags, cover and thumbnail, the external link, and
    the per-game art of every game of [per_game_config] except one named
    "__proto__", under which nothing is stored.  Its website is the
    configured one; without one it is undefined for an external mod and the
    GitHub page of the repository otherwise. *)
Theorem stored_card_comes_from_configuration `{SemverLib} `{World} :
  forall (lintMode : bool) (modName : string) (modInfo : ModEntry)
         (info : ModSourceInfo) (lines : list Line),
    process_mod lintMode modName modInfo = Done info lines ->
    (displayName info = display_name modInfo /\
     msi_description info = description modInfo /\
     msi_authors info = authors modInfo /\
     msi_tags info = tags modInfo /\
     coverArtUrl info = cover_art_url modInfo /\
     thumbnailArtUrl info = thumbnail_art_url modInfo /\
     externalLink info = external_link modInfo) /\
    (forall game,
       perGameConfig info !! game ≫= pgi_coverArtUrl =
         (if decide (game = "__proto__") then None
          else (per_game_config modInfo ≫= (.!! game)) ≫= pg_cover_art_url) /\
       perGameConfig info !! game ≫= pgi_thumbnailArtUrl =
         (if decide (game = "__proto__") then None
          else (per_game_config modInfo ≫= (.!! game))
               ≫= pg_thumbnail_art_url)) /\
    match website_url modInfo, external_link modInfo with
    | Some url, _ => websiteUrl info = Some url
    | None, Some _ => websiteUrl info = None
    | None, None =>
        exists owner repo,
          repo_owner modInfo = Some owner /\ repo_name modInfo = Some repo /\
          owner <> "" /\ repo <> "" /\
          websiteUrl info =
            Some ("https://www.github.com/" +:+ owner +:+ "/" +:+ repo)
    end.
Proof.
  intros lintMode modName modInfo info lines Hrun.
  pose proof (process_mod_same_card _ _ _ _ _ Hrun)
    as (A1 & A2 & A3 & A4 & A5 & A6 & A7 & A8 & A9 & A10).
  split; [tauto|]. split.
  - intros game. rewrite A9, A10.
    destruct (initial_card modInfo game) as (Hc & Ht & _).
    split; [exact Hc|exact Ht].
  - rewrite A5. unfold resolve_website.
    destruct (website_url modInfo) as [url|]; cbn [has negb]; [reflexivity|].
    destruct (external_link modInfo) as [link|] eqn:Hlink; cbn [has negb];
      [reflexivity|].
    apply process_mod_inv in Hrun as (_ & [(l & g & Hl & _)|(_ & Hrepo & _)]);
      [congruence|].
    unfold repo_present, truthy in Hrepo.
    destruct (repo_owner modInfo) as [owner|]; [|discriminate].
    destruct (repo_name modInfo) as [repo|];
      [|rewrite andb_false_r in Hrepo; discriminate].
    apply andb_prop in Hrepo as [Ho Hr].
    apply negb_true_iff in Ho, Hr. apply String.eqb_neq in Ho, Hr.
    exists owner, repo. repeat split; assumption.
Qed.

Lemma stored_card_witness :
  Walk.whole = Done Walk.whole_info [] /\
  websiteUrl Walk.whole_info = Some "https://www.github.com/x/y" /\
  displayName Walk.whole_info = Some "Foo".
Proof.
  assert (Hrun : Walk.whole = Done Walk.whole_info [])
    by (vm_compute; reflexivity).
  split; [exact Hrun|].
  pose proof (@stored_card_comes_from_configuration npm_semver Scenario.world
                false "foo" Walk.entry Walk.whole_info [] Hrun)
    as ((Hname & _) & _ & (owner & repo & [= <-] & [= <-] & _ & _ & Hsite)).
  split; [exact Hsite|exact Hname].
Defined.

(** X10.  In a full run that succeeds, every game named by a listed version
    has a cover and a thumbnail: set for the whole mod, or under the game in
    [per_game_config]. *)
Theorem every_listed_game_has_art `{SemverLib} `{World} :
  forall (modName : string) (modInfo : ModEntry) (info : ModSourceInfo)
         (lines : list Line),
    process_mod false modName modInfo = Done info lines ->
    forall v, In v (versions info) ->
    forall game, In game (v_supportedGames v) ->
      (is_Some (cover_art_url modInfo) \/
       is_Some ((per_game_config modInfo ≫= (.!! game)) ≫= pg_cover_art_url)) /\
      (is_Some (thumbnail_art_url modInfo) \/
       is_Some ((per_game_config modInfo ≫= (.!! game))
                ≫= pg_thumbnail_art_url)).
Proof.
  intros modName modInfo info lines Hrun v Hv game Hgame.
  pose proof (process_mod_same_card _ _ _ _ _ Hrun)
    as (_ & _ & _ & _ & _ & A6 & A7 & _ & A9 & A10).
  destruct (initial_card modInfo game) as (Hc & Ht & _).
  rewrite <- A9 in Hc. rewrite <- A10 in Ht. rewrite <- A6, <- A7.
  assert (Hconfig : forall (stored configured : option string),
            stored = (if decide (game = Js.proto) then None else configured) ->
            is_Some stored -> is_Some configured).
  { intros stored configured ->. destruct (decide (game = Js.proto));
      [intros [? [=]]|tauto]. }
  enough (Hboth :
            art_available (coverArtUrl info) pgi_coverArtUrl
              (perGameConfig info) game /\
            art_available (thumbnailArtUrl info) pgi_thumbnailArtUrl
              (perGameConfig info) game).
  { destruct Hboth as [[Htop|Hgame_art] [Htop'|Hgame_art']]; split;
      solve [left; assumption
            |right; eapply Hconfig; [exact Hc|assumption]
            |right; eapply Hconfig; [exact Ht|assumption]]. }
  assert (Hart : art_complete info).
  { apply process_mod_inv in Hrun
      as (_ & [(link & games & _ & _ & ->)|(_ & _ & m & rels & Hloop & Hout)]).
    - intros v0 [].
    - assert (Hm : art_complete m).
      { destruct Hloop as [(_ & _ & ->)|(_ & _ & l' & Hloop)];
          [intros v0 []|].
        apply (process_releases_art _ _ _ _ _ _ Hloop). intros v0 []. }
      destruct Hout as [(_ & ->)|(_ & ->)]; [|exact Hm].
      exact Hm. }
  exact (Hart v Hv game Hgame).
Qed.

Lemma listed_art_witness :
  Walk.whole = Done Walk.whole_info [] /\
  (exists v, In v (versions Walk.whole_info) /\ In "jak1" (v_supportedGames v)) /\
  is_Some ((per_game_config Walk.entry ≫= (.!! "jak1")) ≫= pg_cover_art_url).
Proof.
  assert (Hrun : Walk.whole = Done Walk.whole_info [])
    by (vm_compute; reflexivity).
  assert (Hv : exists v, In v (versions Walk.whole_info) /\
                         In "jak1" (v_supportedGames v)).
  { assert (Hgames : map v_supportedGames (versions Walk.whole_info) =
                     [["jak1"]]) by (vm_compute; reflexivity).
    destruct (versions Walk.whole_info) as [|v [|]]; try discriminate.
    injection Hgames as Hgames. exists v.
    split; [left; reflexivity|rewrite Hgames; left; reflexivity]. }
  split; [exact Hrun|]. split; [exact Hv|].
  destruct Hv as (v & Hv & Hgame).
  destruct (@every_listed_game_has_art npm_semver Scenario.world "foo"
              Walk.entry Walk.whole_info [] Hrun v Hv "jak1" Hgame)
    as [[Htop|Hgame_art] _]; [|exact Hgame_art].
  destruct Htop as [url Htop]. discriminate Htop.
Defined.

(** X11.  The supported games of a mod that is not external are never
    empty and hold no game twice, and every game of every listed version is
    among them. *)
Theorem supported_games_of_repository_mod `{SemverLib} `{World} :
  forall (lintMode : bool) (modName : string) (modInfo : ModEntry)
         (info : ModSourceInfo) (lines : list Line),
    process_mod lintMode modName modInfo = Done info lines ->
    external_link modInfo = None ->
    supportedGames info <> [] /\
    NoDup (supportedGames info) /\
    games_covered info.
Proof.
  intros lintMode modName modInfo info lines Hrun Hlink.
  apply process_mod_inv in Hrun
    as (_ & [(link & games & Hl & _)|(_ & _ & m & rels & Hloop & Hout)]);
    [congruence|].
  assert (Hm : NoDup (supportedGames m) /\ games_covered m).
  { destruct Hloop as [(_ & _ & ->)|(_ & _ & l' & Hloop)].
    - split; [constructor|intros v []].
    - destruct (process_releases_games _ _ _ _ _ _ _ Hloop) as (Hnd & _ & Hcov).
      + constructor.
      + split; [exact Hnd|]. apply Hcov. intros v []. }
  destruct Hm as [Hnd Hcov].
  destruct Hout as [(Hempty & ->)|(Hsome & ->)].
  - cbn [supportedGames with_games_and_config]. split; [discriminate|].
    split; [apply NoDup_singleton|].
    intros v Hv game Hgame. cbn [versions with_games_and_config] in Hv.
    specialize (Hcov v Hv game Hgame). rewrite Hempty in Hcov. destruct Hcov.
  - tauto.
Qed.

Lemma supported_games_of_mod_witness :
  Walk.whole = Done Walk.whole_info [] /\
  external_link Walk.entry = None /\
  supportedGames Walk.whole_info <> [] /\
  NoDup (supportedGames Walk.whole_info) /\
  games_covered Walk.whole_info.
Proof.
  assert (Hrun : Walk.whole = Done Walk.whole_info [])
    by (vm_compute; reflexivity).
  split; [exact Hrun|]. split; [reflexivity|].
  exact (@supported_games_of_repository_mod npm_semver Scenario.world false
           "foo" Walk.entry Walk.whole_info [] Hrun eq_refl).
Defined.

(** ** Where release dates come from (lines 242-259) *)

Section DateOrigin.
Context `{SemverLib} `{World}.

Lemma merged_entry_origin (modInfo : ModEntry) (published game : string)
  (before : option PerGameInfo) (date : string) :
  pgi_releaseDate (merged_entry modInfo published game before) = Some date ->
  before ≫= pgi_releaseDate = Some date \/
  release_date_override modInfo = Some date \/
  (release_date_override modInfo = None /\
   per_game_override modInfo game = Some date) \/
  (release_date_override modInfo = None /\
   per_game_override modInfo game = None /\ date = published).
Proof.
  unfold merged_entry.
  destruct (release_date_override modInfo) as [d|];
    [cbn; intros [= ->]; tauto|].
  destruct (per_game_override modInfo game) as [d|];
    [cbn; intros [= ->]; tauto|].
  destruct before as [info|]; cbn [default from_option id mbind option_bind].
  - destruct (pgi_releaseDate info) as [stored|] eqn:Hs.
    + destruct (later_than stored published).
      * cbn. intros [= ->]. tauto.
      * rewrite Hs. intros [= ->]. tauto.
    + cbn. intros [= ->]. tauto.
  - cbn. intros [= ->]. tauto.
Qed.

Lemma process_releases_dates (lintMode : bool) (modName : string)
  (modInfo : ModEntry) (modReleases : list Release)
  (m m' : ModSourceInfo) (lines : list Line) :
  process_releases lintMode modName modInfo modReleases m = Done m' lines ->
  forall game date,
    perGameConfig m' !! game ≫= pgi_releaseDate = Some date ->
    perGameConfig m !! game ≫= pgi_releaseDate = Some date \/
    date_origin modInfo modReleases game date.
Proof.
  apply (process_releases_respects
           (fun a b => forall game date,
              perGameConfig b !! game ≫= pgi_releaseDate = Some date ->
              perGameConfig a !! game ≫= pgi_releaseDate = Some date \/
              date_origin modInfo modReleases game date)).
  - intros a game date Hdate. left. exact Hdate.
  - intros a b c Hab Hbc game date Hdate.
    destruct (Hbc game date Hdate) as [Hb|Horigin]; [|right; exact Horigin].
    exact (Hab game date Hb).
  - intros release a b l Hin _ Hbuild game date Hdate.
    apply build_version_shape in Hbuild
      as (games & v & merged & Hmerged & _ & Hout & _).
    assert (Hcfg : perGameConfig b =
                   fold_left (merge_release_date modInfo (published_at release))
                     games (perGameConfig a))
      by (destruct Hout as [-> | ->]; subst merged; reflexivity).
    rewrite Hcfg, merge_fold_lookup in Hdate.
    destruct (decide (game ∈ games /\ game <> Js.proto)); [|left; exact Hdate].
    cbn [mbind option_bind] in Hdate.
    apply merged_entry_origin in Hdate as [Hold|[Hov|[Hpg|(Ho & Hp & ->)]]].
    + left. exact Hold.
    + right. left. exact Hov.
    + right. right. left. exact Hpg.
    + right. right. right. split; [exact Ho|]. split; [exact Hp|]. eauto.
Qed.

End DateOrigin.

(** X12.  Every release date in the stored record of a mod is the
    [release_date_override] of the entry when it has one; else the
    [release_date_override] of that game in [per_game_config] when there is
    one; else the publication date of one of the listed releases.  Lint runs
    and external mods store no release date. *)
Theorem release_dates_come_from_overrides_or_releases `{SemverLib} `{World} :
  forall (lintMode : bool) (modName : string) (modInfo : ModEntry)
         (info : ModSourceInfo) (lines : list Line) (game date : string),
    process_mod lintMode modName modInfo = Done info lines ->
    perGameConfig info !! game ≫= pgi_releaseDate = Some date ->
    lintMode = false /\
    external_link modInfo = None /\
    exists modReleases,
      listReleases (show (repo_owner modInfo)) (show (repo_name modInfo)) =
        Some modReleases /\
      date_origin modInfo modReleases game date.
Proof.
  intros lintMode modName modInfo info lines game date Hrun Hdate.
  destruct (initial_card modInfo game) as (_ & _ & Hnone).
  apply process_mod_inv in Hrun
    as (_ & [(link & games & _ & _ & ->)|(Hlink & _ & m & rels & Hloop & Hout)]).
  - cbn [perGameConfig as_external] in Hdate. congruence.
  - assert (Hm : perGameConfig m !! game ≫= pgi_releaseDate = Some date)
      by (destruct Hout as [(_ & ->)|(_ & ->)]; exact Hdate).
    destruct Hloop as [(_ & _ & ->)|(-> & Hlist & l' & Hloop)]; [congruence|].
    split; [reflexivity|]. split; [exact Hlink|].
    exists rels. split; [exact Hlist|].
    destruct (process_releases_dates _ _ _ _ _ _ _ Hloop game date Hm)
      as [Hold|Horigin]; [congruence|exact Horigin].
Qed.

Lemma release_dates_witness :
  Walk.dated_whole = Done Walk.dated_info [] /\
  perGameConfig Walk.dated_info !! "jak1" ≫= pgi_releaseDate =
    Some "2020-02-02" /\
  exists modReleases,
    @listReleases Scenario.world "x" "y" = Some modReleases /\
    date_origin Walk.dated modReleases "jak1" "2020-02-02".
Proof.
  assert (Hrun : Walk.dated_whole = Done Walk.dated_info [])
    by (vm_compute; reflexivity).
  assert (Hdate : perGameConfig Walk.dated_info !! "jak1" ≫= pgi_releaseDate =
                  Some "2020-02-02") by (vm_compute; reflexivity).
  split; [exact Hrun|]. split; [exact Hdate|].
  exact (proj2 (proj2 (@release_dates_come_from_overrides_or_releases
           npm_semver Scenario.world false "foo" Walk.dated Walk.dated_info []
           "jak1" "2020-02-02" Hrun Hdate))).
Defined.

(** ** External mods (lines 139-148) *)

(** X13.  An external mod with the four required keys is stored without
    asking GitHub, in lint runs and full runs alike: no versions, the link,
    and exactly the configured [supported_games], with no fallback to
    "jak1" when that list is empty.  Without [supported_games] the run ends
    with exit code 1. *)
Theorem external_mod_is_stored_as_configured `{SemverLib} `{World} :
  forall (lintMode : bool) (modName : string) (modInfo : ModEntry)
         (link : string),
    required_present modInfo = true ->
    external_link modInfo = Some link ->
    match supported_games modInfo with
    | Some games =>
        exists info,
          process_mod lintMode modName modInfo = Done info [] /\
          versions info = [] /\
          supportedGames info = games /\
          externalLink info = Some link /\
          websiteUrl info = website_url modInfo
    | None =>
        process_mod lintMode modName modInfo =
        Halt Exit1 [Err (modName +:+ " is external but lacks 'supported_games'")]
    end.
Proof.
  intros lintMode modName modInfo link Hreq Hlink.
  unfold process_mod. rewrite (validate_entry_ok _ _ Hreq), bind_Done, Hlink.
  destruct (supported_games modInfo) as [games|]; [|reflexivity].
  eexists. split; [reflexivity|].
  cbn [versions supportedGames externalLink websiteUrl as_external
       initial_mod_info].
  repeat split. unfold resolve_website. rewrite Hlink.
  destruct (website_url modInfo); reflexivity.
Qed.

Lemma external_mod_witness :
  required_present (Gallery.external (Some [])) = true /\
  external_link (Gallery.external (Some [])) =
    Some "https://example.org/elsewhere" /\
  exists info,
    @process_mod npm_semver Gallery.silent false "elsewhere"
      (Gallery.external (Some [])) = Done info [] /\
    versions info = [] /\
    supportedGames info = [] /\
    externalLink info = Some "https://example.org/elsewhere" /\
    websiteUrl info = None.
Proof.
  split; [reflexivity|]. split; [reflexivity|].
  exact (@external_mod_is_stored_as_configured npm_semver Gallery.silent false
           "elsewhere" (Gallery.external (Some []))
           "https://example.org/elsewhere" eq_refl eq_refl).
Defined.

(** ** Texture packs (lines 327-434) *)

Section PackRuns.
Context `{SemverLib} `{World}.

Lemma process_pack_releases_unchanged (modName : string) (modInfo : ModEntry)
  (modReleases : list Release) :
  forall (m m' : TexturePackInfo) (lines : list Line),
    process_pack_releases modName modInfo modReleases m = Done m' lines ->
    m' = m.
Proof.
  induction modReleases as [|release rest IH]; intros m m' lines.
  - cbn. intros [= <- _]. reflexivity.
  - cbn [process_pack_releases].
    destruct (process_pack_release _ _ _ release) as [m1 l1|] eqn:Hone;
      [|discriminate].
    rewrite bind_Done.
    destruct (process_pack_releases _ _ rest m1) as [m2 l2|] eqn:Hrest;
      [|discriminate].
    intros [= <- _]. rewrite (IH _ _ _ Hrest).
    revert Hone. unfold process_pack_release.
    destruct (negb _); [cbn; intros [= <- _]; reflexivity|].
    destruct (ignore_versions modInfo) as [rules|];
      [|cbn; intros [= <- _]; reflexivity].
    destruct (ignore_loop _ _ rules) as [[|] l3|]; [| |discriminate].
    + rewrite bind_Done. cbn. intros [= <- _]. reflexivity.
    + rewrite bind_Done, build_pack_version_throws. discriminate.
Qed.

End PackRuns.

(** X14.  No texture pack ever gets a version: a run that gets through a
    texture-pack entry stores the record the entry starts with, with an
    empty version list, whatever releases GitHub lists. *)
Theorem texture_pack_never_lists_a_version `{SemverLib} `{World} :
  forall (lintMode : bool) (modName : string) (modInfo : ModEntry)
         (info : TexturePackInfo) (lines : list Line),
    process_pack lintMode modName modInfo = Done info lines ->
    info = initial_pack_info modInfo /\ tp_versions info = [].
Proof.
  intros lintMode modName modInfo info lines. unfold process_pack.
  destruct (validate_entry modName modInfo) as [[] l1|]; [|discriminate].
  rewrite bind_Done.
  destruct (if negb _ && negb _ then _ else _) as [[] l2|]; [|discriminate].
  rewrite bind_Done.
  destruct (require_repo modName modInfo) as [[] l3|]; [|discriminate].
  rewrite bind_Done.
  destruct lintMode; cbn [negb].
  - cbn. intros [= <- _]. split; reflexivity.
  - destruct (listReleases _ _) as [modReleases|]; [|discriminate].
    destruct (process_pack_releases _ _ _ _) as [m l4|] eqn:Hloop;
      [|discriminate].
    intros [= <- _].
    rewrite (process_pack_releases_unchanged _ _ _ _ _ _ Hloop).
    split; reflexivity.
Qed.

Lemma texture_pack_witness :
  Walk.pack_run = Done (initial_pack_info Walk.pack) [] /\
  tp_versions (initial_pack_info Walk.pack) = [].
Proof.
  assert (Hrun : Walk.pack_run = Done (initial_pack_info Walk.pack) [])
    by (vm_compute; reflexivity).
  split; [exact Hrun|].
  exact (proj2 (@texture_pack_never_lists_a_version npm_semver Scenario.world
                  false "bar" Walk.pack (initial_pack_info Walk.pack) [] Hrun)).
Defined.

(** ** The catalog (lines 81-93, 146, 320-327, 433) *)


Section CatalogMaps.
Context `{SemverLib} `{World}.

Lemma is_Some_set {V} (key name : string) (value : V) (o : gmap string V) :
  is_Some (Js.set key value o !! name) <->
  is_Some (o !! name) \/ (name <> Js.proto /\ name = key).
Proof.
  destruct (decide (key = name)) as [->|Hne].
  - destruct (decide (name = Js.proto)) as [->|Hproto].
    + rewrite set_proto. tauto.
    + rewrite (lookup_set_eq _ _ _ Hproto). split; [tauto|eauto].
  - rewrite (lookup_set_ne _ _ _ _ Hne). split; [tauto|].
    intros [Hsome|[_ ->]]; [exact Hsome|contradiction].
Qed.

Lemma process_mods_lookup (lintMode : bool)
  (entries : list (string * ModEntry)) :
  forall (acc m : gmap string ModSourceInfo) (lines : list Line),
    process_mods lintMode entries acc = Done m lines ->
    (forall name,
       is_Some (m !! name) <->
       is_Some (acc !! name) \/ (name <> Js.proto /\ In name entries.*1)) /\
    (forall name, ~ In name entries.*1 -> m !! name = acc !! name) /\
    m !! Js.proto = acc !! Js.proto /\
    Forall (fun entry => exists info lines',
              process_mod lintMode entry.1 entry.2 = Done info lines')
      entries /\
    (NoDup entries.*1 ->
     forall modName modInfo, In (modName, modInfo) entries ->
       modName <> Js.proto ->
       exists info lines',
         process_mod lintMode modName modInfo = Done info lines' /\
         m !! modName = Some info).
Proof.
  induction entries as [|[name entry] rest IH]; intros acc m lines.
  - cbn. intros [= <- _]. split; [intros name; tauto|].
    split; [reflexivity|]. split; [reflexivity|]. split; [constructor|].
    intros _ modName modInfo [].
  - cbn [process_mods].
    destruct (process_mod lintMode name entry) as [info l1|] eqn:Hone;
      [|discriminate].
    rewrite bind_Done.
    destruct (process_mods lintMode rest _) as [m1 l2|] eqn:Hrest;
      [|discriminate].
    intros [= <- _].
    destruct (IH _ _ _ Hrest) as (Hdom & Hkeep & Hproto & Hall & Heach).
    cbn [fmap list_fmap fst].
    split; [|split; [|split; [|split]]].
    + intros modName. rewrite Hdom, is_Some_set. cbn [In]. split.
      * intros [[?|[? ->]]|[? ?]]; tauto.
      * intros [?|[? [<-|?]]]; tauto.
    + intros modName Hnot. cbn [In] in Hnot.
      rewrite (Hkeep modName) by tauto. apply lookup_set_ne. tauto.
    + rewrite Hproto. apply lookup_set_proto.
    + constructor; [cbn; eauto|exact Hall].
    + intros Hnodup modName modInfo Hin Hname.
      apply NoDup_cons in Hnodup as [Hfresh Hnodup].
      destruct Hin as [[= <- <-]|Hin].
      * exists info, l1. split; [exact Hone|].
        rewrite (Hkeep name) by (rewrite <- list_elem_of_In; exact Hfresh).
        apply lookup_set_eq. exact Hname.
      * exact (Heach Hnodup modName modInfo Hin Hname).
Qed.

Lemma process_packs_names (lintMode : bool)
  (entries : list (string * ModEntry)) :
  forall (acc m : gmap string TexturePackInfo) (lines : list Line),
    process_packs lintMode entries acc = Done m lines ->
    forall name,
      is_Some (m !! name) <->
      is_Some (acc !! name) \/ (name <> Js.proto /\ In name entries.*1).
Proof.
  induction entries as [|[name entry] rest IH]; intros acc m lines.
  - cbn. intros [= <- _] modName. tauto.
  - cbn [process_packs].
    destruct (process_pack lintMode name entry) as [info l1|]; [|discriminate].
    rewrite bind_Done.
    destruct (process_packs lintMode rest _) as [m1 l2|] eqn:Hrest;
      [|discriminate].
    intros [= <- _] modName. rewrite (IH _ _ _ Hrest), is_Some_set.
    cbn [fmap list_fmap fst In]. split.
    + intros [[?|[? ->]]|[? ?]]; tauto.
    + intros [?|[? [<-|?]]]; tauto.
Qed.

End CatalogMaps.

(** X15.  When the loop over the mods succeeds, the entry names being
    distinct, the catalog has the names it had before and the names of the
    entries, except that nothing is stored under the name "__proto__";
    names that are not among the entries keep their record; and every entry
    succeeded on its own, its record being the one stored under its name. *)
Theorem catalog_holds_one_record_per_entry `{SemverLib} `{World} :
  forall (lintMode : bool) (entries : list (string * ModEntry))
         (acc m : gmap string ModSourceInfo) (lines : list Line),
    NoDup entries.*1 ->
    process_mods lintMode entries acc = Done m lines ->
    (forall name,
       is_Some (m !! name) <->
       is_Some (acc !! name) \/ (name <> "__proto__" /\ In name entries.*1)) /\
    (forall name, ~ In name entries.*1 -> m !! name = acc !! name) /\
    m !! "__proto__" = acc !! "__proto__" /\
    (forall modName modInfo, In (modName, modInfo) entries ->
       exists info lines',
         process_mod lintMode modName modInfo = Done info lines' /\
         (modName <> "__proto__" -> m !! modName = Some info)).
Proof.
  intros lintMode entries acc m lines Hnodup Hrun.
  destruct (process_mods_lookup _ _ _ _ _ Hrun)
    as (Hdom & Hkeep & Hproto & Hall & Heach).
  split; [exact Hdom|]. split; [exact Hkeep|]. split; [exact Hproto|].
  intros modName modInfo Hin.
  destruct (decide (modName = "__proto__")) as [Hname|Hname].
  - rewrite Forall_forall in Hall.
    destruct (Hall (modName, modInfo)) as (info & l & Hone);
      [apply list_elem_of_In; exact Hin|].
    exists info, l. split; [exact Hone|contradiction].
  - destruct (Heach Hnodup modName modInfo Hin Hname) as (info & l & Hone & Hm).
    exists info, l. split; [exact Hone|intros _; exact Hm].
Qed.

Lemma catalog_records_witness :
  NoDup ["foo"; "__proto__"] /\
  Walk.odd_run = Done Walk.odd_map [] /\
  is_Some (Walk.odd_map !! "foo") /\
  Walk.odd_map !! "__proto__" = None.
Proof.
  assert (Hnodup : NoDup ["foo"; "__proto__"]).
  { apply NoDup_cons. split; [|apply NoDup_singleton].
    intros Hin%list_elem_of_singleton. discriminate Hin. }
  assert (Hrun : Walk.odd_run = Done Walk.odd_map [])
    by (vm_compute; reflexivity).
  split; [exact Hnodup|]. split; [exact Hrun|].
  destruct (@catalog_holds_one_record_per_entry npm_semver Scenario.world
              false Walk.odd_entries ∅ Walk.odd_map [] Hnodup Hrun)
    as (Hdom & _ & Hproto & _).
  split.
  - apply Hdom. right. split; [discriminate|left; reflexivity].
  - rewrite Hproto. apply lookup_empty.
Defined.

(** X16.  A catalog is assembled only from a configuration that parses, has
    a non-empty [metadata.name] and a [mods] section.  Its schema version is
    "1.0.0", its source name is [metadata.name], it carries no [lastUpdated]
    yet, and its mods and texture packs have the names of the entries of
    the configuration, except that no record is stored under the name
    "__proto__". *)
Theorem assembled_catalog_mirrors_configuration `{SemverLib} `{World} :
  forall (lintMode : bool) (configFile : option (Config + string))
         (catalog : Catalog) (lines : list Line),
    assemble lintMode configFile = Done catalog lines ->
    exists config name entries,
      configFile = Some (inl config) /\
      cfg_metadata config = Some (Some name) /\
      name <> "" /\
      cfg_mods config = Some entries /\
      schemaVersion catalog = "1.0.0" /\
      sourceName catalog = name /\
      lastUpdated catalog = None /\
      (forall modName,
         is_Some (mods catalog !! modName) <->
         modName <> "__proto__" /\ In modName entries.*1) /\
      (forall packName,
         is_Some (texturePacks catalog !! packName) <->
         packName <> "__proto__" /\
         In packName (default [] (cfg_texture_packs config)).*1).
Proof.
  intros lintMode configFile catalog lines. unfold assemble.
  destruct configFile as [[config|]|]; try discriminate.
  destruct (cfg_metadata config) as [[name|]|] eqn:Hmeta; try discriminate.
  destruct (truthy (Some name)) eqn:Hname; [|discriminate].
  cbn [negb]. rewrite bind_mret.
  destruct (cfg_mods config) as [entries|] eqn:Hmods; [|discriminate].
  destruct (process_mods lintMode entries ∅) as [m l1|] eqn:Hrun;
    [|discriminate].
  rewrite bind_Done.
  destruct (match cfg_texture_packs config with
            | Some packs => process_packs lintMode packs ∅
            | None => mret ∅
            end) as [t l2|] eqn:Hpacks; [|discriminate].
  rewrite bind_Done. cbn. intros [= <- _].
  exists config, name, entries.
  cbn in Hname. apply negb_true_iff, String.eqb_neq in Hname.
  assert (Hempty : forall (V : Type) (key : string),
            ~ is_Some ((∅ : gmap string V) !! key))
    by (intros V key [? Hsome]; rewrite lookup_empty in Hsome; discriminate).
  split; [reflexivity|]. split; [exact Hmeta|]. split; [exact Hname|].
  split; [exact Hmods|]. split; [reflexivity|]. split; [reflexivity|].
  split; [reflexivity|]. cbn [mods texturePacks]. split.
  - intros modName.
    destruct (process_mods_lookup _ _ _ _ _ Hrun) as (Hdom & _).
    rewrite Hdom. split; [intros [Hsome|Hin]|tauto]; [|exact Hin].
    destruct (Hempty _ _ Hsome).
  - intros packName.
    destruct (cfg_texture_packs config) as [packs|].
    + rewrite (process_packs_names _ _ _ _ _ Hpacks packName).
      cbn [default from_option id]. split; [intros [Hsome|Hin]|tauto];
        [|exact Hin].
      destruct (Hempty _ _ Hsome).
    + injection Hpacks as <- _. cbn. split; [|tauto].
      intros Hsome. destruct (Hempty _ _ Hsome).
Qed.

Lemma assembled_catalog_witness :
  Walk.odd_assembled = Done Walk.odd_catalog [] /\
  schemaVersion Walk.odd_catalog = "1.0.0" /\
  is_Some (mods Walk.odd_catalog !! "foo") /\
  ~ is_Some (mods Walk.odd_catalog !! "__proto__") /\
  ~ is_Some (texturePacks Walk.odd_catalog !! "__proto__").
Proof.
  assert (Hrun : Walk.odd_assembled = Done Walk.odd_catalog [])
    by (vm_compute; reflexivity).
  split; [exact Hrun|].
  destruct (@assembled_catalog_mirrors_configuration npm_semver Scenario.world
              false Walk.odd_config Walk.odd_catalog [] Hrun)
    as (config & name & entries & [= <-] & _ & _ & [= <-] & Hschema & _ & _
        & Hmods & Hpacks).
  split; [exact Hschema|]. split; [|split].
  - apply Hmods. split; [discriminate|left; reflexivity].
  - intros Hsome. apply Hmods in Hsome as [Hname _]. apply Hname. reflexivity.
  - intros Hsome. apply Hpacks in Hsome as [Hname _]. apply Hname. reflexivity.
Defined.

(** ** A release with nothing to download (lines 299-303) *)

Lemma last_match_none (prefix : string) (listed : list Asset) :
  Forall (fun asset => matches_prefix prefix asset = false) listed ->
  last_match prefix listed = None.
Proof.
  induction listed as [|asset listed IH] using rev_ind; [reflexivity|].
  intros Hall. apply Forall_app in Hall as [Hall Hasset].
  rewrite last_match_snoc. inversion Hasset as [|? ? Hno _]; subst.
  rewrite Hno. exact (IH Hall).
Qed.

(** X17.  A release whose assets fit no platform adds no version, and the
    line "ignoring version, no assets found" is printed for it.  All the
    same it got there only through its [metadata.json]: the last asset of
    that name was fetched with status 200, its document parsed and has
    [supportedGames], and those games and the publication date of the
    release are merged into the record of the mod. *)
Theorem release_without_download_still_merges_metadata `{World} :
  forall (lintMode : bool) (modName : string) (modInfo : ModEntry)
         (release : Release) (m m' : ModSourceInfo) (lines : list Line),
    Forall (fun asset => matches_prefix "windows-" asset = false /\
                         matches_prefix "linux-" asset = false /\
                         matches_prefix "macos-" asset = false)
      (release_assets release) ->
    build_version lintMode modName modInfo (clean_tag (tag_name release))
      release m = Done m' lines ->
    exists asset metadataResp data games lines',
      find is_metadata (rev (release_assets release)) = Some asset /\
      fetch (browser_download_url asset) = Some metadataResp /\
      status metadataResp = 200 /\
      body_json metadataResp = Some data /\
      md_supportedGames data = Some games /\
      versions m' = versions m /\
      supportedGames m' =
        fold_left add_supported_game games (supportedGames m) /\
      perGameConfig m' =
        fold_left (merge_release_date modInfo (published_at release)) games
          (perGameConfig m) /\
      lines = (lines' ++ [Out ("ignoring version, no assets found - " +:+
                 modName +:+ ":" +:+ clean_tag (tag_name release))])%list.
Proof.
  intros lintMode modName modInfo release m m' lines Hnone Hrun.
  apply build_version_inv in Hrun
    as (url & resp & data & v' & merged & l' & Hurl & Hfetch & Hstatus & Hbody
        & Hmeta & Hout).
  rewrite classify_assets_metadata in Hurl.
  apply fmap_Some in Hurl as (asset & Hfind & ->).
  apply apply_metadata_Done in Hmeta as (games & Hgames & Hv' & Hmerged).
  pose proof (classify_assets_keeps (release_assets release)
                (new_version (clean_tag (tag_name release)) release))
    as (_ & Hdate & _).
  cbn [publishedDate new_version] in Hdate. rewrite Hdate in Hmerged.
  pose proof (classify_assets_slots (clean_tag (tag_name release)) release
                (release_assets release)) as (Hw & Hl & Hmac).
  cbn zeta in Hw, Hl, Hmac.
  rewrite last_match_none in Hw, Hl, Hmac
    by (eapply Forall_impl; [exact Hnone|cbn; tauto]).
  assert (Hplat : has_platform v' = false).
  { subst v'. unfold has_platform, slot, slot_of in *.
    injection Hw as Hw _. injection Hl as Hl _. injection Hmac as Hmac _.
    destruct (md_settings data);
      cbn [assets with_supportedGames with_settings];
      rewrite Hw, Hl, Hmac; reflexivity. }
  destruct Hout as [(Hyes & _)|(_ & -> & ->)]; [congruence|].
  exists asset, resp, data, games, l'. subst merged. repeat split; assumption.
Qed.

Lemma release_without_download_witness :
  Walk.dropped = Done Walk.dropped_info (lines_of Walk.dropped) /\
  exists games,
    md_supportedGames Scenario.jak1_only = Some games /\
    versions Walk.dropped_info = versions Walk.start /\
    supportedGames Walk.dropped_info =
      fold_left add_supported_game games (supportedGames Walk.start) /\
    supportedGames Walk.dropped_info = ["jak1"].
Proof.
  assert (Hrun : Walk.dropped = Done Walk.dropped_info (lines_of Walk.dropped))
    by (vm_compute; reflexivity).
  assert (Hnone : Forall (fun asset =>
                    matches_prefix "windows-" asset = false /\
                    matches_prefix "linux-" asset = false /\
                    matches_prefix "macos-" asset = false)
                    (release_assets Walk.source_only))
    by (repeat constructor).
  split; [exact Hrun|].
  destruct (@release_without_download_still_merges_metadata Scenario.world
              false "foo" Walk.entry Walk.source_only Walk.start
              Walk.dropped_info (lines_of Walk.dropped) Hnone Hrun)
    as (asset & resp & data & games & l' & Hfind & Hfetch & _ & Hbody & Hgames
        & Hversions & Hsupported & _).
  injection Hfind as <-. vm_compute in Hfetch. injection Hfetch as <-.
  injection Hbody as <-.
  exists games. split; [exact Hgames|]. split; [exact Hversions|].
  split; [exact Hsupported|]. vm_compute. reflexivity.
Defined.

(** ** The art check (lines 261-287) *)

Lemma check_per_game_art_cases (modName key : string)
  (art : PerGameInfo -> option string) (cfg : gmap string PerGameInfo)
  (games : list string) :
  (Forall (fun game => is_Some (cfg !! game ≫= art)) games /\
   check_per_game_art modName key art cfg games = Done tt []) \/
  (exists found game rest,
     games = (found ++ game :: rest)%list /\
     Forall (fun g => is_Some (cfg !! g ≫= art)) found /\
     cfg !! game ≫= art = None /\
     check_per_game_art modName key art cfg games =
     Halt Exit1 [Err (modName +:+ " does not define '" +:+ key +:+
                      "' and it's missing in 'per_game_config." +:+ game +:+
                      "'")]).
Proof.
  induction games as [|game games IH].
  - left. split; [constructor|reflexivity].
  - cbn [check_per_game_art].
    destruct (cfg !! game ≫= art) as [url|] eqn:Hart.
    + destruct IH as [[Hall Hrun]|(found & g & rest & -> & Hfound & Hg & Hrun)].
      * left. split; [constructor; [rewrite Hart; eauto|exact Hall]|exact Hrun].
      * right. exists (game :: found), g, rest.
        repeat split; [constructor; [rewrite Hart; eauto|exact Hfound]
                      |exact Hg|exact Hrun].
    + right. exists [], game, games. repeat split; [constructor|exact Hart].
Qed.

(** X18.  In a full run the check of an art URL passes exactly when the URL
    is set for the whole mod, or the entry has a [per_game_config] and every
    supported game of the release has the URL there.  When it fails the run
    ends with exit code 1 and one line: that [per_game_config] is lacking,
    or else the first game, in the order of the document, that lacks the
    URL. *)
Theorem art_check_passes_iff_every_game_has_art :
  forall (modName key : string) (modInfo : ModEntry)
         (topLevel : option string) (art : PerGameInfo -> option string)
         (cfg : gmap string PerGameInfo) (games : list string),
    (verify_art false modName key modInfo topLevel art cfg games = Done tt [] <->
     is_Some topLevel \/
     (has (per_game_config modInfo) = true /\
      Forall (fun game => is_Some (cfg !! game ≫= art)) games)) /\
    (verify_art false modName key modInfo topLevel art cfg games = Done tt [] \/
     verify_art false modName key modInfo topLevel art cfg games =
       Halt Exit1 [Err (modName +:+ " does not define '" +:+ key +:+
                        "' but lacks 'per_game_config'")] \/
     exists found game rest,
       games = (found ++ game :: rest)%list /\
       Forall (fun g => is_Some (cfg !! g ≫= art)) found /\
       cfg !! game ≫= art = None /\
       verify_art false modName key modInfo topLevel art cfg games =
       Halt Exit1 [Err (modName +:+ " does not define '" +:+ key +:+
                        "' and it's missing in 'per_game_config." +:+ game +:+
                        "'")]).
Proof.
  intros modName key modInfo topLevel art cfg games. unfold verify_art.
  destruct topLevel as [url|].
  - split; [|left; reflexivity]. split; [left; eauto|reflexivity].
  - destruct (has (per_game_config modInfo)); cbn [negb].
    + rewrite bind_mret.
      destruct (check_per_game_art_cases modName key art cfg games)
        as [[Hall Hrun]|(found & game & rest & Hgames & Hfound & Hgame & Hrun)].
      * split; [|left; exact Hrun]. split; [right; tauto|intros _; exact Hrun].
      * split; [|right; right; eauto 10]. rewrite Hrun. split; [discriminate|].
        intros [[? [=]]|[_ Hall]]. subst games.
        apply Forall_app in Hall as [_ Hall].
        inversion Hall as [|? ? [? Hsome] _]; subst. congruence.
    + split; [|right; left; reflexivity]. split; [discriminate|].
      intros [[? [=]]|[[=] _]].
Qed.

(** ** The remaining statements at work *)

Lemma lint_run_witness :
  Walk.lint_run = Done Walk.lint_result (lines_of Walk.lint_run) /\
  snd Walk.lint_result = None.
Proof.
  assert (Hrun : Walk.lint_run =
                 Done (fst Walk.lint_result, snd Walk.lint_result)
                      (lines_of Walk.lint_run))
    by (vm_compute; reflexivity).
  split; [vm_compute; reflexivity|].
  exact (proj1 (lint_run_is_offline npm_semver Scenario.world
                  Scenario.stamped_text [] Walk.two_mods (Some "old#text"))
           (fst Walk.lint_result) (snd Walk.lint_result)
           (lines_of Walk.lint_run) Hrun).
Defined.

Lemma metadata_url_witness :
  is_metadata (Scenario.metadata_asset Scenario.plain_metadata) = true /\
  classify_asset (new_version "1.0.0" Scenario.scenario_release, None)
    (Scenario.metadata_asset Scenario.plain_metadata) =
  (new_version "1.0.0" Scenario.scenario_release,
   Some Scenario.plain_metadata).
Proof.
  split; [reflexivity|].
  exact (proj1 (proj2 (metadata_url_is_last_metadata_asset
           (new_version "1.0.0" Scenario.scenario_release) []))
           (Scenario.metadata_asset Scenario.plain_metadata) None eq_refl).
Defined.

(** * Ignore rules, settings and the command line, end to end *)

(** ** Ignore rules (lines 166-184) *)

Section IgnoreOutcome.
Context `{SemverLib}.

Lemma rule_matches_readable (v rule : string) :
  rule_matches v rule = true -> rule_readable rule = true.
Proof.
  unfold rule_matches, rule_readable, semver_valid.
  destruct (semver_parse v); [|discriminate].
  destruct (semver_parse (rule_version rule)); [reflexivity|discriminate].
Qed.

Lemma ignore_loop_stops_iff (modName v : string) (rules : list string) :
  semver_valid v = true ->
  (stopped (ignore_loop modName v rules) = None \/
   stopped (ignore_loop modName v rules) = Some TypeError) /\
  (stopped (ignore_loop modName v rules) = Some TypeError <->
   exists pre rule post,
     rules = (pre ++ rule :: post)%list /\
     Forall (fun q => rule_readable q = true /\ rule_matches v q = false) pre /\
     rule_readable rule = false).
Proof.
  intros Hv. induction rules as [|q rules [IHcases IH]].
  - cbn. split; [left; reflexivity|]. split; [discriminate|].
    intros (pre & rule & post & Heq & _). destruct pre; discriminate.
  - rewrite ignore_loop_cons, Hv. cbn [andb].
    destruct (rule_matches v q) eqn:Hq.
    + cbn. split; [left; reflexivity|]. split; [discriminate|].
      intros (pre & rule & post & Heq & Hpre & Hrule).
      destruct pre as [|q' pre]; cbn in Heq; injection Heq as -> ->.
      * apply rule_matches_readable in Hq. congruence.
      * inversion Hpre as [|? ? [_ Hno] _]; subst. congruence.
    + destruct (rule_readable q) eqn:Hr.
      * split; [exact IHcases|]. rewrite IH. split.
        -- intros (pre & rule & post & -> & Hpre & Hrule).
           exists (q :: pre), rule, post. repeat split; [|exact Hrule].
           constructor; [split; assumption|exact Hpre].
        -- intros (pre & rule & post & Heq & Hpre & Hrule).
           destruct pre as [|q' pre]; cbn in Heq; injection Heq as -> ->.
           ++ congruence.
           ++ inversion Hpre; subst. exists pre, rule, post.
              repeat split; assumption.
      * cbn. split; [right; reflexivity|]. split; [|reflexivity].
        intros _. exists [], q, rules. repeat split; [constructor|exact Hr].
Qed.

End IgnoreOutcome.

(** C5 as stated fails: with the rules "not a version" and "<1.2.0", the
    release 1.1.9 is matched by a rule, yet it is not skipped: the first
    rule makes [semver.eq] throw and the run stops. *)
Lemma unreadable_rule_before_match_stops_run :
  @semver_valid npm_semver (clean_tag (tag_name Edge.release_1_1_9)) = true /\
  In "<1.2.0" Edge.unreadable_first /\
  @rule_matches npm_semver "1.1.9" "<1.2.0" = true /\
  @ignore_loop npm_semver "foo" "1.1.9" Edge.unreadable_first =
    Halt TypeError [] /\
  @process_release npm_semver Scenario.world false "foo"
    (Scenario.foo "y" (Some Edge.unreadable_first))
    (initial_mod_info (Scenario.foo "y" (Some Edge.unreadable_first)))
    Edge.release_1_1_9 = Halt TypeError [].
Proof. vm_compute. repeat split. right. left. reflexivity. Qed.

(** C5, amended.  With [ignore_versions] configured, a release with a valid
    version is skipped exactly when some rule matches it and every rule
    before that one reads as a version and does not match: the rules after
    the first match are not looked at.  The run stops, on the exception of
    [semver], exactly when a rule that does not read as a version comes
    before any match.  When every rule reads as a version, the release is
    skipped exactly when some rule matches.  A bound "<b" does not match a
    release that compares equal to [b].  A skipped release leaves
    [modSourceInfo] as it was, and a release that is not skipped goes on to
    its assets and metadata. *)
Theorem ignore_rules_first_match `{SemverLib} `{World} :
  forall (modName v : string) (rules : list string),
    semver_valid v = true ->
    (value_of (ignore_loop modName v rules) = Some true <->
     exists pre rule post,
       rules = (pre ++ rule :: post)%list /\
       Forall (fun q => rule_readable q = true /\ rule_matches v q = false) pre /\
       rule_matches v rule = true) /\
    (stopped (ignore_loop modName v rules) = Some TypeError <->
     exists pre rule post,
       rules = (pre ++ rule :: post)%list /\
       Forall (fun q => rule_readable q = true /\ rule_matches v q = false) pre /\
       rule_readable rule = false) /\
    (stopped (ignore_loop modName v rules) = None \/
     stopped (ignore_loop modName v rules) = Some TypeError) /\
    (Forall (fun q => rule_readable q = true) rules ->
     stopped (ignore_loop modName v rules) = None /\
     (value_of (ignore_loop modName v rules) = Some true <->
      exists rule, In rule rules /\ rule_matches v rule = true)) /\
    (forall x b bound,
       semver_parse v = Some x -> semver_parse bound = Some b ->
       semver_compare x b = Eq -> rule_matches v (String "<" bound) = false) /\
    (forall lintMode modInfo modSourceInfo release,
       clean_tag (tag_name release) = v ->
       ignore_versions modInfo = Some rules ->
       process_release lintMode modName modInfo modSourceInfo release =
       (skipIt ← ignore_loop modName v rules;
        if (skipIt : bool) then mret modSourceInfo
        else build_version lintMode modName modInfo v release modSourceInfo)).
Proof.
  intros modName v rules Hv.
  destruct (ignore_loop_stops_iff modName v rules Hv) as [Hcases Hstops].
  split; [apply ignore_loop_skips_iff|]. split; [exact Hstops|].
  split; [exact Hcases|]. split; [|split].
  - intros Hall.
    destruct (ignore_loop_readable modName v rules Hv Hall) as [lines Hrun].
    rewrite Hrun. cbn. split; [reflexivity|].
    split.
    + intros [= Hex]. apply existsb_exists in Hex. exact Hex.
    + intros Hex. f_equal. apply existsb_exists. exact Hex.
  - intros x b bound Hx Hb Hcmp. unfold rule_matches, rule_version.
    cbn [Str.startsWith Str.substring1]. rewrite Ascii.eqb_refl. cbn [andb].
    rewrite Hx, Hb, Hcmp. reflexivity.
  - intros lintMode modInfo modSourceInfo release Htag Hrules.
    unfold process_release. rewrite Htag, Hv, Hrules. reflexivity.
Qed.

(** The release 1.0.0 under the rules "<1.0.0" and "not a version": the
    bound is not matched, the second rule stops the run; under "<1.0.0"
    alone the release is built into a version. *)
Lemma ignore_rules_witness :
  @semver_valid npm_semver "1.0.0" = true /\
  @stopped bool (@ignore_loop npm_semver "foo" "1.0.0"
                   ["<1.0.0"; "not a version"]) = Some TypeError /\
  @process_release npm_semver Scenario.world false "foo"
    (Scenario.foo "y" (Some ["<1.0.0"]))
    (initial_mod_info (Scenario.foo "y" (Some ["<1.0.0"])))
    Scenario.scenario_release =
  (skipIt ← @ignore_loop npm_semver "foo" "1.0.0" ["<1.0.0"];
   if (skipIt : bool)
   then mret (initial_mod_info (Scenario.foo "y" (Some ["<1.0.0"])))
   else @build_version Scenario.world false "foo"
          (Scenario.foo "y" (Some ["<1.0.0"])) "1.0.0"
          Scenario.scenario_release
          (initial_mod_info (Scenario.foo "y" (Some ["<1.0.0"])))).
Proof.
  split; [reflexivity|]. split.
  - apply (proj1 (proj2 (@ignore_rules_first_match npm_semver Scenario.world
                          "foo" "1.0.0" ["<1.0.0"; "not a version"] eq_refl))).
    exists ["<1.0.0"], "not a version", []. repeat split.
    repeat constructor.
  - exact (proj2 (proj2 (proj2 (proj2 (proj2
             (@ignore_rules_first_match npm_semver Scenario.world "foo"
                "1.0.0" ["<1.0.0"] eq_refl)))))
             false (Scenario.foo "y" (Some ["<1.0.0"]))
             (initial_mod_info (Scenario.foo "y" (Some ["<1.0.0"])))
             Scenario.scenario_release eq_refl eq_refl).
Defined.

(** A release at the bound is kept and listed. *)
Example release_at_the_bound_is_listed :
  map version
    (versions (default (initial_mod_info (Scenario.foo "y" (Some ["<1.0.0"])))
      (value_of (@process_release npm_semver Scenario.world false "foo"
                   (Scenario.foo "y" (Some ["<1.0.0"]))
                   (initial_mod_info (Scenario.foo "y" (Some ["<1.0.0"])))
                   Scenario.scenario_release))))
  = ["1.0.0"].
Proof. vm_compute. reflexivity. Qed.

(** ** Release dates under the name "__proto__" (lines 243-256) *)

(** C6 as stated fails for a game named "__proto__": the release is
    accepted and names the game, but the assignments of the loop replace
    the prototype of [perGameConfig] and store no property, so the game has
    no release date afterwards. *)
Lemma game_named_proto_gets_no_release_date :
  md_supportedGames Edge.proto_document = Some ["__proto__"] /\
  stopped Edge.proto_run = None /\
  (fun result => v_supportedGames (fst result)) <$> value_of Edge.proto_run =
    Some ["__proto__"] /\
  (fun result => perGameConfig (snd result) !! "__proto__")
    <$> value_of Edge.proto_run = Some None.
Proof. vm_compute. repeat split. Qed.

(** ** Settings (lines 186-204, 226-228, 299-305) *)

(** C10.  When the document has a [settings] key, the release contributes a
    version exactly when some asset fits a platform, at the end of the list,
    and that version carries exactly the value of the document as its
    settings, whatever it is: nothing of the default object is kept. *)
Theorem settings_replaced_wholesale `{World} :
  forall (lintMode : bool) (modName : string) (modInfo : ModEntry)
         (tag : string) (release : Release)
         (modSourceInfo modSourceInfo' : ModSourceInfo) (lines : list Line)
         (url : string) (metadataResp : Response) (data : MetadataDoc)
         (documentSettings : json),
    snd (classify_assets (new_version tag release) (release_assets release)) =
      Some url ->
    fetch url = Some metadataResp ->
    status metadataResp = 200 ->
    body_json metadataResp = Some data ->
    md_settings data = Some documentSettings ->
    build_version lintMode modName modInfo tag release modSourceInfo =
      Done modSourceInfo' lines ->
    if has_platform (fst (classify_assets (new_version tag release)
                            (release_assets release)))
    then exists v,
           versions modSourceInfo' = (versions modSourceInfo ++ [v])%list /\
           version v = tag /\
           settings v = documentSettings /\
           assets v = assets (fst (classify_assets (new_version tag release)
                                     (release_assets release)))
    else versions modSourceInfo' = versions modSourceInfo.
Proof.
  intros lintMode modName modInfo tag release modSourceInfo modSourceInfo'
    lines url metadataResp data documentSettings Hurl Hfetch Hstatus Hbody
    Hsettings Hrun.
  unfold build_version in Hrun.
  pose proof (classify_assets_keeps (release_assets release)
                (new_version tag release)) as (Hversion & _).
  destruct (classify_assets _ _) as [newVersion meta]. cbn [fst snd] in *.
  subst meta. unfold resolve_metadata in Hrun.
  rewrite Hfetch, Hstatus, Hbody in Hrun. cbn [Z.eqb Pos.eqb] in Hrun.
  destruct (apply_metadata _ _ _ _ _ _ _) as [[newVersion' merged] l1|] eqn:Hmeta;
    [|discriminate].
  rewrite bind_Done in Hrun.
  apply apply_metadata_Done in Hmeta as (games & _ & -> & ->).
  rewrite Hsettings in Hrun.
  cbn [assets with_supportedGames with_settings] in Hrun.
  fold (has_platform newVersion) in Hrun.
  destruct (has_platform newVersion); cbn in Hrun; injection Hrun as <- _.
  - eexists. split; [reflexivity|]. split; [exact Hversion|].
    split; reflexivity.
  - reflexivity.
Qed.

Lemma settings_witness :
  snd (classify_assets
         (new_version "1.1.0" Scenario.release_with_partial_settings)
         (release_assets Scenario.release_with_partial_settings)) =
    Some Scenario.partial_metadata /\
  Applied.built = Done Applied.built_info [] /\
  exists v,
    versions Applied.built_info =
      (versions (initial_mod_info Applied.modInfo) ++ [v])%list /\
    version v = "1.1.0" /\
    settings v = Scenario.partial_settings.
Proof.
  assert (Hrun : Applied.built = Done Applied.built_info [])
    by (vm_compute; reflexivity).
  split; [reflexivity|]. split; [exact Hrun|].
  destruct (@settings_replaced_wholesale Scenario.world false "foo"
              Applied.modInfo "1.1.0" Scenario.release_with_partial_settings
              (initial_mod_info Applied.modInfo) Applied.built_info []
              Scenario.partial_metadata
              {| status := 200; body_json := Some Scenario.jak1_partial;
                 body_error := "" |}
              Scenario.jak1_partial Scenario.partial_settings
              eq_refl eq_refl eq_refl eq_refl eq_refl Hrun)
    as (v & Hversions & Hversion & Hsettings & _).
  exists v. split; [exact Hversions|]. split; [exact Hversion|exact Hsettings].
Defined.

(** ** Command line (lines 9-17, 153, 437) *)

Section FullRun.
Context `{SemverLib} `{World} `{JsonLib}.

Lemma main_full_run (arg0 : string) (rest : list string)
  (configFile : option (Config + string)) (existing : option string) :
  arg0 <> "lint" ->
  main (arg0 :: rest) configFile existing =
  (console_log "lint mode enabled";;
   modSourceData ← assemble false configFile;
   written ← diff_and_write false existing modSourceData;
   mret (modSourceData, written)).
Proof.
  intros Hne. apply String.eqb_neq in Hne.
  unfold main. cbn [parse_args]. rewrite Hne. reflexivity.
Qed.

Lemma assemble_Done_mods (lintMode : bool)
  (configFile : option (Config + string)) (catalog : Catalog)
  (lines : list Line) :
  assemble lintMode configFile = Done catalog lines ->
  forall config entries,
    configFile = Some (inl config) -> cfg_mods config = Some entries ->
    Forall (fun entry => exists info lines',
              process_mod lintMode entry.1 entry.2 = Done info lines')
      entries.
Proof.
  unfold assemble. intros Hrun config entries -> Hmods. rewrite Hmods in Hrun.
  destruct (cfg_metadata config) as [name|]; [|discriminate].
  destruct (negb (truthy name)); [discriminate|].
  rewrite bind_mret in Hrun.
  destruct (process_mods lintMode entries ∅) as [m l1|] eqn:Hloop;
    [|discriminate].
  destruct (process_mods_lookup _ _ _ _ _ Hloop) as (_ & _ & _ & Hall & _).
  exact Hall.
Qed.

End FullRun.

(** C9.  [lintMode] is true exactly when the first argument is "lint", and
    the message "lint mode enabled" is printed exactly when there is an
    argument.  A run whose first argument is anything else prints the
    message and is a full run: the catalog is assembled with [lintMode]
    false and handed to the last step with [lintMode] false; when it
    succeeds, the release list of every mod of the configuration that is
    not external was requested and answered, and, there being no file yet,
    the catalog was written with its time stamp. *)
Theorem lint_mode_iff_first_argument_is_lint `{SemverLib} `{World} `{JsonLib} :
  forall args : list string,
    (exists lintMode, value_of (parse_args args) = Some lintMode /\
       (lintMode = true <-> exists rest, args = "lint" :: rest)) /\
    (lines_of (parse_args args) =
       if decide (args = []) then [] else [Out "lint mode enabled"]) /\
    (forall arg0 rest configFile existing,
       args = arg0 :: rest -> arg0 <> "lint" ->
       main args configFile existing =
         (console_log "lint mode enabled";;
          modSourceData ← assemble false configFile;
          written ← diff_and_write false existing modSourceData;
          mret (modSourceData, written)) /\
       forall catalog written lines,
         main args configFile existing = Done (catalog, written) lines ->
         (existing = None ->
          written = Some (JSON_stringify_pretty (stamp now catalog))) /\
         (forall config entries modName modInfo,
            configFile = Some (inl config) ->
            cfg_mods config = Some entries ->
            In (modName, modInfo) entries ->
            external_link modInfo = None ->
            is_Some (listReleases (show (repo_owner modInfo))
                                  (show (repo_name modInfo))))).
Proof.
  intros args. split; [|split].
  - destruct args as [|arg0 rest]; simpl.
    + exists false. split; [reflexivity|]. split; [discriminate|].
      intros [? ?]; discriminate.
    + exists (String.eqb arg0 "lint"). split; [reflexivity|].
      rewrite String.eqb_eq. split.
      * intros ->. eauto.
      * intros [? [= -> _]]. reflexivity.
  - destruct args; reflexivity.
  - intros arg0 rest configFile existing -> Hne.
    rewrite (main_full_run arg0 rest configFile existing Hne).
    split; [reflexivity|].
    intros catalog written lines. unfold console_log. rewrite bind_Done.
    destruct (assemble false configFile) as [c l1|] eqn:Hassemble;
      [|discriminate].
    rewrite bind_Done.
    destruct (diff_and_write false existing c) as [w l2|] eqn:Hwrite;
      [|discriminate].
    rewrite bind_Done. cbn. intros [= <- <- _]. split.
    + intros ->. cbn in Hwrite. injection Hwrite as <- _. reflexivity.
    + intros config entries modName modInfo Hconfig Hmods Hin Hlink.
      pose proof (assemble_Done_mods _ _ _ _ Hassemble config entries
                    Hconfig Hmods) as Hall.
      rewrite Forall_forall in Hall.
      destruct (Hall (modName, modInfo)) as (info & l & Hone);
        [apply list_elem_of_In; exact Hin|].
      cbn [fst snd] in Hone.
      apply process_mod_inv in Hone
        as (_ & [(link & games & Hl & _)|(_ & _ & m & rels & Hloop & _)]);
        [congruence|].
      destruct Hloop as [([=] & _)|(_ & Hlist & _)].
      rewrite Hlist. eauto.
Qed.

Lemma lint_mode_witness :
  "check" <> "lint" /\
  Edge.checked = Done Edge.checked_result (lines_of Edge.checked) /\
  snd Edge.checked_result =
    Some (@JSON_stringify_pretty Scenario.stamped_text
            (stamp (@now Scenario.world) (fst Edge.checked_result))) /\
  is_Some (@listReleases Scenario.world "x" "y").
Proof.
  assert (Hne : "check" <> "lint") by discriminate.
  assert (Hrun : Edge.checked =
                 Done (fst Edge.checked_result, snd Edge.checked_result)
                   (lines_of Edge.checked))
    by (vm_compute; reflexivity).
  split; [exact Hne|]. split; [vm_compute; reflexivity|].
  destruct (proj2 (proj2 (proj2 (@lint_mode_iff_first_argument_is_lint
              npm_semver Scenario.world Scenario.stamped_text ["check"]))
              "check" [] Walk.two_mods None eq_refl Hne)
              (fst Edge.checked_result) (snd Edge.checked_result)
              (lines_of Edge.checked) Hrun)
    as [Hwritten Hasked].
  split; [exact (Hwritten eq_refl)|].
  exact (Hasked _ _ "foo" Walk.entry eq_refl eq_refl (or_introl eq_refl)
           eq_refl).
Defined.
